(** * Gmail OAuth demo servers: token store, provider client and routes

    A shallow embedding of the JavaScript sources:

    - [utils/tokenManager.js]       the credential store ([saveTokens],
      [loadTokens], [isTokenExpired]);
    - [config/gmailConfig.js]       the shared OAuth2 client;
    - [services/emailService.js]    the delegated-access client;
    - [routes/authRoutes.js], [routes/delegatedEmailRoutes.js],
      [routes/emailRoutes.js];
    - the two single-file servers with their [GmailService] class, their
      listing and send endpoints and the health endpoint.

    Conventions of the embedding.

    - A JavaScript string is a [string] whose characters are code units
      below 256.  [Buffer.from] is also given on every sequence of UTF-16
      code units ([utf8_units]), of which [utf8] is the restriction to
      these strings.
    - An [async] function is a state transformer over [World] that either
      returns or throws ([Js]); [await] is sequencing.  Requests are handled
      one at a time: nothing here speaks about interleavings.
    - A JSON document is a [json] value, the tree of its text: the numbers
      are integers, the members of an object come in the order of the
      text, and a name written twice is kept twice, the last one being
      the one that a property read finds.  Whatever [JSON.parse] accepts
      is a document: an object, but also [null], a boolean, a number, a
      string or an array.
    - A property read on an object finds its own member, then the members
      of [Object.prototype] ([inherited]); an assignment replaces an own
      member or adds one, and [obj.__proto__ = x] on an object without
      such a member of its own changes no member; on [null] both throw.
      What the engine does on the other values, the wording of its
      [TypeError] and its conversion of a value that is not a number to a
      number or to a date are an interface ([Engine]).
    - [console.log] and [console.error] are not modelled.
    - [Date.now()] and [new Date()] read one clock, which stands still
      while a request is handled.
    - The platform ([JSON], [Date], the file system, the remote Gmail API,
      the token endpoint, the OAuth2 client of the provider's library) is
      not code of the repository.  [JSON], the remote API, the token
      endpoint, the client and the locale of the host are interfaces
      ([Json], [Provider], [OAuth2], [Client], [Locale]).  A request that
      goes through the shared OAuth2 client leaves the process only when
      the client lets it, with the access token the client chooses, and
      the client may rewrite its credentials ([authorize]).
    - The examples run on instances of these interfaces: [json_text] is a
      JSON printer and parser for the documents whose numbers are
      integers, proved to read back what it prints ([JsonLaws]); [node] is the engine on the values of the examples;
      [library_client] is the client of the provider's library in front
      of a token endpoint that rejects every refresh; [flaky] is a remote
      side that rejects one detail fetch. *)

From Stdlib Require Import ZArith Ascii String List Lia Bool.
From Stdlib Require Import Decimal DecimalString DecimalZ DecimalPos.
From stdpp Require Import base option strings gmap.

Local Open Scope Z_scope.
Set Warnings "-register-all".

(* ================================================================== *)
(** ** JavaScript values that the servers exchange *)

(** A JSON value: what [res.json] sends and what the remote API returns as
    opaque [data]. *)
Inductive json : Type :=
| JNull
| JBool (b : bool)
| JNum (n : Z)
| JStr (s : string)
| JArr (items : list json)
| JObj (fields : list (string * json)).

(** A thrown [Error]; the sources only ever read its [message]. *)
Record Error := mkError { message : string }.

Inductive outcome (A : Type) : Type :=
| Return (a : A)
| Throw (e : Error).
Arguments Return {A} a.
Arguments Throw {A} e.

(** [!s] for a value that is a string or [undefined]. *)
Definition falsy (v : option string) : bool :=
  match v with
  | None => true
  | Some s => if decide (s = ""%string) then true else false
  end.

(** [v || d] for such a value. *)
Definition or_default (v : option string) (d : string) : string :=
  if falsy v then d else default d v.

(** White space as [String.prototype.trim] and the regular expression class
    [\s] see it, among code units below 256. *)
Definition is_space (c : ascii) : bool :=
  match N_of_ascii c with
  | 9%N | 10%N | 11%N | 12%N | 13%N | 32%N | 160%N => true
  | _ => false
  end.

Fixpoint trimStart (s : string) : string :=
  match s with
  | String c r => if is_space c then trimStart r else s
  | EmptyString => EmptyString
  end.

(** [s] without its longest suffix of characters in [p]: a character is
    kept when it is not in [p] or when something is left after it. *)
Fixpoint dropEnd (p : ascii -> bool) (s : string) : string :=
  match s with
  | String c r =>
      match dropEnd p r with
      | EmptyString => if p c then EmptyString else String c EmptyString
      | r' => String c r'
      end
  | EmptyString => EmptyString
  end.

Definition trimEnd (s : string) : string := dropEnd is_space s.

Definition trim (s : string) : string := trimEnd (trimStart s).

(** [lines.join(sep)]. *)
Fixpoint join (sep : string) (lines : list string) : string :=
  match lines with
  | [] => ""
  | [l] => l
  | l :: rest => l +:+ sep +:+ join sep rest
  end.

Definition CRLF : string := String (ascii_of_N 13) (String (ascii_of_N 10) "").
Definition LF : string := String (ascii_of_N 10) "".

(** [s.replace(/a/g, b)] for single characters. *)
Fixpoint replace_all (a b : ascii) (s : string) : string :=
  match s with
  | String c r => String (if Ascii.eqb c a then b else c) (replace_all a b r)
  | EmptyString => EmptyString
  end.

(* ================================================================== *)
(** ** [Buffer]: UTF-8 and base64 *)

(** [Buffer.from(s)]: the UTF-8 bytes of a string of the embedding, one
    or two for each of its code units. *)
Definition utf8_char (c : ascii) : string :=
  let n := N_of_ascii c in
  if (n <? 128)%N then String c ""
  else String (ascii_of_N (192 + n / 64)) (String (ascii_of_N (128 + n mod 64)) "").

Fixpoint utf8 (s : string) : string :=
  match s with
  | EmptyString => EmptyString
  | String c r => utf8_char c +:+ utf8 r
  end.


(** The same for every JavaScript string: a string in full is the list of
    its UTF-16 code units, numbers below 65536, of which the strings of the
    embedding are those that stay below 256. *)
Section AllCodeUnits.
Local Open Scope N_scope.

(** The UTF-16 code units of a string of the embedding. *)
Definition code_units (s : string) : list N := map N_of_ascii (list_ascii_of_string s).

(** The two halves of a surrogate pair. *)
Definition is_high (u : N) : bool := (55296 <=? u) && (u <=? 56319).
Definition is_low (u : N) : bool := (56320 <=? u) && (u <=? 57343).

(** No code unit is a surrogate without its other half. *)
Fixpoint paired (s : list N) : bool :=
  match s with
  | [] => true
  | u :: rest =>
      if is_high u then
        match rest with
        | l :: rest' => is_low l && paired rest'
        | [] => false
        end
      else negb (is_low u) && (u <? 65536) && paired rest
  end.

(** The UTF-8 bytes of a code point. *)
Definition utf8_point (p : N) : string :=
  if p <? 128 then String (ascii_of_N p) ""
  else if p <? 2048 then
    String (ascii_of_N (192 + p / 64)) (String (ascii_of_N (128 + p mod 64)) "")
  else if p <? 65536 then
    String (ascii_of_N (224 + p / 64 / 64))
      (String (ascii_of_N (128 + p / 64 mod 64)) (String (ascii_of_N (128 + p mod 64)) ""))
  else
    String (ascii_of_N (240 + p / 64 / 64 / 64))
      (String (ascii_of_N (128 + p / 64 / 64 mod 64))
         (String (ascii_of_N (128 + p / 64 mod 64))
            (String (ascii_of_N (128 + p mod 64)) ""))).

(** [Buffer.from(s)] on any string: a surrogate pair is one code point, a
    surrogate without its other half is written as U+FFFD. *)
Fixpoint utf8_units (s : list N) : string :=
  match s with
  | [] => ""
  | u :: rest =>
      if is_high u then
        match rest with
        | l :: rest' =>
            if is_low l
            then utf8_point (65536 + (u - 55296) * 1024 + (l - 56320)) +:+ utf8_units rest'
            else utf8_point 65533 +:+ utf8_units rest
        | [] => utf8_point 65533
        end
      else if is_low u then utf8_point 65533 +:+ utf8_units rest
      else utf8_point u +:+ utf8_units rest
  end.

Definition continuation (c : ascii) : bool :=
  let n := N_of_ascii c in (128 <=? n) && (n <? 192).

Definition low6 (c : ascii) : N := N_of_ascii c - 128.

(** [buf.toString('utf8')] on the bytes of a string; [None]: the bytes are
    not the UTF-8 of a sequence of code points. *)
Fixpoint utf8_decode_units (bytes : string) : option (list N) :=
  match bytes with
  | EmptyString => Some []
  | String b0 r =>
      let n := N_of_ascii b0 in
      if n <? 128 then cons n <$> utf8_decode_units r
      else if (194 <=? n) && (n <? 224) then
        match r with
        | String b1 r1 =>
            if continuation b1
            then cons ((n - 192) * 64 + low6 b1) <$> utf8_decode_units r1
            else None
        | _ => None
        end
      else if (224 <=? n) && (n <? 240) then
        match r with
        | String b1 (String b2 r2) =>
            let p := ((n - 224) * 64 + low6 b1) * 64 + low6 b2 in
            if continuation b1 && continuation b2 && (2048 <=? p)
               && negb (is_high p) && negb (is_low p)
            then cons p <$> utf8_decode_units r2
            else None
        | _ => None
        end
      else if (240 <=? n) && (n <? 245) then
        match r with
        | String b1 (String b2 (String b3 r3)) =>
            let p := (((n - 240) * 64 + low6 b1) * 64 + low6 b2) * 64 + low6 b3 in
            if continuation b1 && continuation b2 && continuation b3
               && (65536 <=? p) && (p <? 1114112)
            then (fun t => (55296 + (p - 65536) / 1024) :: (56320 + (p - 65536) mod 1024) :: t)
                 <$> utf8_decode_units r3
            else None
        | _ => None
        end
      else None
  end.

End AllCodeUnits.

Definition alphabet : string :=
  "ABCDEFGHIJKLMNOPQRSTUVWXYZabcdefghijklmnopqrstuvwxyz0123456789+/".

(** Six bits, most significant first, as a number below 64. *)
Definition six (b5 b4 b3 b2 b1 b0 : bool) : ascii :=
  Ascii b0 b1 b2 b3 b4 b5 false false.

Definition b64_char (v : ascii) : ascii :=
  default "="%char (String.get (N.to_nat (N_of_ascii v)) alphabet).



(** The four characters of three bytes. *)
Definition encode3 (a b c : ascii) : ascii * ascii * ascii * ascii :=
  let '(Ascii a0 a1 a2 a3 a4 a5 a6 a7) := a in
  let '(Ascii b0 b1 b2 b3 b4 b5 b6 b7) := b in
  let '(Ascii c0 c1 c2 c3 c4 c5 c6 c7) := c in
  (b64_char (six a7 a6 a5 a4 a3 a2), b64_char (six a1 a0 b7 b6 b5 b4),
   b64_char (six b3 b2 b1 b0 c7 c6), b64_char (six c5 c4 c3 c2 c1 c0)).

(** [buf.toString('base64')]. *)
Fixpoint base64 (bytes : string) : string :=
  match bytes with
  | EmptyString => EmptyString
  | String a EmptyString =>
      let '(c1, c2, _, _) := encode3 a Ascii.zero Ascii.zero in
      String c1 (String c2 "==")
  | String a (String b EmptyString) =>
      let '(c1, c2, c3, _) := encode3 a b Ascii.zero in
      String c1 (String c2 (String c3 "="))
  | String a (String b (String c rest)) =>
      let '(c1, c2, c3, c4) := encode3 a b c in
      String c1 (String c2 (String c3 (String c4 (base64 rest))))
  end.





(** [.replace(/\+/g, '-').replace(/\//g, '_')] and its inverse. *)
Definition url_safe (s : string) : string :=
  replace_all "/" "_" (replace_all "+" "-" s).


(** [.replace(/=+$/, '')]. *)
Definition strip_padding (s : string) : string :=
  dropEnd (Ascii.eqb "=") s.

(** [s.includes(c)] for a single character. *)
Fixpoint occurs (c : ascii) (s : string) : bool :=
  match s with
  | String c' r => Ascii.eqb c c' || occurs c r
  | EmptyString => false
  end.

(* ================================================================== *)
(** ** The credential records *)

(** The token object handed out by the OAuth exchange and kept by the
    store.  Every member is optional, as in the provider's [Credentials];
    [email] is read by the token-loading middleware and [createdAt] is
    added by [saveTokens]. *)
Record Tokens := mkTokens {
  access_token : option string;
  refresh_token : option string;
  scope : option string;
  token_type : option string;
  id_token : option string;
  expiry_date : option Z;
  email : option string;
  createdAt : option string
}.

(** [{...tokens, createdAt: stamp}]. *)
Definition with_createdAt (tokens : Tokens) (stamp : string) : Tokens :=
  {| access_token := access_token tokens;
     refresh_token := refresh_token tokens;
     scope := scope tokens;
     token_type := token_type tokens;
     id_token := id_token tokens;
     expiry_date := expiry_date tokens;
     email := email tokens;
     createdAt := Some stamp |}.

(** [JSON.parse] and [JSON.stringify(v, null, 2)].  [None] is a thrown
    [SyntaxError]. *)
Class Json := {
  JSON_parse : string -> option json;
  JSON_stringify : json -> string
}.

(* ================================================================== *)
(** ** The remote Gmail API *)

Record MessageRef := mkMessageRef { ref_id : string; ref_threadId : option string }.

Record Header := mkHeader { name : string; value : string }.

(** [email.data] of [users.messages.get] with [format: 'metadata']. *)
Record EmailData := mkEmailData {
  payload_headers : list Header;
  data_snippet : option string;
  data_internalDate : option string;
  data_labelIds : option (list string)
}.

(** A number as [parseInt] gives it: an integer that a double holds, or
    [NaN] ([None]).  The infinities, which [parseInt] gives for a numeral
    beyond the range of a double (of more than 308 digits), are not
    represented. *)
Definition number := option Z.

Inductive request : Type :=
| MessagesList (userId : string) (maxResults : number)
    (labels : option (list string)) (pageToken : option string)
| MessagesGet (userId id format : string) (metadataHeaders : list string)
| ThreadsList (userId : string) (maxResults : number)
| MessagesSend (userId raw : string).

(** A call as the remote side sees it: the access token of the client that
    issued it, when it has one, and the request. *)
Record call := mkCall { bearer : option string; sent : request }.

(** The answers of the remote API, given the calls issued before. *)
Class Provider := {
  messages_list : list call -> call -> Error + option (list MessageRef);
  messages_get : list call -> call -> Error + EmailData;
  opaque_data : list call -> call -> Error + json;
  messages_send : list call -> call -> Error + option string
}.

(* ================================================================== *)
(** ** The process state *)

(** [tokens.json] as [fs.readFile] finds it. *)
Inductive file : Type :=
| Missing                       (* ENOENT *)
| Unreadable (why : string)     (* any other rejection of the read *)
| Content (data : string).

Record World := mkWorld {
  tokensFile : file;
  writeFault : option string;   (* [Some m]: [fs.writeFile] rejects with [m] *)
  clock : Z;                    (* milliseconds since the epoch *)
  env : gmap string string;     (* [process.env] *)
  calls : list call;            (* remote calls issued so far *)
  isInitialized : bool;         (* [gmailConfig.isInitialized] *)
  credentials : option Tokens;  (* credentials of [gmailConfig.oAuth2Client] *)
  gmail : bool                  (* [emailService.gmail] is not [null] *)
}.

Definition set_tokensFile (f : file) (w : World) : World :=
  {| tokensFile := f; writeFault := writeFault w; clock := clock w; env := env w;
     calls := calls w; isInitialized := isInitialized w;
     credentials := credentials w; gmail := gmail w |}.

Definition add_call (c : call) (w : World) : World :=
  {| tokensFile := tokensFile w; writeFault := writeFault w; clock := clock w;
     env := env w; calls := calls w ++ [c]; isInitialized := isInitialized w;
     credentials := credentials w; gmail := gmail w |}.

Definition set_credentials (t : Tokens) (w : World) : World :=
  {| tokensFile := tokensFile w; writeFault := writeFault w; clock := clock w;
     env := env w; calls := calls w; isInitialized := isInitialized w;
     credentials := Some t; gmail := gmail w |}.

Definition with_credentials (c : option Tokens) (w : World) : World :=
  {| tokensFile := tokensFile w; writeFault := writeFault w; clock := clock w;
     env := env w; calls := calls w; isInitialized := isInitialized w;
     credentials := c; gmail := gmail w |}.

Definition set_gmail (b : bool) (w : World) : World :=
  {| tokensFile := tokensFile w; writeFault := writeFault w; clock := clock w;
     env := env w; calls := calls w; isInitialized := isInitialized w;
     credentials := credentials w; gmail := b |}.

(** An [async] computation. *)
Definition Js (A : Type) : Type := World -> outcome A * World.

Definition ret {A} (a : A) : Js A := fun w => (Return a, w).

Definition throw {A} (e : Error) : Js A := fun w => (Throw e, w).

Definition bind {A B} (m : Js A) (k : A -> Js B) : Js B :=
  fun w =>
    match m w with
    | (Return a, w') => k a w'
    | (Throw e, w') => (Throw e, w')
    end.

(** [try { m } catch (error) { handler(error) }]. *)
Definition try_catch {A} (m : Js A) (handler : Error -> Js A) : Js A :=
  fun w =>
    match m w with
    | (Return a, w') => (Return a, w')
    | (Throw e, w') => handler e w'
    end.

Notation "'let*' x ':=' m 'in' k" := (bind m (fun x => k))
  (at level 10, x name, m at level 100, k at level 200).
Notation "m ';;' k" := (bind m (fun _ => k))
  (at level 100, k at level 200, right associativity).

(** [await fs.readFile(this.tokensFile, 'utf8')]. *)
Definition readFile : Js string :=
  fun w =>
    match tokensFile w with
    | Missing => (Throw (mkError "ENOENT: no such file or directory"), w)
    | Unreadable why => (Throw (mkError why), w)
    | Content data => (Return data, w)
    end.

(** [await fs.writeFile(this.tokensFile, data)]. *)
Definition writeFile (data : string) : Js unit :=
  fun w =>
    match writeFault w with
    | Some why => (Throw (mkError why), w)
    | None =>
        match tokensFile w with
        | Unreadable _ => (Return tt, w)    (* written, still not readable *)
        | _ => (Return tt, set_tokensFile (Content data) w)
        end
    end.

(** [Date.now()]. *)
Definition Date_now : Js Z := fun w => (Return (clock w), w).

(** A request to the remote API with one of the [Provider]'s answers. *)
Definition remote {A} (answer : list call -> call -> Error + A) (c : call) : Js A :=
  fun w =>
    match answer (calls w) c with
    | inl e => (Throw e, add_call c w)
    | inr a => (Return a, add_call c w)
    end.

(* ================================================================== *)
(** ** [Date.prototype.toISOString] *)

Definition digit (n : Z) : ascii := ascii_of_N (48 + Z.to_N (n mod 10)).

(** The last [width] decimal digits of [n]. *)
Fixpoint pad (width : nat) (n : Z) : string :=
  match width with
  | O => ""
  | S w => pad w (n / 10) +:+ String (digit n) ""
  end.

(** Years 0 to 9999 take four digits, the others a sign and six. *)
Definition year_string (y : Z) : string :=
  if (0 <=? y) && (y <=? 9999) then pad 4 y
  else (if y <? 0 then "-" else "+") +:+ pad 6 (Z.abs y).

(** The UTC calendar date of a time value, by the proleptic Gregorian
    calendar in 400-year eras counted from 1 March. *)
Definition toISOString (t : Z) : string :=
  let ms := t mod 86400000 in
  let z := t / 86400000 + 719468 in
  let era := z / 146097 in
  let doe := z mod 146097 in
  let yoe := (doe - doe / 1460 + doe / 36524 - doe / 146096) / 365 in
  let doy := doe - (365 * yoe + yoe / 4 - yoe / 100) in
  let mp := (5 * doy + 2) / 153 in
  let d := doy - (153 * mp + 2) / 5 + 1 in
  let m := if mp <? 10 then mp + 3 else mp - 9 in
  let y := yoe + era * 400 + (if m <=? 2 then 1 else 0) in
  year_string y +:+ "-" +:+ pad 2 m +:+ "-" +:+ pad 2 d +:+ "T" +:+
  pad 2 (ms / 3600000) +:+ ":" +:+ pad 2 (ms / 60000 mod 60) +:+ ":" +:+
  pad 2 (ms / 1000 mod 60) +:+ "." +:+ pad 3 (ms mod 1000) +:+ "Z".

Definition is_digit (c : ascii) : bool :=
  let n := N_of_ascii c in ((48 <=? n) && (n <=? 57))%N.

(** [digits n s]: [s] without its first [n] characters, which are digits. *)
Fixpoint digits (n : nat) (s : string) : option string :=
  match n, s with
  | O, _ => Some s
  | S n', String c r => if is_digit c then digits n' r else None
  | S _, EmptyString => None
  end.

Definition sep (c : ascii) (s : option string) : option string :=
  match s with
  | Some (String c' r) => if Ascii.eqb c c' then Some r else None
  | _ => None
  end.

(** The shape [YYYY-MM-DDTHH:mm:ss.sssZ], or the same with a signed
    six-digit year. *)
Definition iso8601 (s : string) : bool :=
  let year :=
    match s with
    | String c r =>
        if Ascii.eqb c "+" || Ascii.eqb c "-" then digits 6 r else digits 4 s
    | EmptyString => None
    end in
  let date := mbind (digits 2) (sep "-" (mbind (digits 2) (sep "-" year))) in
  let time :=
    mbind (digits 2) (sep ":" (mbind (digits 2) (sep ":" (mbind (digits 2) (sep "T" date))))) in
  match sep "Z" (mbind (digits 3) (sep "." time)) with
  | Some EmptyString => true
  | _ => false
  end.

(* ================================================================== *)
(** ** A JSON text codec

    One implementation of [Json], used where a theorem is evaluated on a
    concrete file: integers for numbers, the escapes of [JSON.stringify],
    two-space indentation as in [JSON.stringify(tokenData, null, 2)]. *)

Definition dquote : ascii := ascii_of_N 34.
Definition backslash : ascii := ascii_of_N 92.

Definition hex_digit (n : N) : ascii :=
  if (n <? 10)%N then ascii_of_N (48 + n) else ascii_of_N (87 + n).

Definition escape_char (c : ascii) : string :=
  let n := N_of_ascii c in
  if (n =? 34)%N then String backslash (String dquote "")
  else if (n =? 92)%N then String backslash (String backslash "")
  else if (n =? 8)%N then String backslash "b"
  else if (n =? 12)%N then String backslash "f"
  else if (n =? 10)%N then String backslash "n"
  else if (n =? 13)%N then String backslash "r"
  else if (n =? 9)%N then String backslash "t"
  else if (n <? 32)%N then
    String backslash ("u00" +:+ String (hex_digit (n / 16)) (String (hex_digit (n mod 16)) ""))
  else String c "".

Fixpoint escape (s : string) : string :=
  match s with
  | EmptyString => EmptyString
  | String c r => escape_char c +:+ escape r
  end.

Definition quote (s : string) : string :=
  String dquote (escape s +:+ String dquote "").

Fixpoint spaces (n : nat) : string :=
  match n with
  | O => ""
  | S n' => String " " (spaces n')
  end.

Fixpoint print (indent : nat) (v : json) : string :=
  match v with
  | JNull => "null"
  | JBool true => "true"
  | JBool false => "false"
  | JNum n => NilZero.string_of_int (Z.to_int n)
  | JStr s => quote s
  | JArr [] => "[]"
  | JArr items =>
      "[" +:+ LF +:+
      join ("," +:+ LF)
        (map (fun x => spaces (indent + 2) +:+ print (indent + 2) x) items) +:+
      LF +:+ spaces indent +:+ "]"
  | JObj [] => "{}"
  | JObj fields =>
      "{" +:+ LF +:+
      join ("," +:+ LF)
        (map (fun kv => spaces (indent + 2) +:+ quote (fst kv) +:+ ": " +:+
                        print (indent + 2) (snd kv)) fields) +:+
      LF +:+ spaces indent +:+ "}"
  end.

Definition is_json_space (c : ascii) : bool :=
  match N_of_ascii c with
  | 9%N | 10%N | 13%N | 32%N => true
  | _ => false
  end.

Fixpoint skip_ws (s : string) : string :=
  match s with
  | String c r => if is_json_space c then skip_ws r else s
  | EmptyString => EmptyString
  end.

Definition hex_value (c : ascii) : option N :=
  let n := N_of_ascii c in
  if ((48 <=? n) && (n <=? 57))%N then Some (n - 48)%N
  else if ((97 <=? n) && (n <=? 102))%N then Some (n - 87)%N
  else if ((65 <=? n) && (n <=? 70))%N then Some (n - 55)%N
  else None.

(** The characters of a string literal after its opening quote. *)
Fixpoint parse_string (s acc : string) : option (string * string) :=
  match s with
  | EmptyString => None
  | String c r =>
      if Ascii.eqb c dquote then Some (acc, r)
      else if Ascii.eqb c backslash then
        match r with
        | String "b" r' => parse_string r' (acc +:+ String (ascii_of_N 8) "")
        | String "f" r' => parse_string r' (acc +:+ String (ascii_of_N 12) "")
        | String "n" r' => parse_string r' (acc +:+ String (ascii_of_N 10) "")
        | String "r" r' => parse_string r' (acc +:+ String (ascii_of_N 13) "")
        | String "t" r' => parse_string r' (acc +:+ String (ascii_of_N 9) "")
        | String "/" r' => parse_string r' (acc +:+ "/")
        | String "u" (String "0" (String "0" (String h (String l r')))) =>
            match hex_value h, hex_value l with
            | Some hi, Some lo =>
                parse_string r' (acc +:+ String (ascii_of_N (16 * hi + lo)) "")
            | _, _ => None
            end
        | String e r' =>
            if Ascii.eqb e dquote || Ascii.eqb e backslash
            then parse_string r' (acc +:+ String e "")
            else None
        | EmptyString => None
        end
      else if (N_of_ascii c <? 32)%N then None
      else parse_string r (acc +:+ String c "")
  end.

Fixpoint span_digits (s : string) : string * string :=
  match s with
  | String c r =>
      if is_digit c then let '(d, r') := span_digits r in (String c d, r')
      else (EmptyString, s)
  | EmptyString => (EmptyString, EmptyString)
  end.

(** What may not follow the digits of an integer. *)
Definition fraction_follows (s : string) : bool :=
  match s with
  | String c _ => Ascii.eqb c "." || Ascii.eqb c "e" || Ascii.eqb c "E"
  | EmptyString => false
  end.

Definition parse_number (s : string) : option (json * string) :=
  let '(sign, body) :=
    match s with
    | String c r => if Ascii.eqb c "-" then ("-"%string, r) else (""%string, s)
    | EmptyString => (""%string, s)
    end in
  let '(d, r) := span_digits body in
  if String.eqb d "" || fraction_follows r then None
  else
    match NilZero.int_of_string (sign +:+ d) with
    | Some i => Some (JNum (Z.of_int i), r)
    | None => None
    end.

Fixpoint after_prefix (p s : string) : option string :=
  match p, s with
  | EmptyString, _ => Some s
  | String a p', String b s' => if Ascii.eqb a b then after_prefix p' s' else None
  | String _ _, EmptyString => None
  end.

(** [s] starts with [c]. *)
Definition begins (c : ascii) (s : string) : bool :=
  match s with
  | String c' _ => Ascii.eqb c' c
  | EmptyString => false
  end.

Definition behead (s : string) : string :=
  match s with
  | String _ r => r
  | EmptyString => EmptyString
  end.

Fixpoint parse_value (fuel : nat) (s : string) : option (json * string) :=
  match fuel with
  | O => None
  | S fuel =>
      let s' := skip_ws s in
      if begins "{" s' then
        if begins "}" (skip_ws (behead s')) then Some (JObj [], behead (skip_ws (behead s')))
        else parse_members fuel (behead s') []
      else if begins "[" s' then
        if begins "]" (skip_ws (behead s')) then Some (JArr [], behead (skip_ws (behead s')))
        else parse_elements fuel (behead s') []
      else if begins dquote s' then
        match parse_string (behead s') "" with
        | Some (str, r') => Some (JStr str, r')
        | None => None
        end
      else
        match after_prefix "null" s', after_prefix "true" s', after_prefix "false" s' with
        | Some r', _, _ => Some (JNull, r')
        | _, Some r', _ => Some (JBool true, r')
        | _, _, Some r' => Some (JBool false, r')
        | _, _, _ => parse_number s'
        end
  end
with parse_elements (fuel : nat) (s : string) (acc : list json) : option (json * string) :=
  match fuel with
  | O => None
  | S fuel =>
      match parse_value fuel s with
      | Some (v, r) =>
          let r' := skip_ws r in
          if begins "," r' then parse_elements fuel (behead r') (acc ++ [v])
          else if begins "]" r' then Some (JArr (acc ++ [v]), behead r')
          else None
      | None => None
      end
  end
with parse_members (fuel : nat) (s : string) (acc : list (string * json)) : option (json * string) :=
  match fuel with
  | O => None
  | S fuel =>
      let s' := skip_ws s in
      if begins dquote s' then
        match parse_string (behead s') "" with
        | Some (k, r1) =>
            let r1' := skip_ws r1 in
            if begins ":" r1' then
              match parse_value fuel (behead r1') with
              | Some (v, r3) =>
                  let r3' := skip_ws r3 in
                  if begins "," r3' then parse_members fuel (behead r3') (acc ++ [(k, v)])
                  else if begins "}" r3' then Some (JObj (acc ++ [(k, v)]), behead r3')
                  else None
              | None => None
              end
            else None
        | None => None
        end
      else None
  end.

(** A whole text: one value and nothing but white space after it. *)
Definition parse_text (s : string) : option json :=
  match parse_value (2 * String.length s + 2) s with
  | Some (v, r) =>
      match skip_ws r with
      | EmptyString => Some v
      | _ => None
      end
  | None => None
  end.

(** The members of a record, as [JSON.stringify] writes them: the ones
    that are not [undefined]. *)
Definition token_fields (t : Tokens) : list (string * json) :=
  let str (k : string) (v : option string) : list (string * json) :=
    match v with
    | Some s => [(k, JStr s)]
    | None => []
    end in
  str "access_token"%string (access_token t) ++
  str "refresh_token"%string (refresh_token t) ++
  str "scope"%string (scope t) ++
  str "token_type"%string (token_type t) ++
  str "id_token"%string (id_token t) ++
  match expiry_date t with
  | Some n => [("expiry_date"%string, JNum n)]
  | None => []
  end ++
  str "email"%string (email t) ++
  str "createdAt"%string (createdAt t).

(** The object [{...tokens}] as a JSON value. *)
Definition object_of (t : Tokens) : json := JObj (token_fields t).

#[export] Instance json_text : Json := {|
  JSON_parse := parse_text;
  JSON_stringify := print 0
|}.

(* ================================================================== *)
(** ** Property access on the values of a document *)

(** What a property read gives: [undefined], a value of the document, or
    a member that the value inherits from its prototype under the name
    given: a function, or the prototype itself for [__proto__].  Such a
    member is truthy and holds no data of the document. *)
Inductive jsval : Type :=
| Undefined
| Data (v : json)
| Native (name : string).

Definition null : jsval := Data JNull.

(** The object of a token record as a value; a [Tokens] is read as that
    value wherever a value is expected. *)
Definition stored (t : Tokens) : jsval := Data (object_of t).

Coercion stored : Tokens >-> jsval.

(** [!!v]. *)
Definition truthy (v : jsval) : bool :=
  match v with
  | Undefined => false
  | Data JNull => false
  | Data (JBool b) => b
  | Data (JNum n) => negb (n =? 0)
  | Data (JStr s) => negb (String.eqb s "")
  | Data (JArr _) => true
  | Data (JObj _) => true
  | Native _ => true
  end.

(** A member that may be [undefined], as a value. *)
Definition member_value (x : option json) : jsval :=
  match x with
  | Some v => Data v
  | None => Undefined
  end.

(** The members of [Object.prototype], which every object inherits. *)
Definition object_prototype : list string :=
  ["constructor"; "__defineGetter__"; "__defineSetter__"; "hasOwnProperty";
   "__lookupGetter__"; "__lookupSetter__"; "isPrototypeOf"; "propertyIsEnumerable";
   "toString"; "valueOf"; "__proto__"; "toLocaleString"]%string.

Definition inherited (k : string) : bool := bool_decide (k ∈ object_prototype).

(** The own member [k] of an object: [JSON.parse] keeps the last member
    of a name. *)
Fixpoint own (k : string) (fields : list (string * json)) : option json :=
  match fields with
  | [] => None
  | (k', v) :: rest =>
      match own k rest with
      | Some v' => Some v'
      | None => if String.eqb k' k then Some v else None
      end
  end.

(** The members of an object that has its own [k], after [obj[k] = x]. *)
Definition replace_member (k : string) (x : json) (fields : list (string * json))
  : list (string * json) :=
  map (fun kv => if String.eqb (fst kv) k then (fst kv, x) else kv) fields.

(** What is left to the engine: property access on a value that is
    neither [null] nor an object, the wording of its [TypeError], and the
    conversion of a value that is not a number to a number or to a date.

    - [read_other v k] is [v[k]] for a boolean, a number, a string or an
      array [v];
    - [assign_other v k x] is what [v[k] = x] makes of such a [v] in strict
      mode: the error thrown, or the value as [JSON.stringify] then sees
      it;
    - [cannot_set k] is the message of the [TypeError] of [null[k] = x];
    - [later_than now x] is [now > x], and [date_of x] is [new Date(x)] as
      [res.json] writes it, for a truthy [x] that is not a number. *)
Class Engine := {
  read_other : json -> string -> jsval;
  assign_other : json -> string -> json -> Error + json;
  cannot_set : string -> string;
  later_than : Z -> json -> Error + bool;
  date_of : json -> Error + json
}.

(** A step that returns or throws without looking at the state. *)
Definition lift {A} (r : Error + A) : Js A :=
  match r with
  | inl e => throw e
  | inr a => ret a
  end.

(** The [TypeError] of a property read on [null] or [undefined]. *)
Definition no_properties (what k : string) : Error :=
  mkError ("Cannot read properties of " +:+ what +:+ " (reading '" +:+ k +:+ "')").

(** [v[k]]: an own member, else a member of [Object.prototype]. *)
Definition read `{Engine} (v : json) (k : string) : Error + jsval :=
  match v with
  | JNull => inl (no_properties "null" k)
  | JObj fields =>
      inr (match own k fields with
           | Some x => Data x
           | None => if inherited k then Native k else Undefined
           end)
  | _ => inr (read_other v k)
  end.

(** [v[k] = x] in strict mode, for an object [x]: the value as
    [JSON.stringify] then sees it.  On an object without an own
    [__proto__], the key [__proto__] reaches the setter of
    [Object.prototype], which changes the prototype and no member. *)
Definition assign `{Engine} (v : json) (k : string) (x : json) : Error + json :=
  match v with
  | JNull => inl (mkError (cannot_set k))
  | JObj fields =>
      inr (JObj match own k fields with
                | Some _ => replace_member k x fields
                | None => if String.eqb k "__proto__" then fields else fields ++ [(k, x)]
                end)
  | _ => assign_other v k x
  end.

(** [tokens.email], [tokens.expiry_date], for [tokens] that is neither
    [undefined] nor [null]: a member of a name that no prototype has, so
    that only an object that has it as its own gives something. *)
Definition field (tokens : jsval) (k : string) : option json :=
  match tokens with
  | Data (JObj fields) => own k fields
  | _ => None
  end.

(* ================================================================== *)
(** ** [utils/tokenManager.js] *)

(** [JSON.parse(data)] as a step that may throw. *)
Definition parse `{Json} (data : string) : Js json :=
  match JSON_parse data with
  | Some tokenData => ret tokenData
  | None => throw (mkError "Unexpected token in JSON")
  end.

(** [!n] for a value that is a number or [undefined]. *)
Definition falsy_number (v : option Z) : bool :=
  match v with
  | None => true
  | Some n => n =? 0
  end.

(** [saveTokens(userId, tokens)]: the inner [try] reads the existing
    document and falls back to [{}] on any error; the outer one rewraps
    what is still thrown, by the assignment or by the write. *)
Definition saveTokens `{Json} `{Engine} (userId : string) (tokens : Tokens) : Js bool :=
  try_catch
    (let* tokenData :=
       try_catch
         (let* data := readFile in
          parse data)
         (fun error => ret (JObj [])) in
     let* now := Date_now in
     let* tokenData :=
       lift (assign tokenData userId (object_of (with_createdAt tokens (toISOString now)))) in
     writeFile (JSON_stringify tokenData);;
     ret true)
    (fun error => throw (mkError ("Failed to save tokens: " +:+ message error))).

(** [loadTokens(userId)]: [tokenData[userId] || null]. *)
Definition loadTokens `{Json} `{Engine} (userId : string) : Js jsval :=
  try_catch
    (let* data := readFile in
     let* tokenData := parse data in
     let* found := lift (read tokenData userId) in
     ret (if truthy found then found else null))
    (fun error => ret null).

(** [now > x] for a member [x]. *)
Definition greater `{Engine} (now : Z) (x : option json) : Js bool :=
  match x with
  | Some (JNum e) => ret (now >? e)
  | Some x => lift (later_than now x)
  | None => ret false
  end.

(** [isTokenExpired(tokens)]; the read of [tokens.expiry_date] throws
    when [tokens] is [undefined] or [null]. *)
Definition isTokenExpired `{Engine} (tokens : jsval) : Js bool :=
  match tokens with
  | Undefined => throw (no_properties "undefined" "expiry_date")
  | Data JNull => throw (no_properties "null" "expiry_date")
  | _ =>
      let expiry_date := field tokens "expiry_date" in
      if negb (truthy (member_value expiry_date)) then ret true
      else
        let* now := Date_now in
        greater now expiry_date
  end.

(** The document a read of the store ends with: the parsed content, or
    the empty object when the file is missing, unreadable or rejected by
    [JSON.parse]. *)
Definition existing `{Json} (w : World) : json :=
  match tokensFile w with
  | Content data => default (JObj []) (JSON_parse data)
  | _ => JObj []
  end.

(** The document [saveTokens userId tokens] hands to [fs.writeFile], or
    the error of the assignment. *)
Definition merged `{Json} `{Engine} (userId : string) (tokens : Tokens) (w : World)
  : Error + json :=
  assign (existing w) userId (object_of (with_createdAt tokens (toISOString (clock w)))).

(** What [loadTokens userId] finds. *)
Definition found `{Json} `{Engine} (userId : string) (w : World) : jsval :=
  match tokensFile w with
  | Content data =>
      match JSON_parse data with
      | Some tokenData =>
          match read tokenData userId with
          | inr v => if truthy v then v else null
          | inl _ => null
          end
      | None => null
      end
  | _ => null
  end.


(** Reading the file does not fail for a reason other than its absence. *)
Definition readable (w : World) : Prop :=
  ∀ why, tokensFile w ≠ Unreadable why.

(** The document that [saveTokens] starts from is an object: the file
    holds the text of one, or it is missing, unreadable or rejected by
    [JSON.parse]. *)
Definition object_store `{Json} (w : World) : Prop :=
  ∃ fields, existing w = JObj fields.

(* ================================================================== *)
(** ** Express requests and responses *)

(** [req.user] as the passport strategy builds it. *)
Record User := mkUser {
  user_id : string;
  user_email : string;
  user_name : string;
  accessToken : string;
  refreshToken : option string
}.

(** What the handlers read from, and the middleware write to, a request.
    Query, body and route parameters are string-valued. *)
Record Req := mkReq {
  query : gmap string string;
  body : gmap string string;
  params : gmap string string;
  user : option User;
  userTokens : option jsval;
  userEmail : option json;
  targetEmail : option string
}.

Inductive Res : Type :=
| Reply (status : Z) (payload : json)     (* [res.status(n).json(payload)] *)
| Redirect (location : string).           (* [res.redirect(location)] *)

(** A member whose value may be [undefined], which [res.json] leaves out. *)
Definition member (k : string) (v : option json) : list (string * json) :=
  match v with
  | Some x => [(k, x)]
  | None => []
  end.

(** A middleware either answers or calls [next()] with the request. *)
Definition next_with (m : Js (Res + Req)) (handler : Req -> Js Res) : Js Res :=
  let* r := m in
  match r with
  | inl res => ret res
  | inr req => handler req
  end.

Fixpoint read_digits (base : Z) (s : string) (acc : option Z) : option Z :=
  match s with
  | String c r =>
      match hex_value c with
      | Some d =>
          if Z.of_N d <? base
          then read_digits base r (Some (default 0 acc * base + Z.of_N d))
          else acc
      | None => acc
      end
  | EmptyString => acc
  end.

(** The integer that the numeral at the start of [s] writes: leading
    white space, a sign, [0x] for hexadecimal, then the longest run of
    digits; nothing when there is none. *)
Definition numeral (s : string) : option Z :=
  let s := trimStart s in
  let '(sign, s) :=
    match s with
    | String "-" r => (-1, r)
    | String "+" r => (1, r)
    | _ => (1, s)
    end in
  match s with
  | String "0" (String "x" r) | String "0" (String "X" r) =>
      Z.mul sign <$> read_digits 16 r None
  | _ => Z.mul sign <$> read_digits 10 s None
  end.

(** The double nearest to an integer: the 53 leading bits are kept, the
    rest is rounded to the nearest, a tie to the even one.  The integers
    up to [2^53] in absolute value are their own doubles. *)
Definition to_double (n : Z) : Z :=
  let a := Z.abs n in
  let dropped := Z.log2 a - 52 in
  if dropped <=? 0 then n
  else
    let q := a / 2 ^ dropped in
    let r := a mod 2 ^ dropped in
    let half := 2 ^ (dropped - 1) in
    Z.sgn n * ((if (half <? r) || ((r =? half) && Z.odd q) then q + 1 else q) * 2 ^ dropped).

(** [parseInt(s)]: the double of the numeral at the start of [s]; [NaN]
    when there is none. *)
Definition parseInt (s : string) : number := to_double <$> numeral s.

(** [headers.find(h => h.name === n)?.value]. *)
Definition header (hs : list Header) (n : string) : option string :=
  value <$> List.find (fun h => String.eqb (name h) n) hs.

(** [s.replace(/<[^>]*>/g, '')]: [pending] holds the text read since a
    [<] that no [>] has closed yet. *)
Fixpoint strip_tags_from (pending : option string) (s : string) : string :=
  match s with
  | EmptyString => default "" pending
  | String c r =>
      match pending with
      | None =>
          if Ascii.eqb c "<" then strip_tags_from (Some "<"%string) r
          else String c (strip_tags_from None r)
      | Some p =>
          if Ascii.eqb c ">" then strip_tags_from None r
          else strip_tags_from (Some (p +:+ String c "")) r
      end
  end.

Definition strip_tags (s : string) : string := strip_tags_from None s.

(** Regular expressions over code units, matched against a whole string
    ([^...$]) by derivatives. *)
Inductive regex : Type :=
| Never
| Epsilon
| Class (p : ascii -> bool)
| Cat (r1 r2 : regex)
| Alt (r1 r2 : regex)
| Star (r : regex).

Fixpoint nullable (r : regex) : bool :=
  match r with
  | Never => false
  | Epsilon => true
  | Class _ => false
  | Cat r1 r2 => nullable r1 && nullable r2
  | Alt r1 r2 => nullable r1 || nullable r2
  | Star _ => true
  end.

Fixpoint derive (c : ascii) (r : regex) : regex :=
  match r with
  | Never => Never
  | Epsilon => Never
  | Class p => if p c then Epsilon else Never
  | Cat r1 r2 =>
      if nullable r1 then Alt (Cat (derive c r1) r2) (derive c r2)
      else Cat (derive c r1) r2
  | Alt r1 r2 => Alt (derive c r1) (derive c r2)
  | Star r' => Cat (derive c r') (Star r')
  end.

Fixpoint test (r : regex) (s : string) : bool :=
  match s with
  | EmptyString => nullable r
  | String c s' => test (derive c r) s'
  end.

Definition Plus (r : regex) : regex := Cat r (Star r).

(** The first [(.+)] of [/<(.+)>/]: [upto_last_gt s] is the text before the
    last [>] of the first line of [s]. *)
Fixpoint upto_last_gt (s : string) : option string :=
  match s with
  | EmptyString => None
  | String c r =>
      if Ascii.eqb c (ascii_of_N 10) || Ascii.eqb c (ascii_of_N 13) then None
      else
        match upto_last_gt r with
        | Some p => Some (String c p)
        | None => if Ascii.eqb c ">" then Some EmptyString else None
        end
  end.

(** [s.match(/<(.+)>/)?.[1]]. *)
Fixpoint angle_address (s : string) : option string :=
  match s with
  | EmptyString => None
  | String c r =>
      if Ascii.eqb c "<" then
        match upto_last_gt r with
        | Some (String a p) => Some (String a p)
        | _ => angle_address r
        end
      else angle_address r
  end.

(** [new Date(s).toLocaleString()] depends on the host's locale and zone. *)
Class Locale := { toLocaleString : string -> string }.

(** [`${n}`] for an integer [n]. *)
Definition decimal (n : Z) : string := NilZero.string_of_int (Z.to_int n).

(** [JSON.stringify] of [new Date(n)]: the ISO string of a time value
    within 100 000 000 days of the epoch, [null] for an invalid date. *)
Definition date_json (n : Z) : json :=
  if Z.abs n <=? 8640000000000000 then JStr (toISOString n) else JNull.

(** The OAuth2 client of the provider's library: the consent URL it
    builds, and the answer of the token endpoint to an authorization code
    in the state of the moment. *)
Class OAuth2 := {
  consent_url : string;
  getToken : World -> string -> Error + Tokens
}.

(** The same client when a request to the remote API goes through it.
    With the credentials and at the time of the moment it refuses the
    request, which then never leaves, or it sends the request with an
    access token; it may ask the token endpoint for new tokens on the way
    and it may rewrite its credentials.  [authorize w r] is that decision
    for the request [r] in the state [w], together with the credentials
    that the client holds when the call is over. *)
Class Client := {
  authorize : World -> request -> (Error + option string) * option Tokens
}.

(* ================================================================== *)
(** ** The dashboard server: [GmailService], send and health endpoints *)

Module Dashboard.

(** An element of [emailDetails]. *)
Inductive EmailEntry : Type :=
| Summary (id : string) (threadId : option string)
    (subject from to date snippet : string)
    (internalDate : option string) (labelIds : list string)
| Failed (id : string) (error : string).

Definition metadataHeaders : list string :=
  ["From"; "To"; "Subject"; "Date"; "Message-ID"]%string.

(** The entry pushed for a message whose details arrived. *)
Definition summary `{Locale} (m : MessageRef) (email : EmailData) : EmailEntry :=
  let headers := payload_headers email in
  let from := or_default (header headers "From") "Unknown Sender" in
  let to := or_default (header headers "To") "" in
  let subject := or_default (header headers "Subject") "No Subject" in
  let date := or_default (header headers "Date") "" in
  let fromClean := trim (strip_tags from) in
  Summary (ref_id m) (ref_threadId m) subject fromClean to (toLocaleString date)
    (or_default (data_snippet email) "No preview available")
    (data_internalDate email) (default [] (data_labelIds email)).

(** The body of [for (const message of messages)], one [try] per message. *)
Fixpoint each_message `{Provider} `{Locale} (accessToken : string)
    (messages : list MessageRef) (emailDetails : list EmailEntry)
  : Js (list EmailEntry) :=
  match messages with
  | [] => ret emailDetails
  | m :: rest =>
      let* emailDetails :=
        try_catch
          (let* email :=
             remote messages_get
               (mkCall (Some accessToken)
                  (MessagesGet "me" (ref_id m) "metadata" metadataHeaders)) in
           ret (emailDetails ++ [summary m email]))
          (fun emailError => ret (emailDetails ++ [Failed (ref_id m) (message emailError)])) in
      each_message accessToken rest emailDetails
  end.

(** [listEmails(maxResults = 20, labelIds = ['INBOX'])]. *)
Definition listEmails `{Provider} `{Locale} (accessToken : string)
    (maxResults : number) (labelIds : list string) : Js (list EmailEntry) :=
  try_catch
    (let* response :=
       remote messages_list
         (mkCall (Some accessToken)
            (MessagesList "me" maxResults (Some labelIds) None)) in
     let messages := default [] response in
     each_message accessToken messages [])
    (fun error => throw (mkError ("Failed to list emails: " +:+ message error))).

(** [emailLines.join('\r\n').trim()]; [text] is the source's [message]. *)
Definition email_text (to subject text : string) : string :=
  trim (join CRLF
          ["To: " +:+ to;
           "Content-Type: text/plain; charset=" +:+
             String dquote ("UTF-8" +:+ String dquote "");
           "MIME-Version: 1.0";
           "Subject: " +:+ subject;
           "";
           text]%string).

(** [sendEmail(to, subject, message)]; the result is [response.data.id]. *)
Definition sendEmail `{Provider} (accessToken to subject text : string)
  : Js (option string) :=
  try_catch
    (let email := email_text to subject text in
     let base64EncodedEmail := url_safe (base64 (utf8 email)) in
     remote messages_send
       (mkCall (Some accessToken) (MessagesSend "me" base64EncodedEmail)))
    (fun error => throw (mkError ("Failed to send email: " +:+ message error))).

Definition ensureAuthenticated (req : Req) : Js (Res + Req) :=
  match user req with
  | Some _ => ret (inr req)
  | None => ret (inl (Redirect "/"))
  end.

(** [app.post('/api/send-email', ensureAuthenticated, ...)]. *)
Definition post_send_email `{Provider} (req : Req) : Js Res :=
  next_with (ensureAuthenticated req) (fun req =>
    try_catch
      (let to := body req !! "to"%string in
       let subject := body req !! "subject"%string in
       let text := body req !! "message"%string in
       if falsy to || falsy subject || falsy text then
         ret (Reply 400
                (JObj [("success", JBool false);
                       ("error", JStr "Missing required fields: to, subject, message")]%string))
       else
         match user req with
         | Some u =>
             let* result :=
               sendEmail (accessToken u) (default "" to) (default "" subject)
                 (default "" text) in
             ret (Reply 200
                    (JObj ([("success", JBool true)]%string ++
                           member "messageId" (JStr <$> result) ++
                           [("message", JStr "Email sent successfully")]%string)))
         | None => throw (mkError "Cannot read properties of undefined")
         end)
      (fun error =>
         ret (Reply 500
                (JObj [("success", JBool false); ("error", JStr (message error))]%string)))).

Definition required : list string :=
  ["CLIENT_ID"; "CLIENT_SECRET"; "SESSION_SECRET"]%string.

(** [validateEnvironment]: the variables it reports missing; the process
    exits unless there are none. *)
Definition missing (w : World) : list string :=
  List.filter (fun key => falsy (env w !! key)) required.

(** [app.get('/health', ...)]. *)
Definition health (req : Req) : Js Res :=
  fun w =>
    (Return
       (Reply 200
          (JObj [("status", JStr "OK");
                 ("timestamp", JStr (toISOString (clock w)));
                 ("environment",
                  JObj [("client_id_set", JBool (negb (falsy (env w !! "CLIENT_ID"%string))));
                        ("client_secret_set",
                         JBool (negb (falsy (env w !! "CLIENT_SECRET"%string))));
                        ("session_secret_set",
                         JBool (negb (falsy (env w !! "SESSION_SECRET"%string))))]%string)
                ]%string)),
     w).

(** An element of [emailDetails] as [res.json] writes it: members that
    are [undefined] are left out. *)
Definition entry_json (e : EmailEntry) : json :=
  match e with
  | Summary id threadId subject from to date snippet internalDate labelIds =>
      JObj ([("id"%string, JStr id)] ++ member "threadId" (JStr <$> threadId) ++
            [("subject", JStr subject); ("from", JStr from); ("to", JStr to);
             ("date", JStr date); ("snippet", JStr snippet)]%string ++
            member "internalDate" (JStr <$> internalDate) ++
            [("labelIds"%string, JArr (map JStr labelIds))])
  | Failed id error => JObj [("id", JStr id); ("error", JStr error)]%string
  end.

(** [parseInt(req.query.maxResults) || 20]. *)
Definition maxResults_or_20 (req : Req) : Z :=
  match query req !! "maxResults"%string ≫= parseInt with
  | Some n => if n =? 0 then 20 else n
  | None => 20
  end.

(** [app.get('/api/emails', ensureAuthenticated, ...)]. *)
Definition get_emails `{Provider} `{Locale} (req : Req) : Js Res :=
  next_with (ensureAuthenticated req) (fun req =>
    try_catch
      (let maxResults := maxResults_or_20 req in
       match user req with
       | Some u =>
           let* emails := listEmails (accessToken u) (Some maxResults) ["INBOX"%string] in
           ret (Reply 200
                  (JObj [("success", JBool true);
                         ("emails", JArr (map entry_json emails))]%string))
       | None => throw (mkError "Cannot read properties of undefined")
       end)
      (fun error =>
         ret (Reply 500
                (JObj [("success", JBool false); ("error", JStr (message error))]%string)))).

End Dashboard.

(* ================================================================== *)
(** ** The basic server: its [GmailService.listEmails] *)

Module Basic.

(** An element of [emailDetails]; [snippet] is passed on as received. *)
Record EmailEntry := mkEntry {
  id : string;
  threadId : option string;
  subject : string;
  from : string;
  date : string;
  snippet : option string
}.

Definition metadataHeaders : list string := ["From"; "To"; "Subject"; "Date"]%string.

(** The body of [for (const message of messages)]: no [try] of its own. *)
Fixpoint each_message `{Provider} (accessToken : string)
    (messages : list MessageRef) (emailDetails : list EmailEntry)
  : Js (list EmailEntry) :=
  match messages with
  | [] => ret emailDetails
  | m :: rest =>
      let* email :=
        remote messages_get
          (mkCall (Some accessToken)
             (MessagesGet "me" (ref_id m) "metadata" metadataHeaders)) in
      let headers := payload_headers email in
      let subject := or_default (header headers "Subject") "No Subject" in
      let from := or_default (header headers "From") "Unknown Sender" in
      let date := or_default (header headers "Date") "" in
      each_message accessToken rest
        (emailDetails ++
         [mkEntry (ref_id m) (ref_threadId m) subject from date (data_snippet email)])
  end.

(** [listEmails(maxResults = 10)]. *)
Definition listEmails `{Provider} (accessToken : string) (maxResults : number)
  : Js (list EmailEntry) :=
  try_catch
    (let* response :=
       remote messages_list
         (mkCall (Some accessToken) (MessagesList "me" maxResults None None)) in
     let messages := default [] response in
     each_message accessToken messages [])
    (fun error => throw (mkError ("Failed to list emails: " +:+ message error))).

(** The entry pushed for a message whose details arrived. *)
Definition entry (m : MessageRef) (email : EmailData) : EmailEntry :=
  let headers := payload_headers email in
  mkEntry (ref_id m) (ref_threadId m)
    (or_default (header headers "Subject") "No Subject")
    (or_default (header headers "From") "Unknown Sender")
    (or_default (header headers "Date") "")
    (data_snippet email).

Definition entry_json (e : EmailEntry) : json :=
  JObj ([("id"%string, JStr (id e))] ++ member "threadId" (JStr <$> threadId e) ++
        [("subject", JStr (subject e)); ("from", JStr (from e));
         ("date", JStr (date e))]%string ++
        member "snippet" (JStr <$> snippet e)).

(** [app.get('/api/emails', ensureAuthenticated, ...)]: ten messages,
    whatever the query; the middleware is the one of the dashboard server. *)
Definition get_emails `{Provider} (req : Req) : Js Res :=
  next_with (Dashboard.ensureAuthenticated req) (fun req =>
    try_catch
      (match user req with
       | Some u =>
           let* emails := listEmails (accessToken u) (Some 10) in
           ret (Reply 200
                  (JObj [("success", JBool true);
                         ("emails", JArr (map entry_json emails))]%string))
       | None => throw (mkError "Cannot read properties of undefined")
       end)
      (fun error =>
         ret (Reply 500
                (JObj [("success", JBool false); ("error", JStr (message error))]%string)))).

End Basic.

(* ================================================================== *)
(** ** The delegated-access server: [gmailConfig], [emailService], routes *)

Module Delegated.

(** [gmailConfig.ensureInitialized()] and the check of [getGmailClient()]. *)
Definition ensureInitialized : Js unit :=
  fun w =>
    if isInitialized w then (Return tt, w)
    else (Throw (mkError "OAuth2 client not initialized. Call initializeOAuth2() first."), w).

(** [gmailConfig.setCredentials(tokens)]. *)
Definition setCredentials (tokens : Tokens) : Js unit :=
  ensureInitialized;;
  fun w => (Return tt, set_credentials tokens w).

(** [gmailConfig.getGmailClient()]: the client shares the OAuth2 client. *)
Definition getGmailClient : Js unit := ensureInitialized.

(** [emailService.initializeForUser(tokens)]. *)
Definition initializeForUser (tokens : Tokens) : Js unit :=
  setCredentials tokens;;
  getGmailClient;;
  fun w => (Return tt, set_gmail true w).

(** A call through [this.gmail]: the shared OAuth2 client decides whether
    the request leaves and with which access token. *)
Definition through_gmail {A} `{Client} (answer : list call -> call -> Error + A)
    (r : request) : Js A :=
  fun w =>
    let '(decision, creds) := authorize w r in
    match decision with
    | inl e => (Throw e, with_credentials creds w)
    | inr bearer => remote answer (mkCall bearer r) (with_credentials creds w)
    end.

(** [if (!this.gmail) throw new Error(why)]. *)
Definition require_gmail (why : string) : Js unit :=
  fun w => if gmail w then (Return tt, w) else (Throw (mkError why), w).

(** [getDelegatedEmails(targetEmail, maxResults = 10, pageToken = null)]. *)
Definition getDelegatedEmails `{Provider} `{Client} (targetEmail : string) (maxResults : number)
    (pageToken : option string) : Js json :=
  require_gmail "Gmail client not initialized. Call initializeForUser() first.";;
  try_catch
    (through_gmail opaque_data
       (MessagesList targetEmail maxResults None
          (if falsy pageToken then None else pageToken)))
    (fun error =>
       throw (mkError ("Failed to fetch emails from " +:+ targetEmail +:+ ": " +:+
                       message error))).

(** [getDelegatedEmail(targetEmail, messageId)]. *)
Definition getDelegatedEmail `{Provider} `{Client} (targetEmail messageId : string) : Js json :=
  require_gmail "Gmail client not initialized.";;
  try_catch
    (through_gmail opaque_data (MessagesGet targetEmail messageId "full" []))
    (fun error =>
       throw (mkError ("Failed to fetch email from " +:+ targetEmail +:+ ": " +:+
                       message error))).

(** [getDelegatedThreads(targetEmail, maxResults = 10)]. *)
Definition getDelegatedThreads `{Provider} `{Client} (targetEmail : string) (maxResults : number)
  : Js json :=
  require_gmail "Gmail client not initialized.";;
  try_catch
    (through_gmail opaque_data (ThreadsList targetEmail maxResults))
    (fun error =>
       throw (mkError ("Failed to fetch threads from " +:+ targetEmail +:+ ": " +:+
                       message error))).

(** [ensureGmailClient()]. *)
Definition ensureGmailClient : Js unit :=
  fun w =>
    if gmail w then (Return tt, w)
    else (getGmailClient;; fun w' => (Return tt, set_gmail true w')) w.

(** The message of [sendEmailAsDelegate], lines joined by a line feed. *)
Definition delegate_text (to subject body from : string) : string :=
  join LF
    ["From: " +:+ from;
     "To: " +:+ to;
     "Content-Type: text/html; charset=utf-8";
     "MIME-Version: 1.0";
     "Subject: " +:+ subject;
     "";
     body]%string.

(** [sendEmailAsDelegate({to, subject, body, from})]. *)
Definition sendEmailAsDelegate `{Provider} `{Client} (to subject body from : string)
  : Js (option string) :=
  ensureGmailClient;;
  let encodedMessage :=
    strip_padding (url_safe (base64 (utf8 (delegate_text to subject body from)))) in
  try_catch
    (let fromEmail := default from (angle_address from) in
     through_gmail messages_send (MessagesSend fromEmail encodedMessage))
    (fun error =>
       throw (mkError ("Failed to send email as delegate: " +:+ message error))).

Definition error_reply (status : Z) (why : string) : Res :=
  Reply status (JObj [("error"%string, JStr why)]).

(** The middleware [loadUserTokens]. *)
Definition loadUserTokens `{Json} `{Engine} (req : Req) : Js (Res + Req) :=
  try_catch
    (let userId := query req !! "userId"%string in
     if falsy userId then
       ret (inl (error_reply 400 "User ID required. Use the userId from authentication."))
     else
       let* tokens := loadTokens (default "" userId) in
       if negb (truthy tokens) then
         ret (inl (error_reply 404
                     "User not found or not authenticated. Please authenticate first."))
       else
         ret (inr (mkReq (query req) (body req) (params req) (user req)
                     (Some tokens) (field tokens "email") (targetEmail req))))
    (fun error => ret (inl (error_reply 500 (message error)))).

Definition not_space_or_at (c : ascii) : bool :=
  negb (is_space c) && negb (Ascii.eqb c "@").

(** [/^[^\s@]+@[^\s@]+\.[^\s@]+$/]. *)
Definition emailRegex : regex :=
  Cat (Plus (Class not_space_or_at))
    (Cat (Class (Ascii.eqb "@"))
       (Cat (Plus (Class not_space_or_at))
          (Cat (Class (Ascii.eqb ".")) (Plus (Class not_space_or_at))))).

(** The middleware [validateEmailAccess]; [req.query] is an object, so
    [req.query || req.body] is the query. *)
Definition validateEmailAccess (req : Req) : Js (Res + Req) :=
  try_catch
    (let targetEmail := query req !! "targetEmail"%string in
     if falsy targetEmail then
       ret (inl (error_reply 400 "targetEmail parameter is required"))
     else if negb (test emailRegex (default "" targetEmail)) then
       ret (inl (error_reply 400 "Invalid email format"))
     else
       ret (inr (mkReq (query req) (body req) (params req) (user req)
                   (userTokens req) (userEmail req) targetEmail)))
    (fun error => ret (inl (error_reply 500 (message error)))).

(** [const { maxResults = 10 } = req.query; parseInt(maxResults)]. *)
Definition maxResults_of (req : Req) : number :=
  match query req !! "maxResults"%string with
  | Some s => parseInt s
  | None => Some 10
  end.

Definition delegated_reply (req : Req) (data : json) : Res :=
  Reply 200
    (JObj ([("success"%string, JBool true)] ++
           member "authenticatedAs" (userEmail req) ++
           member "accessing" (JStr <$> targetEmail req) ++
           [("data"%string, data)])).

(** [router.get('/inbox', validateEmailAccess, ...)] behind
    [router.use(loadUserTokens)].  [getDelegatedEmails] takes three
    arguments: the label and search filters passed after them are dropped. *)
Definition get_inbox `{Json} `{Engine} `{Provider} `{Client} (req : Req) : Js Res :=
  next_with (loadUserTokens req) (fun req =>
  next_with (validateEmailAccess req) (fun req =>
    try_catch
      (let* emails :=
         getDelegatedEmails (default "" (targetEmail req)) (maxResults_of req)
           (query req !! "pageToken"%string) in
       ret (delegated_reply req emails))
      (fun error =>
         ret (Reply 500
                (JObj [("error", JStr "Failed to fetch emails");
                       ("details", JStr (message error))]%string))))).

(** [router.get('/emails/:messageId', validateEmailAccess, ...)]. *)
Definition get_email `{Json} `{Engine} `{Provider} `{Client} (req : Req) : Js Res :=
  next_with (loadUserTokens req) (fun req =>
  next_with (validateEmailAccess req) (fun req =>
    try_catch
      (let messageId := params req !! "messageId"%string in
       if falsy messageId || (String.length (default "" messageId) <? 5)%nat then
         ret (error_reply 400 "Valid messageId is required")
       else
         let* email :=
           getDelegatedEmail (default "" (targetEmail req)) (default "" messageId) in
         ret (delegated_reply req email))
      (fun error => ret (error_reply 500 (message error))))).

(** [router.get('/threads', validateEmailAccess, ...)]. *)
Definition get_threads `{Json} `{Engine} `{Provider} `{Client} (req : Req) : Js Res :=
  next_with (loadUserTokens req) (fun req =>
  next_with (validateEmailAccess req) (fun req =>
    try_catch
      (let* threads :=
         getDelegatedThreads (default "" (targetEmail req)) (maxResults_of req) in
       ret (delegated_reply req threads))
      (fun error => ret (error_reply 500 (message error))))).

(** [router.post('/send', validateEmailAccess, ...)] of the delegated
    routes. *)
Definition post_send_delegated `{Json} `{Engine} `{Provider} `{Client} (req : Req) : Js Res :=
  next_with (loadUserTokens req) (fun req =>
  next_with (validateEmailAccess req) (fun req =>
    try_catch
      (let to := body req !! "to"%string in
       let subject := body req !! "subject"%string in
       let text := body req !! "body"%string in
       let from := body req !! "from"%string in
       if falsy to || falsy subject || falsy text || falsy from then
         ret (error_reply 400 "Missing required fields: to, subject, body, from")
       else if negb (bool_decide (from = targetEmail req)) then
         ret (error_reply 400 "From email must match the delegated mailbox")
       else
         let* result :=
           sendEmailAsDelegate (default "" to) (default "" subject) (default "" text)
             (default "" from) in
         ret (Reply 200
                (JObj ([("success", JBool true);
                        ("message", JStr "Email sent successfully as delegate")]%string ++
                       member "sentAs" (JStr <$> from) ++
                       member "messageId" (JStr <$> result)))))
      (fun error =>
         ret (Reply 500
                (JObj [("error", JStr "Failed to send email");
                       ("details", JStr (message error))]%string))))).

(** The middleware [requireAuth] of [routes/emailRoutes.js]. *)
Definition requireAuth (req : Req) : Js (Res + Req) :=
  if falsy (query req !! "userId"%string) || falsy (query req !! "tokens"%string) then
    ret (inl (error_reply 401
                ("Authentication required. Please authenticate first via /auth " +:+
                 "and provide userId and tokens.")))
  else ret (inr req).

(** [router.post('/send', ...)] of [routes/emailRoutes.js].  The
    [emailService] object has no method [sendEmail]: the call throws a
    [TypeError], which the handler's [catch] turns into a 500. *)
Definition post_send (req : Req) : Js Res :=
  next_with (requireAuth req) (fun req =>
    try_catch
      (let to := body req !! "to"%string in
       let subject := body req !! "subject"%string in
       let text := body req !! "body"%string in
       if falsy to || falsy subject || falsy text then
         ret (error_reply 400 "Missing required fields: to, subject, body")
       else
         throw (mkError "emailService.sendEmail is not a function"))
      (fun error => ret (error_reply 500 (message error)))).

(** [gmailConfig.generateAuthUrl()]. *)
Definition generateAuthUrl `{OAuth2} : Js string :=
  ensureInitialized;;
  ret consent_url.

(** [gmailConfig.getTokens(code)]: the exchange, then the tokens become
    the credentials of the OAuth2 client. *)
Definition getTokens `{OAuth2} (code : string) : Js Tokens :=
  ensureInitialized;;
  let* tokens :=
    (fun w =>
       match getToken w code with
       | inl e => (Throw e, w)
       | inr tokens => (Return tokens, w)
       end) in
  (fun w => (Return tt, set_credentials tokens w));;
  ret tokens.

(** [router.get('/delegation-status', ...)]: behind [loadUserTokens]
    only. *)
Definition get_delegation_status `{Json} `{Engine} (req : Req) : Js Res :=
  next_with (loadUserTokens req) (fun req =>
    try_catch
      (let targetEmail := query req !! "targetEmail"%string in
       if falsy targetEmail then
         ret (error_reply 400 "targetEmail parameter is required")
       else
         ret (Reply 200
                (JObj ([("success"%string, JBool true)] ++
                       member "authenticatedAs" (userEmail req) ++
                       [("delegationStatus"%string,
                         JObj [("hasAccess", JBool true);
                               ("message", JStr "Delegation check skipped for testing");
                               ("targetEmail", JStr (default "" targetEmail))]%string)]))))
      (fun error => ret (error_reply 500 (message error)))).

End Delegated.

(* ================================================================== *)
(** ** [routes/emailRoutes.js]: the routes besides [/send]

    Each handler calls a method that the [emailService] object does not
    have; the call throws a [TypeError] inside the handler's [try]. *)

Module EmailRoutes.

Definition not_a_function (method : string) : Error :=
  mkError ("emailService." +:+ method +:+ " is not a function").

Definition calling (method : string) (req : Req) : Js Res :=
  next_with (Delegated.requireAuth req) (fun req =>
    try_catch
      (throw (not_a_function method))
      (fun error => ret (Delegated.error_reply 500 (message error)))).

(** [router.get('/inbox', ...)]. *)
Definition get_inbox : Req -> Js Res := calling "getEmails".

(** [router.get('/emails/:messageId', ...)]. *)
Definition get_email : Req -> Js Res := calling "getEmail".

(** [router.get('/threads', ...)]. *)
Definition get_threads : Req -> Js Res := calling "getThreads".

(** [router.get('/threads/:threadId', ...)]. *)
Definition get_thread : Req -> Js Res := calling "getThread".

End EmailRoutes.

(* ================================================================== *)
(** ** [routes/authRoutes.js] *)

Module Auth.

(** [router.get('/url', ...)]. *)
Definition get_url `{OAuth2} (req : Req) : Js Res :=
  try_catch
    (let* authUrl := Delegated.generateAuthUrl in
     ret (Reply 200
            (JObj [("success", JBool true);
                   ("authUrl", JStr authUrl);
                   ("message", JStr "Visit this URL to authenticate with Google")]%string)))
    (fun error => ret (Delegated.error_reply 500 (message error))).

(** The id under which [/callback] stores the tokens: [`user_${Date.now()}`]. *)
Definition user_at (now : Z) : string := "user_" +:+ decimal now.

(** [router.get('/callback', ...)]. *)
Definition get_callback `{Json} `{Engine} `{OAuth2} (req : Req) : Js Res :=
  try_catch
    (let code := query req !! "code"%string in
     if falsy code then
       ret (Delegated.error_reply 400 "Authorization code required")
     else
       let* tokens := Delegated.getTokens (default "" code) in
       let* now := Date_now in
       let userId := user_at now in
       saveTokens userId tokens;;
       ret (Reply 200
              (JObj [("success", JBool true);
                     ("message", JStr "Authentication successful");
                     ("userId", JStr userId);
                     ("hasRefreshToken", JBool (negb (falsy (refresh_token tokens))));
                     ("note", JStr "Save this userId for making API calls")]%string)))
    (fun error => ret (Delegated.error_reply 500 (message error))).

(** [new Date(x)] for a member [x], as [res.json] writes it. *)
Definition new_Date `{Engine} (x : option json) : Js json :=
  match x with
  | Some (JNum e) => ret (date_json e)
  | Some x => lift (date_of x)
  | None => ret JNull
  end.

(** [router.get('/status', ...)]. *)
Definition get_status `{Json} `{Engine} (req : Req) : Js Res :=
  try_catch
    (let userId := query req !! "userId"%string in
     if falsy userId then
       ret (Delegated.error_reply 400 "User ID required")
     else
       let* tokens := loadTokens (default "" userId) in
       if negb (truthy tokens) then
         ret (Delegated.error_reply 404 "No tokens found for user")
       else
         let* isExpired := isTokenExpired tokens in
         let* expiryDate :=
           if truthy (member_value (field tokens "expiry_date"))
           then new_Date (field tokens "expiry_date")
           else ret JNull in
         ret (Reply 200
                (JObj [("success", JBool true);
                       ("hasTokens", JBool true);
                       ("isExpired", JBool isExpired);
                       ("expiryDate", expiryDate)]%string)))
    (fun error => ret (Delegated.error_reply 500 (message error))).

End Auth.

(* ================================================================== *)
(** ** The health report as the specification words it *)

(** A configuration value is present when it is set and not empty; this is
    how [validateEnvironment] tells a present value from a missing one. *)
Definition present (w : World) (key : string) : bool :=
  negb (falsy (env w !! key)).

(* ================================================================== *)
(** ** The listing as the specification words it *)

(** The answers of the remote side to the detail fetches of a listing, in
    order, each given the calls issued before it. *)
Fixpoint fetches `{Provider} (accessToken : string) (metadataHeaders : list string)
    (messages : list MessageRef) (history : list call) : list (Error + EmailData) :=
  match messages with
  | [] => []
  | m :: rest =>
      let c := mkCall (Some accessToken)
                 (MessagesGet "me" (ref_id m) "metadata" metadataHeaders) in
      messages_get history c :: fetches accessToken metadataHeaders rest (history ++ [c])
  end.

(** The detail fetches themselves. *)
Definition fetch_calls (accessToken : string) (metadataHeaders : list string)
    (messages : list MessageRef) : list call :=
  map (fun m => mkCall (Some accessToken)
                  (MessagesGet "me" (ref_id m) "metadata" metadataHeaders)) messages.

(** One entry per listed message: a full summary when the fetch arrived,
    an error entry with the id and the message of the error otherwise. *)
Definition entry_for `{Locale} (m : MessageRef) (answer : Error + EmailData)
  : Dashboard.EmailEntry :=
  match answer with
  | inr email => Dashboard.summary m email
  | inl e => Dashboard.Failed (ref_id m) (message e)
  end.

Fixpoint entries `{Locale} (messages : list MessageRef)
    (answers : list (Error + EmailData)) : list Dashboard.EmailEntry :=
  match messages, answers with
  | m :: ms, a :: answers' => entry_for m a :: entries ms answers'
  | _, _ => []
  end.

Definition add_calls (cs : list call) (w : World) : World :=
  {| tokensFile := tokensFile w; writeFault := writeFault w; clock := clock w;
     env := env w; calls := calls w ++ cs; isInitialized := isInitialized w;
     credentials := credentials w; gmail := gmail w |}.

Definition entry_id (e : Dashboard.EmailEntry) : string :=
  match e with
  | Dashboard.Summary id _ _ _ _ _ _ _ _ => id
  | Dashboard.Failed id _ => id
  end.

(* ================================================================== *)
(** ** The message as the specification words it *)

(** The To, Content-Type, MIME-Version and Subject header lines, a blank
    line, and the body, as lines ended by CR LF. *)
Definition rfc822 (to subject text : string) : string :=
  join CRLF
    ["To: " +:+ to;
     "Content-Type: text/plain; charset=" +:+ String dquote ("UTF-8" +:+ String dquote "");
     "MIME-Version: 1.0";
     "Subject: " +:+ subject;
     "";
     text]%string.

(* ================================================================== *)
(** ** Notions of the proofs about the codec *)

(** A text that may follow an integer: it starts with neither a digit
    nor a fraction or an exponent. *)
Definition number_ends (rest : string) : Prop :=
  span_digits rest = (EmptyString, rest) ∧ fraction_follows rest = false.

(** [print] then [parse_value] gives the value back, whatever the
    indentation and the text that follows, with fuel for that text. *)
Definition parses (v : json) : Prop :=
  ∀ (indent : nat) (rest : string) (f : nat),
    number_ends rest →
    (2 * String.length (print indent v +:+ rest) + 2 ≤ f)%nat →
    parse_value f (print indent v +:+ rest) = Some (v, rest).

(** An element and a member as [print] lays them out. *)
Definition item_text (indent : nat) (x : json) : string :=
  spaces (indent + 2) +:+ print (indent + 2) x.

Definition member_text (indent : nat) (kv : string * json) : string :=
  spaces (indent + 2) +:+ quote (fst kv) +:+ ": " +:+ print (indent + 2) (snd kv).

(** A codec that reads back every value it writes. *)
Class JsonLaws `{Json} : Prop :=
  parse_stringify : ∀ v : json, JSON_parse (JSON_stringify v) = Some v.

(* ================================================================== *)
(** ** Notions of the proofs about the routes *)

(** The request as [loadUserTokens] and [validateEmailAccess] hand it on. *)
Definition with_tokens (req : Req) (tokens : jsval) : Req :=
  mkReq (query req) (body req) (params req) (user req) (Some tokens) (field tokens "email")
    (targetEmail req).

Definition with_target (req : Req) (target : option string) : Req :=
  mkReq (query req) (body req) (params req) (user req) (userTokens req) (userEmail req)
    target.

(** The routes of [routes/delegatedEmailRoutes.js]. *)
Definition delegated_routes `{Json} `{Engine} `{Provider} `{Client}
  : list (Req -> Js Res) :=
  [Delegated.get_inbox; Delegated.post_send_delegated; Delegated.get_email;
   Delegated.get_threads; Delegated.get_delegation_status].

(** The routes of [routes/emailRoutes.js]. *)
Definition email_routes : list (Req -> Js Res) :=
  [Delegated.post_send; EmailRoutes.get_inbox; EmailRoutes.get_email;
   EmailRoutes.get_threads; EmailRoutes.get_thread].

(** [w'] is [w] after at most one request through the shared client: the
    token file and the OAuth2 client are the same; either no call was
    issued and the credentials are the same, or the client decided on one
    request [r] from the state of the moment, the call, if any, bears the
    access token of that decision, and the credentials are those that the
    client then holds. *)
Definition quiet `{Client} (w w' : World) : Prop :=
  tokensFile w' = tokensFile w ∧ isInitialized w' = isInitialized w ∧
  ((calls w' = calls w ∧ credentials w' = credentials w) ∨
   ∃ r, credentials w' = snd (authorize (set_gmail true w) r) ∧
        calls w' = match fst (authorize (set_gmail true w) r) with
                   | inr bearer => calls w ++ [mkCall bearer r]
                   | inl _ => calls w
                   end).

(** The API routes of the dashboard server and of the basic server. *)
Definition api_routes `{Provider} `{Locale} : list (Req -> Js Res) :=
  [Dashboard.get_emails; Dashboard.post_send_email; Basic.get_emails].

(** A callback whose code is exchanged for [tokens] and whose write is
    not refused. *)
Definition grants `{OAuth2} (req : Req) (w : World) (tokens : Tokens) : Prop :=
  ∃ code, query req !! "code"%string = Some code ∧ code ≠ ""%string ∧
          isInitialized w = true ∧ getToken w code = inr tokens ∧ writeFault w = None.

(** The expiry of what [loadTokens] found is one that the handler of
    [/status] converts itself: it is absent or falsy, or it is a number. *)
Definition plain_expiry (tokens : jsval) : Prop :=
  truthy (member_value (field tokens "expiry_date")) = false ∨
  ∃ e, field tokens "expiry_date" = Some (JNum e).

(** The answer of [/callback] to such a request at the time [now]. *)
Definition callback_ok (tokens : Tokens) (now : Z) : Res :=
  Reply 200
    (JObj [("success", JBool true);
           ("message", JStr "Authentication successful");
           ("userId", JStr (Auth.user_at now));
           ("hasRefreshToken", JBool (negb (falsy (refresh_token tokens))));
           ("note", JStr "Save this userId for making API calls")]%string).

(** The strings of a regular expression. *)
Inductive matches : regex -> string -> Prop :=
| matches_epsilon : matches Epsilon ""
| matches_class (p : ascii -> bool) (c : ascii) :
    p c = true -> matches (Class p) (String c "")
| matches_cat (r1 r2 : regex) (s1 s2 : string) :
    matches r1 s1 -> matches r2 s2 -> matches (Cat r1 r2) (s1 +:+ s2)
| matches_alt_l (r1 r2 : regex) (s : string) : matches r1 s -> matches (Alt r1 r2) s
| matches_alt_r (r1 r2 : regex) (s : string) : matches r2 s -> matches (Alt r1 r2) s
| matches_star_nil (r : regex) : matches (Star r) ""
| matches_star_cons (r : regex) (s1 s2 : string) :
    matches r s1 -> matches (Star r) s2 -> matches (Star r) (s1 +:+ s2).

(** Every character of [s] is in [p]. *)
Fixpoint all_chars (p : ascii -> bool) (s : string) : bool :=
  match s with
  | EmptyString => true
  | String c r => p c && all_chars p r
  end.

(** No line break among the characters of [s]. *)
Definition one_line (s : string) : bool :=
  negb (occurs (ascii_of_N 10) s) && negb (occurs (ascii_of_N 13) s).

(** [A-Z], [a-z], [0-9], [-] and [_]: the alphabet of URL-safe base64. *)
Definition url_safe_char (c : ascii) : bool :=
  let n := N_of_ascii c in
  ((65 <=? n) && (n <=? 90) || (97 <=? n) && (n <=? 122) || (48 <=? n) && (n <=? 57)
   || (n =? 45) || (n =? 95))%N.

Definition url_safe_or_pad (c : ascii) : bool := url_safe_char c || Ascii.eqb c "=".

(** What [url_safe] makes of one character. *)
Definition url_safe_of (c : ascii) : ascii :=
  if Ascii.eqb (if Ascii.eqb c "+" then "-" else c) "/" then "_"%char
  else if Ascii.eqb c "+" then "-"%char else c.

(** The number a decimal numeral stands for, read after [acc]. *)
Fixpoint uint_value (d : uint) (acc : Z) : Z :=
  match d with
  | Nil => acc
  | D0 d => uint_value d (acc * 10)
  | D1 d => uint_value d (acc * 10 + 1)
  | D2 d => uint_value d (acc * 10 + 2)
  | D3 d => uint_value d (acc * 10 + 3)
  | D4 d => uint_value d (acc * 10 + 4)
  | D5 d => uint_value d (acc * 10 + 5)
  | D6 d => uint_value d (acc * 10 + 6)
  | D7 d => uint_value d (acc * 10 + 7)
  | D8 d => uint_value d (acc * 10 + 8)
  | D9 d => uint_value d (acc * 10 + 9)
  end.

(** No [<] of [s] has a [>] after it: [/<[^>]*>/] finds nothing in [s]. *)
Fixpoint tagless (s : string) : bool :=
  match s with
  | EmptyString => true
  | String c r => if Ascii.eqb c "<" then negb (occurs ">" r) else tagless r
  end.

(** The sender of a summary; an error entry has none. *)
Definition entry_from (e : Dashboard.EmailEntry) : option string :=
  match e with
  | Dashboard.Summary _ _ _ from _ _ _ _ _ => Some from
  | Dashboard.Failed _ _ => None
  end.

(** What the loop of the basic server makes of the answers to its
    fetches: the entries when all of them arrived, the first error
    otherwise. *)
Fixpoint basic_entries (messages : list MessageRef) (answers : list (Error + EmailData))
  : Error + list Basic.EmailEntry :=
  match messages, answers with
  | m :: ms, inr email :: rest =>
      match basic_entries ms rest with
      | inr es => inr (Basic.entry m email :: es)
      | inl e => inl e
      end
  | _ :: _, inl e :: _ => inl e
  | _, _ => inr []
  end.

(* ================================================================== *)
(** ** Data of the examples *)

Definition fresh (f : file) (now : Z) : World :=
  {| tokensFile := f; writeFault := None; clock := now; env := ∅; calls := [];
     isInitialized := false; credentials := None; gmail := false |}.

(** [{access_token: 'a1', expiry_date: expiry}]. *)
Definition a1 (expiry : Z) : Tokens :=
  mkTokens (Some "a1"%string) None None None None (Some expiry) None None.

(** A remote side that lists three messages, fails on the details of
    [m2], and accepts what is sent. *)
#[export] Instance flaky : Provider := {|
  messages_list _ _ :=
    inr (Some [mkMessageRef "m1" (Some "t1"); mkMessageRef "m2" (Some "t2");
               mkMessageRef "m3" None]%string);
  messages_get _ c :=
    match sent c with
    | MessagesGet _ id _ _ =>
        if String.eqb id "m2" then inl (mkError "Requested entity was not found.")
        else inr (mkEmailData [mkHeader "Subject" "Hello"; mkHeader "From" "Ann <ann@x.org>"]
                    (Some "preview"%string) None None)
    | _ => inl (mkError "Bad Request")
    end;
  opaque_data _ _ := inr JNull;
  messages_send _ _ := inr (Some "sent-1"%string)
|}.

(** A request with the given query, body and route parameters. *)
Definition request_of (q b p : list (string * string)) (u : option User) : Req :=
  mkReq (list_to_map q) (list_to_map b) (list_to_map p) u None None None.

Definition ann : User := mkUser "1" "ann@x.org" "Ann" "tok" None.

(** A process started with the given environment. *)
Definition configured (vars : list (string * string)) (now : Z) : World :=
  {| tokensFile := Missing; writeFault := None; clock := now; env := list_to_map vars;
     calls := []; isInitialized := false; credentials := None; gmail := false |}.

(** A text that [JSON.parse] rejects. *)
Definition corrupt : string := "{oops".

(** 14 November 2023, 22:13:20 UTC. *)
Definition t0 : Z := 1700000000000.

(** A store that holds a record for [u2]. *)
Definition store_u2 : World :=
  fresh (Content (JSON_stringify (JObj [("u2"%string, object_of (a1 5000))]))) t0.

(** A token endpoint that knows two codes: the first is exchanged for
    tokens with a refresh token, the second for tokens without one. *)
Definition granted : Tokens :=
  mkTokens (Some "ya29.a"%string) (Some "1//r"%string) None
    (Some "Bearer"%string) None (Some (t0 + 3600000)) None None.

Definition regranted : Tokens :=
  mkTokens (Some "ya29.b"%string) None None
    (Some "Bearer"%string) None (Some (t0 + 3600000)) None None.

#[export] Instance granting : OAuth2 := {|
  consent_url := "https://accounts.google.com/o/oauth2/v2/auth?access_type=offline";
  getToken _ code :=
    if String.eqb code "4/good" then inr granted
    else if String.eqb code "4/again" then inr regranted
    else inl (mkError "invalid_grant")
|}.

(** A process whose OAuth2 client is initialized; [client] tells whether
    the service holds a Gmail client. *)
Definition serving (f : file) (creds : option Tokens) (client : bool) (now : Z) : World :=
  {| tokensFile := f; writeFault := None; clock := now; env := ∅; calls := [];
     isInitialized := true; credentials := creds; gmail := client |}.

Definition ready (f : file) (now : Z) : World := serving f None false now.

(** The same on a disk that refuses every write. *)
Definition read_only_disk (f : file) (now : Z) : World :=
  {| tokensFile := f; writeFault := Some "EACCES: permission denied"%string; clock := now;
     env := ∅; calls := []; isInitialized := true; credentials := None; gmail := false |}.

(** The file of [store_u2]. *)
Definition stored_u2 : file :=
  Content (JSON_stringify (JObj [("u2"%string, object_of (a1 5000))])).

(** The index that a property name stands for in an array or a string:
    the decimal numeral of an integer below [2^32 - 1]. *)
Definition array_index (k : string) : option nat :=
  match read_digits 10 k None with
  | Some n =>
      if String.eqb (decimal n) k && (n <? 4294967295) then Some (Z.to_nat n) else None
  | None => None
  end.

(** [items] with [x] at the index [i], the indices before it filled with
    [null], which is how [JSON.stringify] writes an empty slot. *)
Fixpoint set_item (i : nat) (x : json) (items : list json) : list json :=
  match i, items with
  | O, [] => [x]
  | O, _ :: rest => x :: rest
  | S i', [] => JNull :: set_item i' x []
  | S i', y :: rest => y :: set_item i' x rest
  end.

Definition number_methods : list string :=
  ["toExponential"; "toFixed"; "toPrecision"]%string.

Definition string_methods : list string :=
  ["anchor"; "at"; "big"; "blink"; "bold"; "charAt"; "charCodeAt"; "codePointAt";
   "concat"; "endsWith"; "fontcolor"; "fontsize"; "fixed"; "includes"; "indexOf";
   "italics"; "lastIndexOf"; "link"; "localeCompare"; "match"; "matchAll";
   "normalize"; "padEnd"; "padStart"; "repeat"; "replace"; "replaceAll"; "search";
   "slice"; "small"; "split"; "strike"; "sub"; "substr"; "substring"; "sup";
   "startsWith"; "trim"; "trimStart"; "trimLeft"; "trimEnd"; "trimRight";
   "toLocaleLowerCase"; "toLocaleUpperCase"; "toLowerCase"; "toUpperCase"]%string.

Definition array_methods : list string :=
  ["at"; "concat"; "copyWithin"; "fill"; "find"; "findIndex"; "findLast";
   "findLastIndex"; "lastIndexOf"; "pop"; "push"; "reverse"; "shift"; "unshift";
   "slice"; "sort"; "splice"; "includes"; "indexOf"; "join"; "keys"; "entries";
   "values"; "forEach"; "filter"; "flat"; "flatMap"; "map"; "every"; "some";
   "reduce"; "reduceRight"]%string.

(** A member that a value inherits, by the names of its own prototype and
    of [Object.prototype]. *)
Definition method (names : list string) (k : string) : jsval :=
  if inherited k || bool_decide (k ∈ names) then Native k else Undefined.

(** The text of a primitive in the messages of the engine. *)
Definition shown (v : json) : string :=
  match v with
  | JBool true => "boolean 'true'"
  | JBool false => "boolean 'false'"
  | JNum n => "number '" +:+ decimal n +:+ "'"
  | JStr s => "string '" +:+ s +:+ "'"
  | _ => "object"
  end.

(** The engine of Node.js 18 on the values that the examples meet.
    A boolean, a number or a string takes no property; an array takes
    one, which [JSON.stringify] writes when its name is an index.  A
    string that is not a decimal numeral, an array and an object count as
    not-a-number and as no date: numerals with a fraction or an exponent
    and date strings are outside the examples. *)
#[export] Instance node : Engine := {|
  read_other v k :=
    match v with
    | JBool _ => method [] k
    | JNum _ => method number_methods k
    | JStr s =>
        match array_index k with
        | Some i =>
            match String.get i s with
            | Some c => Data (JStr (String c ""))
            | None => Undefined
            end
        | None =>
            if String.eqb k "length" then Data (JNum (Z.of_nat (String.length s)))
            else method string_methods k
        end
    | JArr items =>
        match array_index k with
        | Some i => member_value (items !! i)
        | None =>
            if String.eqb k "length" then Data (JNum (Z.of_nat (length items)))
            else method array_methods k
        end
    | _ => Undefined
    end;
  assign_other v k x :=
    match v with
    | JArr items =>
        match array_index k with
        | Some i => inr (JArr (set_item i x items))
        | None =>
            if String.eqb k "length" then inl (mkError "Invalid array length") else inr v
        end
    | JStr s =>
        if String.eqb k "__proto__" then inr v
        else if String.eqb k "length"
                || match array_index k with
                   | Some i => (i <? String.length s)%nat
                   | None => false
                   end
        then inl (mkError ("Cannot assign to read only property '" +:+ k +:+ "' of " +:+
                           shown v))
        else inl (mkError ("Cannot create property '" +:+ k +:+ "' on " +:+ shown v))
    | _ =>
        if String.eqb k "__proto__" then inr v
        else inl (mkError ("Cannot create property '" +:+ k +:+ "' on " +:+ shown v))
    end;
  cannot_set k := "Cannot set properties of null (setting '" +:+ k +:+ "')";
  later_than now x :=
    inr match x with
        | JBool b => now >? (if b then 1 else 0)
        | JStr s =>
            match String.eqb (trim s) "", numeral (trim s) with
            | true, _ => now >? 0
            | false, Some n => String.eqb (decimal n) (trim s) && (now >? to_double n)
            | false, None => false
            end
        | _ => false
        end;
  date_of x :=
    inr match x with
        | JBool b => date_json (if b then 1 else 0)
        | _ => JNull
        end
|}.

(** The OAuth2 client of the provider's library in front of a token
    endpoint that rejects every refresh.  It refuses a request when it has
    neither an access token nor a refresh token; it sends the access token
    when that one is not within five minutes of its expiry, and notes the
    token type on its credentials; otherwise it asks for new tokens. *)
Definition expiring (c : Tokens) (now : Z) : bool :=
  match expiry_date c with
  | Some e => negb (e =? 0) && (e <=? now + 300000)
  | None => false
  end.

Definition noted (c : Tokens) : Tokens :=
  {| access_token := access_token c;
     refresh_token := refresh_token c;
     scope := scope c;
     token_type := Some (or_default (token_type c) "Bearer");
     id_token := id_token c;
     expiry_date := expiry_date c;
     email := email c;
     createdAt := createdAt c |}.

#[export] Instance library_client : Client := {|
  authorize w r :=
    match credentials w with
    | None =>
        (inl (mkError "No access, refresh token, API key or refresh handler callback is set."),
         None)
    | Some c =>
        if falsy (access_token c) && falsy (refresh_token c) then
          (inl (mkError
                  "No access, refresh token, API key or refresh handler callback is set."),
           Some c)
        else if negb (falsy (access_token c)) && negb (expiring c (clock w)) then
          (inr (access_token c), Some (noted c))
        else if falsy (refresh_token c) then
          (inl (mkError "No refresh token is set."), Some c)
        else (inl (mkError "invalid_grant"), Some c)
    end
|}.

(** A host that prints a date as it is written. *)
#[export] Instance verbatim : Locale := {|
  toLocaleString s := if String.eqb s "" then "Invalid Date"%string else s
|}.

(* ================================================================== *)
(** * The JSON text codec reads back what it writes *)

Lemma append_assoc (a b c : string) : (a +:+ b) +:+ c = a +:+ (b +:+ c).
Proof.
  induction a as [|x a IH]; [reflexivity|].
  change (String x ((a +:+ b) +:+ c) = String x (a +:+ (b +:+ c))).
  rewrite IH. reflexivity.
Qed.

Lemma append_nil_r (s : string) : s +:+ "" = s.
Proof.
  induction s as [|c s IH]; [reflexivity|].
  change (String c (s +:+ "") = String c s). rewrite IH. reflexivity.
Qed.

Lemma length_append (a b : string) :
  String.length (a +:+ b) = (String.length a + String.length b)%nat.
Proof.
  induction a as [|c a IH]; [reflexivity|].
  change (S (String.length (a +:+ b)) = S (String.length a + String.length b)).
  rewrite IH. reflexivity.
Qed.

Lemma parse_string_char (c : ascii) (tail acc : string) :
  parse_string (escape_char c +:+ tail) acc = parse_string tail (acc +:+ String c "").
Proof.
  destruct c as [[] [] [] [] [] [] [] []]; reflexivity.
Qed.

Lemma parse_string_escape (s acc rest : string) :
  parse_string (escape s +:+ String dquote rest) acc = Some (acc +:+ s, rest).
Proof.
  revert acc. induction s as [|c s IH]; intros acc.
  - rewrite append_nil_r. reflexivity.
  - cbn [escape]. rewrite append_assoc, parse_string_char, IH, append_assoc. reflexivity.
Qed.

Lemma parse_string_quote (s rest : string) :
  parse_string (behead (quote s +:+ rest)) "" = Some (s, rest).
Proof.
  unfold quote.
  change (behead (String dquote (escape s +:+ String dquote "") +:+ rest))
    with ((escape s +:+ String dquote "") +:+ rest).
  rewrite append_assoc. apply parse_string_escape.
Qed.


Lemma span_digits_uint (d : uint) (rest : string) :
  span_digits rest = (EmptyString, rest) →
  span_digits (NilEmpty.string_of_uint d +:+ rest) = (NilEmpty.string_of_uint d, rest).
Proof.
  intros Hrest. induction d as [|d IH|d IH|d IH|d IH|d IH|d IH|d IH|d IH|d IH|d IH];
    [exact Hrest|..];
    cbn [NilEmpty.string_of_uint];
    match goal with
    | |- span_digits (String ?c ?s +:+ rest) = _ =>
        change (span_digits (String c s +:+ rest))
          with (let '(d', r') := span_digits (s +:+ rest) in (String c d', r'))
    end; rewrite IH; reflexivity.
Qed.

Lemma to_int_proper (n : Z) : Z.to_int n ≠ Pos Nil ∧ Z.to_int n ≠ Neg Nil.
Proof.
  destruct n as [|p|p]; cbn [Z.to_int].
  - split; discriminate.
  - split; [|discriminate]. intros [=Hp]. exact (Unsigned.to_uint_nonnil p Hp).
  - split; [discriminate|]. intros [=Hp]. exact (Unsigned.to_uint_nonnil p Hp).
Qed.

Lemma uint_head (d : uint) :
  d ≠ Nil →
  ∃ c tl, NilEmpty.string_of_uint d = String c tl ∧ Ascii.eqb c "-" = false.
Proof.
  intros Hd. destruct d; [congruence|..]; cbn [NilEmpty.string_of_uint];
    eexists _, _; (split; [reflexivity|reflexivity]).
Qed.

Lemma parse_number_digits (negative : bool) (d : uint) (rest : string) :
  d ≠ Nil → number_ends rest →
  parse_number ((if negative then "-" else "") +:+ NilEmpty.string_of_uint d +:+ rest)
  = match NilZero.int_of_string
            ((if negative then "-" else "") +:+ NilEmpty.string_of_uint d) with
    | Some i => Some (JNum (Z.of_int i), rest)
    | None => None
    end.
Proof.
  intros Hd [Hspan Hfrac].
  destruct (uint_head d Hd) as (c & tl & Hsu & Hc).
  assert (Hbody : span_digits (NilEmpty.string_of_uint d +:+ rest)
                  = (NilEmpty.string_of_uint d, rest)) by (apply span_digits_uint, Hspan).
  unfold parse_number. destruct negative.
  - change ("-" +:+ NilEmpty.string_of_uint d +:+ rest)%string
      with (String "-" (NilEmpty.string_of_uint d +:+ rest)).
    cbn match. cbn [Ascii.eqb Bool.eqb]. rewrite Hbody, Hfrac, Hsu. reflexivity.
  - change ("" +:+ NilEmpty.string_of_uint d +:+ rest)%string
      with (NilEmpty.string_of_uint d +:+ rest).
    rewrite Hsu in Hbody |- *.
    change (String c tl +:+ rest) with (String c (tl +:+ rest)) in Hbody |- *.
    cbn match. rewrite Hc, Hbody, Hfrac. reflexivity.
Qed.

Lemma parse_number_print (n : Z) (rest : string) :
  number_ends rest →
  parse_number (NilZero.string_of_int (Z.to_int n) +:+ rest) = Some (JNum n, rest).
Proof.
  intros Hends. destruct (to_int_proper n) as [Hpos Hneg].
  pose proof (NilZero.isi _ Hpos Hneg) as Hisi.
  pose proof (DecimalZ.of_to n) as Hof.
  destruct (Z.to_int n) as [d|d].
  - assert (Hd : d ≠ Nil) by congruence.
    assert (Hs : NilZero.string_of_int (Pos d) = ("" +:+ NilEmpty.string_of_uint d)%string)
      by (destruct d; [congruence|reflexivity..]).
    rewrite Hs in Hisi |- *. rewrite append_assoc.
    rewrite (parse_number_digits false d rest Hd Hends), Hisi, Hof. reflexivity.
  - assert (Hd : d ≠ Nil) by congruence.
    assert (Hs : NilZero.string_of_int (Neg d) = ("-" +:+ NilEmpty.string_of_uint d)%string)
      by (destruct d; [congruence|reflexivity..]).
    rewrite Hs in Hisi |- *. rewrite append_assoc.
    rewrite (parse_number_digits true d rest Hd Hends), Hisi, Hof. reflexivity.
Qed.

(* ---------- white space and heads ---------- *)

Lemma length_spaces (n : nat) : String.length (spaces n) = n.
Proof. induction n as [|n IH]; [reflexivity|]. cbn. rewrite IH. reflexivity. Qed.

Lemma skip_ws_spaces (n : nat) (s : string) : skip_ws (spaces n +:+ s) = skip_ws s.
Proof. induction n as [|n IH]; [reflexivity|]. exact IH. Qed.

Lemma skip_ws_LF (s : string) : skip_ws (LF +:+ s) = skip_ws s.
Proof. reflexivity. Qed.

Lemma skip_ws_idempotent (s : string) : skip_ws (skip_ws s) = skip_ws s.
Proof.
  induction s as [|c s IH]; [reflexivity|].
  cbn [skip_ws]. destruct (is_json_space c) eqn:Hc; [exact IH|].
  cbn [skip_ws]. rewrite Hc. reflexivity.
Qed.

Lemma parse_value_S (f : nat) (s : string) :
  parse_value (S f) s =
  let s' := skip_ws s in
  if begins "{" s' then
    if begins "}" (skip_ws (behead s')) then Some (JObj [], behead (skip_ws (behead s')))
    else parse_members f (behead s') []
  else if begins "[" s' then
    if begins "]" (skip_ws (behead s')) then Some (JArr [], behead (skip_ws (behead s')))
    else parse_elements f (behead s') []
  else if begins dquote s' then
    match parse_string (behead s') "" with
    | Some (str, r') => Some (JStr str, r')
    | None => None
    end
  else
    match after_prefix "null" s', after_prefix "true" s', after_prefix "false" s' with
    | Some r', _, _ => Some (JNull, r')
    | _, Some r', _ => Some (JBool true, r')
    | _, _, Some r' => Some (JBool false, r')
    | _, _, _ => parse_number s'
    end.
Proof. reflexivity. Qed.

Lemma parse_elements_S (f : nat) (s : string) (acc : list json) :
  parse_elements (S f) s acc =
  match parse_value f s with
  | Some (v, r) =>
      let r' := skip_ws r in
      if begins "," r' then parse_elements f (behead r') (acc ++ [v])
      else if begins "]" r' then Some (JArr (acc ++ [v]), behead r')
      else None
  | None => None
  end.
Proof. reflexivity. Qed.

Lemma parse_members_S (f : nat) (s : string) (acc : list (string * json)) :
  parse_members (S f) s acc =
  let s' := skip_ws s in
  if begins dquote s' then
    match parse_string (behead s') "" with
    | Some (k, r1) =>
        let r1' := skip_ws r1 in
        if begins ":" r1' then
          match parse_value f (behead r1') with
          | Some (v, r3) =>
              let r3' := skip_ws r3 in
              if begins "," r3' then parse_members f (behead r3') (acc ++ [(k, v)])
              else if begins "}" r3' then Some (JObj (acc ++ [(k, v)]), behead r3')
              else None
          | None => None
          end
        else None
    | None => None
    end
  else None.
Proof. reflexivity. Qed.

(** Leading white space does not matter to [parse_value]. *)
Lemma parse_value_ws (f : nat) (s1 s2 : string) :
  skip_ws s1 = skip_ws s2 → parse_value f s1 = parse_value f s2.
Proof.
  intros Heq. destruct f as [|f]; [reflexivity|].
  rewrite !parse_value_S, Heq. reflexivity.
Qed.

Lemma number_dispatch (n : Z) (rest : string) :
  let s := NilZero.string_of_int (Z.to_int n) +:+ rest in
  skip_ws s = s ∧ begins "{" s = false ∧ begins "[" s = false ∧
  begins dquote s = false ∧ begins "]" s = false ∧
  after_prefix "null" s = None ∧ after_prefix "true" s = None ∧
  after_prefix "false" s = None.
Proof.
  destruct (Z.to_int n) as [d|d]; destruct d; repeat split; reflexivity.
Qed.

(** What a printed value starts with. *)
Lemma print_head (indent : nat) (v : json) (rest : string) :
  skip_ws (print indent v +:+ rest) = print indent v +:+ rest ∧
  begins "]" (print indent v +:+ rest) = false.
Proof.
  destruct v as [|[]|n|s|[|x items]|[|kv fields]]; try (split; reflexivity).
  destruct (number_dispatch n rest) as (H1 & _ & _ & _ & H2 & _). split; assumption.
Qed.

(** Closes a fuel bound: the lengths are atoms. *)
Ltac fuel :=
  rewrite ?length_append, ?length_spaces in *;
  change (String.length LF) with 1%nat in *;
  change (String.length "[") with 1%nat in *;
  change (String.length "{") with 1%nat in *;
  change (String.length ",") with 1%nat in *;
  change (String.length ": ") with 2%nat in *;
  repeat match goal with
    | |- context [String.length ?s] =>
        let n := fresh "n" in set (n := String.length s) in *; clearbody n
    | H : context [String.length ?s] |- _ =>
        let n := fresh "n" in set (n := String.length s) in *; clearbody n
    end;
  lia.





Lemma print_array (indent : nat) (x : json) (items : list json) :
  print indent (JArr (x :: items)) =
  "[" +:+ LF +:+ join ("," +:+ LF) (map (item_text indent) (x :: items)) +:+
  LF +:+ spaces indent +:+ "]".
Proof. reflexivity. Qed.

Lemma print_object (indent : nat) (kv : string * json) (fields : list (string * json)) :
  print indent (JObj (kv :: fields)) =
  "{" +:+ LF +:+ join ("," +:+ LF) (map (member_text indent) (kv :: fields)) +:+
  LF +:+ spaces indent +:+ "}".
Proof. reflexivity. Qed.

Lemma number_ends_LF (s : string) : number_ends (LF +:+ s).
Proof. split; reflexivity. Qed.

Lemma number_ends_comma (s : string) : number_ends ("," +:+ s).
Proof. split; reflexivity. Qed.

Lemma number_ends_nil : number_ends "".
Proof. split; reflexivity. Qed.

(** The elements of an array, from the line feed before the first one. *)
Lemma parse_elements_items (indent : nat) (items : list json) :
  items ≠ [] → Forall parses items →
  ∀ (acc : list json) (rest : string) (f : nat),
    (2 * String.length
           (LF +:+ join ("," +:+ LF) (map (item_text indent) items) +:+
            LF +:+ spaces indent +:+ "]" +:+ rest) + 3 ≤ f)%nat →
    parse_elements f
      (LF +:+ join ("," +:+ LF) (map (item_text indent) items) +:+
       LF +:+ spaces indent +:+ "]" +:+ rest) acc
    = Some (JArr (acc ++ items), rest).
Proof.
  induction items as [|x items IH]; [congruence|].
  intros _ Hall acc rest f Hf.
  inversion_clear Hall as [|? ? Hx Hitems].
  destruct f as [|f]; [lia|]. rewrite parse_elements_S.
  destruct items as [|y items].
  - cbn [map join] in Hf |- *. unfold item_text in Hf |- *.
    rewrite !append_assoc in Hf |- *.
    set (rest' := (LF +:+ spaces indent +:+ "]" +:+ rest)%string) in *.
    rewrite (parse_value_ws f _ (print (indent + 2) x +:+ rest'))
      by (rewrite skip_ws_LF, skip_ws_spaces; reflexivity).
    rewrite Hx; [| apply number_ends_LF |].
    + cbn zeta. unfold rest'. rewrite skip_ws_LF, skip_ws_spaces. reflexivity.
    + clear IH. fuel.
  - change (join ("," +:+ LF) (map (item_text indent) (x :: y :: items)))
      with (item_text indent x +:+ ("," +:+ LF) +:+
            join ("," +:+ LF) (map (item_text indent) (y :: items))) in Hf |- *.
    unfold item_text at 1 in Hf. unfold item_text at 1.
    rewrite !append_assoc in Hf |- *.
    set (more := (LF +:+ join ("," +:+ LF) (map (item_text indent) (y :: items)) +:+
                  LF +:+ spaces indent +:+ "]" +:+ rest)%string) in *.
    rewrite (parse_value_ws f _ (print (indent + 2) x +:+ ("," +:+ more)))
      by (rewrite skip_ws_LF, skip_ws_spaces; reflexivity).
    rewrite Hx; [| apply number_ends_comma |].
    + cbn zeta. change (skip_ws ("," +:+ more)) with ("," +:+ more)%string.
      change (begins "," ("," +:+ more)) with true. cbn match.
      change (behead ("," +:+ more)) with more.
      unfold more. rewrite IH; [|discriminate|exact Hitems|].
      * rewrite <- app_assoc. reflexivity.
      * unfold more in Hf. clear IH. fuel.
    + clear IH. fuel.
Qed.

(** The members of an object, from the line feed before the first one. *)
Lemma parse_members_fields (indent : nat) (fields : list (string * json)) :
  fields ≠ [] → Forall (fun kv => parses (snd kv)) fields →
  ∀ (acc : list (string * json)) (rest : string) (f : nat),
    (2 * String.length
           (LF +:+ join ("," +:+ LF) (map (member_text indent) fields) +:+
            LF +:+ spaces indent +:+ "}" +:+ rest) + 3 ≤ f)%nat →
    parse_members f
      (LF +:+ join ("," +:+ LF) (map (member_text indent) fields) +:+
       LF +:+ spaces indent +:+ "}" +:+ rest) acc
    = Some (JObj (acc ++ fields), rest).
Proof.
  induction fields as [|[k v] fields IH]; [congruence|].
  intros _ Hall acc rest f Hf.
  inversion_clear Hall as [|? ? Hv Hfields]. cbn [snd] in Hv.
  destruct f as [|f]; [lia|]. rewrite parse_members_S.
  destruct fields as [|kv fields].
  - cbn [map join] in Hf |- *. unfold member_text in Hf |- *. cbn [fst snd] in Hf |- *.
    rewrite !append_assoc in Hf |- *.
    set (rest' := (LF +:+ spaces indent +:+ "}" +:+ rest)%string) in *.
    cbn zeta. rewrite skip_ws_LF, skip_ws_spaces.
    change (skip_ws (quote k +:+ ?s)) with (quote k +:+ s).
    change (begins dquote (quote k +:+ ?s)) with true. cbn match.
    rewrite parse_string_quote.
    change (skip_ws (": " +:+ ?s)) with (": " +:+ s)%string.
    change (begins ":" (": " +:+ ?s)) with true. cbn match.
    change (behead (": " +:+ ?s)) with (" " +:+ s)%string.
    rewrite (parse_value_ws f _ (print (indent + 2) v +:+ rest')) by reflexivity.
    rewrite Hv; [| apply number_ends_LF |].
    + unfold rest'. rewrite skip_ws_LF, skip_ws_spaces. reflexivity.
    + clear IH. change (String.length ": ") with 2%nat in Hf. fuel.
  - change (join ("," +:+ LF) (map (member_text indent) ((k, v) :: kv :: fields)))
      with (member_text indent (k, v) +:+ ("," +:+ LF) +:+
            join ("," +:+ LF) (map (member_text indent) (kv :: fields))) in Hf |- *.
    unfold member_text at 1 in Hf. unfold member_text at 1. cbn [fst snd] in Hf |- *.
    rewrite !append_assoc in Hf |- *.
    set (more := (LF +:+ join ("," +:+ LF) (map (member_text indent) (kv :: fields)) +:+
                  LF +:+ spaces indent +:+ "}" +:+ rest)%string) in *.
    cbn zeta. rewrite skip_ws_LF, skip_ws_spaces.
    change (skip_ws (quote k +:+ ?s)) with (quote k +:+ s).
    change (begins dquote (quote k +:+ ?s)) with true. cbn match.
    rewrite parse_string_quote.
    change (skip_ws (": " +:+ ?s)) with (": " +:+ s)%string.
    change (begins ":" (": " +:+ ?s)) with true. cbn match.
    change (behead (": " +:+ ?s)) with (" " +:+ s)%string.
    rewrite (parse_value_ws f _ (print (indent + 2) v +:+ ("," +:+ more))) by reflexivity.
    rewrite Hv; [| apply number_ends_comma |].
    + change (skip_ws ("," +:+ more)) with ("," +:+ more)%string.
      change (begins "," ("," +:+ more)) with true. cbn match.
      change (behead ("," +:+ more)) with more.
      unfold more. rewrite IH; [|discriminate|exact Hfields|].
      * rewrite <- app_assoc. reflexivity.
      * unfold more in Hf. clear IH. change (String.length ": ") with 2%nat in Hf. fuel.
    + clear IH. change (String.length ": ") with 2%nat in Hf. fuel.
Qed.

Lemma json_nested_ind (P : json → Prop) :
  P JNull → (∀ b, P (JBool b)) → (∀ n, P (JNum n)) → (∀ s, P (JStr s)) →
  (∀ items, Forall P items → P (JArr items)) →
  (∀ fields, Forall (fun kv => P (snd kv)) fields → P (JObj fields)) →
  ∀ v, P v.
Proof.
  intros Hnull Hbool Hnum Hstr Harr Hobj.
  fix IH 1. intros [|b|n|s|items|fields]; [auto..| |].
  - apply Harr. induction items as [|x items IHitems]; constructor; [apply IH|exact IHitems].
  - apply Hobj. induction fields as [|[k v] fields IHfields]; constructor;
      [apply IH|exact IHfields].
Qed.

Lemma items_head (indent : nat) (x : json) (items : list json) (tail : string) :
  ∃ tail',
    join ("," +:+ LF) (map (item_text indent) (x :: items)) +:+ tail
    = spaces (indent + 2) +:+ print (indent + 2) x +:+ tail'.
Proof.
  destruct items as [|y items].
  - exists tail. cbn [map join]. unfold item_text. rewrite append_assoc. reflexivity.
  - eexists.
    change (join ("," +:+ LF) (map (item_text indent) (x :: y :: items)))
      with (item_text indent x +:+ ("," +:+ LF) +:+
            join ("," +:+ LF) (map (item_text indent) (y :: items))).
    unfold item_text at 1. rewrite !append_assoc. reflexivity.
Qed.

Lemma fields_head (indent : nat) (k : string) (v : json) (fields : list (string * json))
    (tail : string) :
  ∃ tail',
    join ("," +:+ LF) (map (member_text indent) ((k, v) :: fields)) +:+ tail
    = spaces (indent + 2) +:+ quote k +:+ tail'.
Proof.
  destruct fields as [|kv fields].
  - eexists. cbn [map join]. unfold member_text. cbn [fst snd].
    rewrite !append_assoc. reflexivity.
  - eexists.
    change (join ("," +:+ LF) (map (member_text indent) ((k, v) :: kv :: fields)))
      with (member_text indent (k, v) +:+ ("," +:+ LF) +:+
            join ("," +:+ LF) (map (member_text indent) (kv :: fields))).
    unfold member_text at 1. cbn [fst snd]. rewrite !append_assoc. reflexivity.
Qed.

(** Parsing undoes printing, whatever follows the value. *)
Lemma print_parses (v : json) : parses v.
Proof.
  induction v as [|b|n|s|items IH|fields IH] using json_nested_ind;
    intros indent rest f Hends Hf; (destruct f as [|f]; [lia|]); rewrite parse_value_S.
  - reflexivity.
  - destruct b; reflexivity.
  - cbn [print]. destruct (number_dispatch n rest) as (-> & -> & -> & -> & _ & -> & -> & ->).
    cbn zeta. cbn match. apply parse_number_print, Hends.
  - cbn [print].
    change (skip_ws (quote s +:+ rest)) with (quote s +:+ rest).
    change (begins "{" (quote s +:+ rest)) with false.
    change (begins "[" (quote s +:+ rest)) with false.
    change (begins dquote (quote s +:+ rest)) with true.
    cbn zeta. cbn match. rewrite parse_string_quote. reflexivity.
  - destruct items as [|x items]; [reflexivity|].
    rewrite print_array in Hf |- *. rewrite !append_assoc in Hf |- *.
    cbn zeta.
    change (skip_ws ("[" +:+ ?s)) with ("[" +:+ s)%string.
    change (begins "{" ("[" +:+ ?s)) with false.
    change (begins "[" ("[" +:+ ?s)) with true.
    change (behead ("[" +:+ ?s)) with s.
    cbn match.
    destruct (items_head indent x items (LF +:+ spaces indent +:+ "]" +:+ rest))
      as (tail' & Hhead).
    rewrite skip_ws_LF. rewrite Hhead at 1. rewrite skip_ws_spaces.
    destruct (print_head (indent + 2) x tail') as [-> ->].
    apply (parse_elements_items indent (x :: items)); [discriminate|exact IH|].
    clear IH Hhead. change (String.length "[") with 1%nat in Hf. fuel.
  - destruct fields as [|[k v] fields]; [reflexivity|].
    rewrite print_object in Hf |- *. rewrite !append_assoc in Hf |- *.
    cbn zeta.
    change (skip_ws ("{" +:+ ?s)) with ("{" +:+ s)%string.
    change (begins "{" ("{" +:+ ?s)) with true.
    change (behead ("{" +:+ ?s)) with s.
    cbn match.
    destruct (fields_head indent k v fields (LF +:+ spaces indent +:+ "}" +:+ rest))
      as (tail' & Hhead).
    rewrite skip_ws_LF. rewrite Hhead at 1. rewrite skip_ws_spaces.
    change (begins "}" (skip_ws (quote k +:+ tail'))) with false. cbn match.
    apply (parse_members_fields indent ((k, v) :: fields)); [discriminate|exact IH|].
    clear IH Hhead. change (String.length "{") with 1%nat in Hf. fuel.
Qed.

(** [parse_text] reads back what [print] wrote. *)
Lemma parse_text_print (v : json) : parse_text (print 0%nat v) = Some v.
Proof.
  unfold parse_text.
  pose proof (print_parses v 0%nat ""%string
                (2 * String.length (print 0%nat v) + 2)%nat number_ends_nil) as Hp.
  rewrite append_nil_r in Hp. rewrite Hp by lia. reflexivity.
Qed.

(** The codec reads back every value it writes. *)
Lemma json_text_roundtrip (v : json) : JSON_parse (JSON_stringify v) = Some v.
Proof. apply parse_text_print. Qed.

#[export] Instance json_text_laws : JsonLaws := json_text_roundtrip.

(* ================================================================== *)
(** * The credential store *)

(* ------------------------------------------------------------------ *)
(** *** Own members *)

Lemma own_app_last (k : string) (x : json) (fields : list (string * json)) :
  own k (fields ++ [(k, x)]) = Some x.
Proof.
  induction fields as [|[k' v] fields IH]; cbn [app own].
  - rewrite String.eqb_refl. reflexivity.
  - rewrite IH. reflexivity.
Qed.

Lemma own_app_other (k k' : string) (x : json) (fields : list (string * json)) :
  k ≠ k' → own k' (fields ++ [(k, x)]) = own k' fields.
Proof.
  intros Hne. induction fields as [|[k0 v] fields IH]; cbn [app own].
  - destruct (String.eqb_spec k k'); [contradiction|reflexivity].
  - rewrite IH. reflexivity.
Qed.

Lemma own_replace (k : string) (x : json) (fields : list (string * json)) :
  own k (replace_member k x fields) =
  match own k fields with
  | Some _ => Some x
  | None => None
  end.
Proof.
  induction fields as [|[k' v'] fields IH]; [reflexivity|].
  cbn [own replace_member map fst]. fold (replace_member k x fields).
  destruct (String.eqb_spec k' k) as [->|Hne]; cbn [own]; rewrite IH.
  - rewrite String.eqb_refl. destruct (own k fields); reflexivity.
  - destruct (String.eqb_spec k' k); [contradiction|].
    destruct (own k fields); reflexivity.
Qed.

Lemma own_replace_eq (k : string) (x v : json) (fields : list (string * json)) :
  own k fields = Some v → own k (replace_member k x fields) = Some x.
Proof. intros Hown. rewrite own_replace, Hown. reflexivity. Qed.

Lemma own_replace_ne (k k' : string) (x : json) (fields : list (string * json)) :
  k ≠ k' → own k' (replace_member k x fields) = own k' fields.
Proof.
  intros Hne. induction fields as [|[k0 v] fields IH]; [reflexivity|].
  cbn [own replace_member map fst]. fold (replace_member k x fields).
  destruct (String.eqb_spec k0 k) as [->|Hne0]; cbn [own]; rewrite IH; [|reflexivity].
  destruct (own k' fields); [reflexivity|].
  destruct (String.eqb_spec k k'); [contradiction|reflexivity].
Qed.

(** An assignment to an object succeeds, the member written is found
    again unless its name is [__proto__], and the other members are as
    they were. *)
Lemma assign_object `{Engine} (fields : list (string * json)) (k : string) (x : json) :
  ∃ fields',
    assign (JObj fields) k x = inr (JObj fields') ∧
    (k ≠ "__proto__"%string → own k fields' = Some x) ∧
    (∀ k', k ≠ k' → own k' fields' = own k' fields).
Proof.
  cbn [assign]. destruct (own k fields) as [v|] eqn:Hown.
  - eexists. split; [reflexivity|]. split.
    + intros _. apply (own_replace_eq k x v), Hown.
    + intros k' Hne. apply own_replace_ne, Hne.
  - destruct (String.eqb_spec k "__proto__") as [->|Hne].
    + eexists. split; [reflexivity|]. split; [contradiction|reflexivity].
    + eexists. split; [reflexivity|]. split.
      * intros _. apply own_app_last.
      * intros k' Hne'. apply own_app_other, Hne'.
Qed.

(** The members of a token record. *)
Lemma field_expiry_date (t : Tokens) :
  field t "expiry_date" = JNum <$> expiry_date t.
Proof. destruct t as [[a|] [r|] [s|] [y|] [i|] [e|] [m|] [c|]]; reflexivity. Qed.

Lemma field_email (t : Tokens) : field t "email" = JStr <$> email t.
Proof. destruct t as [[a|] [r|] [s|] [y|] [i|] [e|] [m|] [c|]]; reflexivity. Qed.

Lemma truthy_stored (t : Tokens) : truthy t = true.
Proof. reflexivity. Qed.

(* ------------------------------------------------------------------ *)
(** *** The two operations, case by case *)

Lemma run_loadTokens `{Json} `{Engine} (userId : string) (w : World) :
  loadTokens userId w = (Return (found userId w), w).
Proof.
  unfold loadTokens, try_catch, bind, readFile, parse, found.
  destruct (tokensFile w) as [|why|data]; try reflexivity.
  destruct (JSON_parse data) as [tokenData|]; [|reflexivity]. cbn.
  destruct (read tokenData userId) as [e|v]; reflexivity.
Qed.

Lemma run_inner_try `{Json} (w : World) :
  try_catch (let* data := readFile in parse data) (fun _ => ret (JObj [])) w
  = (Return (existing w), w).
Proof.
  unfold try_catch, bind, readFile, parse, existing.
  destruct (tokensFile w) as [|why|data]; try reflexivity.
  destruct (JSON_parse data); reflexivity.
Qed.

(** What [saveTokens] does, case by case. *)
Lemma run_saveTokens `{Json} `{Engine} (userId : string) (tokens : Tokens) (w : World) :
  saveTokens userId tokens w =
  match merged userId tokens w with
  | inl e => (Throw (mkError ("Failed to save tokens: " +:+ message e)), w)
  | inr tokenData =>
      match writeFault w with
      | Some why => (Throw (mkError ("Failed to save tokens: " +:+ why)), w)
      | None =>
          (Return true,
           match tokensFile w with
           | Unreadable _ => w
           | _ => set_tokensFile (Content (JSON_stringify tokenData)) w
           end)
      end
  end.
Proof.
  unfold saveTokens.
  unfold try_catch at 1. unfold bind at 1. rewrite run_inner_try.
  unfold bind, Date_now, writeFile, merged, lift.
  destruct (assign _ _ _) as [e|tokenData]; [reflexivity|]. unfold ret, throw.
  destruct (writeFault w); [reflexivity|].
  destruct (tokensFile w); reflexivity.
Qed.

(** Over an object the assignment goes through. *)
Lemma merged_object `{Json} `{Engine} (userId : string) (tokens : Tokens) (w : World) :
  object_store w →
  ∃ fields fields',
    existing w = JObj fields ∧
    merged userId tokens w = inr (JObj fields') ∧
    (userId ≠ "__proto__"%string →
     own userId fields' =
     Some (object_of (with_createdAt tokens (toISOString (clock w))))) ∧
    (∀ k, userId ≠ k → own k fields' = own k fields).
Proof.
  intros [fields Hex]. unfold merged. rewrite Hex.
  destruct (assign_object fields userId
              (object_of (with_createdAt tokens (toISOString (clock w)))))
    as (fields' & Hassign & Hsame & Hother).
  exists fields, fields'. auto.
Qed.

Lemma found_after_write `{Json} `{Engine} (k : string) (v : json) (w : World) :
  JSON_parse (JSON_stringify v) = Some v →
  ∀ w2, tokensFile w2 = Content (JSON_stringify v) →
        found k w2 = match read v k with
                     | inr x => if truthy x then x else null
                     | inl _ => null
                     end.
Proof. intros Hrt w2 Hf. unfold found. rewrite Hf, Hrt. reflexivity. Qed.

Lemma existing_depends_on_file `{Json} (w1 w2 : World) :
  tokensFile w1 = tokensFile w2 → existing w1 = existing w2.
Proof. intros Heq. unfold existing. rewrite Heq. reflexivity. Qed.

Lemma found_depends_on_file `{Json} `{Engine} (k : string) (w1 w2 : World) :
  tokensFile w1 = tokensFile w2 → found k w1 = found k w2.
Proof. intros Heq. unfold found. rewrite Heq. reflexivity. Qed.

(* ------------------------------------------------------------------ *)
(** *** Time stamps *)

Lemma digit_cases (n : Z) :
  digit n = "0"%char ∨ digit n = "1"%char ∨ digit n = "2"%char ∨
  digit n = "3"%char ∨ digit n = "4"%char ∨ digit n = "5"%char ∨
  digit n = "6"%char ∨ digit n = "7"%char ∨ digit n = "8"%char ∨
  digit n = "9"%char.
Proof.
  unfold digit.
  assert (Hm : 0 <= n mod 10 < 10) by (apply Z.mod_pos_bound; lia).
  assert (Hc : n mod 10 = 0 ∨ n mod 10 = 1 ∨ n mod 10 = 2 ∨ n mod 10 = 3 ∨
               n mod 10 = 4 ∨ n mod 10 = 5 ∨ n mod 10 = 6 ∨ n mod 10 = 7 ∨
               n mod 10 = 8 ∨ n mod 10 = 9) by lia.
  repeat (destruct Hc as [Hc|Hc]; [rewrite Hc; tauto|]).
  rewrite Hc; tauto.
Qed.

Lemma is_digit_digit (n : Z) : is_digit (digit n) = true.
Proof.
  destruct (digit_cases n) as [H|H]; repeat (destruct H as [H|H]);
    rewrite H; reflexivity.
Qed.

Lemma digit_not_sign (n : Z) :
  Ascii.eqb (digit n) "+" || Ascii.eqb (digit n) "-" = false.
Proof.
  destruct (digit_cases n) as [H|H]; repeat (destruct H as [H|H]);
    rewrite H; reflexivity.
Qed.

(** The time stamp of [saveTokens] has the ISO-8601 shape at every time. *)
Lemma toISOString_iso8601 (t : Z) : iso8601 (toISOString t) = true.
Proof.
  unfold toISOString, year_string.
  match goal with |- context [if ?b then pad 4 ?y else _] => destruct b end;
    [|match goal with |- context [if ?b then "-"%string else _] => destruct b end];
    cbv beta iota zeta delta [pad String.append]; unfold iso8601;
    repeat first [rewrite digit_not_sign | rewrite is_digit_digit
                 | progress cbn [digits sep mbind option_bind Ascii.eqb orb Bool.eqb]];
    reflexivity.
Qed.

(* ------------------------------------------------------------------ *)
(** *** [isTokenExpired] *)

(** C1, counterexample: at the very instant of expiry the token does not
    count as expired, although the time is greater than or equal to the
    expiry timestamp. *)
Lemma isTokenExpired_false_at_expiry :
  expiry_date (a1 t0) = Some (clock (fresh Missing t0)) ∧
  isTokenExpired (a1 t0) (fresh Missing t0) = (Return false, fresh Missing t0).
Proof. split; reflexivity. Qed.

(** [isTokenExpired] on a token record as one equation: no effect, no
    error. *)
Lemma run_isTokenExpired `{Engine} (tokens : Tokens) (w : World) :
  isTokenExpired tokens w =
  (Return (falsy_number (expiry_date tokens)
           || (clock w >? default 0 (expiry_date tokens))), w).
Proof.
  unfold isTokenExpired. rewrite field_expiry_date.
  destruct (expiry_date tokens) as [e|]; [|reflexivity].
  cbn [fmap option_fmap option_map member_value truthy falsy_number from_option id].
  rewrite negb_involutive. destruct (e =? 0); reflexivity.
Qed.

(** C1, as the code has it: [isTokenExpired] reads nothing but the token
    and the clock, changes nothing, never throws, and answers true exactly
    when the expiry timestamp is absent (or zero) or strictly earlier than
    the current time. *)
Theorem isTokenExpired_spec `{Engine} (tokens : Tokens) (w : World) :
  ∃ b : bool,
    isTokenExpired tokens w = (Return b, w) ∧
    (b = true ↔
       expiry_date tokens = None ∨ expiry_date tokens = Some 0 ∨
       ∃ e, expiry_date tokens = Some e ∧ e < clock w).
Proof.
  rewrite run_isTokenExpired. eexists. split; [reflexivity|].
  unfold falsy_number. destruct (expiry_date tokens) as [e|]; [|split; auto].
  simpl. rewrite orb_true_iff, Z.eqb_eq, Z.gtb_ltb, Z.ltb_lt. split.
  - intros [->|Hlt]; [auto|]. right. right. exists e. auto.
  - intros [Habs|[Hz|(e' & Heq & Hlt)]]; [discriminate| |].
    + injection Hz as ->. auto.
    + injection Heq as ->. auto.
Qed.

Lemma isTokenExpired_past `{Engine} (tokens : Tokens) (e : Z) (w : World) :
  expiry_date tokens = Some e → e < clock w →
  isTokenExpired tokens w = (Return true, w).
Proof.
  intros He Hlt. rewrite run_isTokenExpired, He. simpl.
  replace (clock w >? e) with true by (symmetry; rewrite Z.gtb_ltb; apply Z.ltb_lt, Hlt).
  rewrite orb_true_r. reflexivity.
Qed.

Lemma isTokenExpired_future `{Engine} (tokens : Tokens) (e : Z) (w : World) :
  expiry_date tokens = Some e → clock w < e → 0 <= clock w →
  isTokenExpired tokens w = (Return false, w).
Proof.
  intros He Hlt Hnow. rewrite run_isTokenExpired, He. simpl.
  replace (e =? 0) with false by (symmetry; apply Z.eqb_neq; lia).
  replace (clock w >? e) with false by (symmetry; rewrite Z.gtb_ltb; apply Z.ltb_ge; lia).
  reflexivity.
Qed.

Lemma isTokenExpired_absent `{Engine} (tokens : Tokens) (w : World) :
  expiry_date tokens = None → isTokenExpired tokens w = (Return true, w).
Proof. intros He. rewrite run_isTokenExpired, He. reflexivity. Qed.

(* ------------------------------------------------------------------ *)
(** *** [loadTokens] *)

(** C5, counterexample: over a text that [JSON.parse] rejects,
    [loadTokens] answers not-found; it does not fail. *)
Lemma loadTokens_corrupt_not_found :
  JSON_parse corrupt = None ∧
  loadTokens "u1" (fresh (Content corrupt) t0)
  = (Return null, fresh (Content corrupt) t0).
Proof. split; reflexivity. Qed.

(** The inherited members: an id that no save ever used is found in a
    document that is an object when it names a member of
    [Object.prototype]. *)
Lemma loadTokens_finds_constructor :
  own "constructor" [("u2"%string, object_of (a1 5000))] = None ∧
  loadTokens "constructor" store_u2 = (Return (Native "constructor"), store_u2).
Proof. split; vm_compute; reflexivity. Qed.

(** C5, as the code has it: [loadTokens] never raises an error and leaves
    the process state alone.  It answers not-found when the file is
    missing, when it cannot be read, when its text is rejected by
    [JSON.parse] and when the text is [null].  Over the text of an object
    it answers the member of the id when the object has one of its own,
    not-found when that member is falsy, and, for an id that the object
    does not hold, not-found unless the id is the name of a member of
    [Object.prototype], which is then what it answers. *)
Theorem loadTokens_never_throws `{Json} `{Engine} (userId : string) (w : World) :
  (∃ r, loadTokens userId w = (Return r, w)) ∧
  (tokensFile w = Missing → loadTokens userId w = (Return null, w)) ∧
  (∀ why, tokensFile w = Unreadable why → loadTokens userId w = (Return null, w)) ∧
  (∀ data, tokensFile w = Content data → JSON_parse data = None →
           loadTokens userId w = (Return null, w)) ∧
  (∀ data, tokensFile w = Content data → JSON_parse data = Some JNull →
           loadTokens userId w = (Return null, w)) ∧
  (∀ data fields,
     tokensFile w = Content data → JSON_parse data = Some (JObj fields) →
     loadTokens userId w =
     (Return match own userId fields with
             | Some v => if truthy (Data v) then Data v else null
             | None => if inherited userId then Native userId else null
             end, w)) ∧
  (∀ data fields,
     tokensFile w = Content data → JSON_parse data = Some (JObj fields) →
     own userId fields = None → inherited userId = false →
     loadTokens userId w = (Return null, w)).
Proof.
  rewrite run_loadTokens. unfold found.
  split; [eauto|].
  split; [intros ->; reflexivity|].
  split; [intros why ->; reflexivity|].
  split; [intros data -> ->; reflexivity|].
  split; [intros data -> ->; reflexivity|].
  split.
  - intros data fields -> ->. cbn [read].
    destruct (own userId fields) as [v|]; [reflexivity|].
    destruct (inherited userId); reflexivity.
  - intros data fields -> -> Hown Hin. cbn [read]. rewrite Hown, Hin. reflexivity.
Qed.

(* ------------------------------------------------------------------ *)
(** *** [saveTokens] *)

(** C2, the code at the failing input: the file holds a text that
    [JSON.parse] rejects; [saveTokens] reports success and the file then
    holds a document with the new record only. *)
Theorem saveTokens_replaces_corrupt_store :
  JSON_parse corrupt = None ∧
  saveTokens "u1" (a1 5000) (fresh (Content corrupt) t0)
  = (Return true,
     fresh (Content (JSON_stringify
                       (JObj [("u1"%string,
                               object_of (with_createdAt (a1 5000)
                                            "2023-11-14T22:13:20.000Z"))]))) t0).
Proof. split; [reflexivity|]. rewrite run_saveTokens. reflexivity. Qed.

(** The same for every reader fault: whatever keeps the existing document
    from being read, the inner [catch] starts from an empty one. *)
Lemma saveTokens_ignores_read_faults `{Json} `{Engine} (userId : string) (tokens : Tokens)
    (w : World) (data : string) :
  writeFault w = None → tokensFile w = Content data → JSON_parse data = None →
  userId ≠ "__proto__"%string →
  saveTokens userId tokens w =
  (Return true,
   set_tokensFile
     (Content (JSON_stringify
                 (JObj [(userId,
                         object_of (with_createdAt tokens (toISOString (clock w))))]))) w).
Proof.
  intros Hw Hf Hp Hne. rewrite run_saveTokens, Hw, Hf.
  unfold merged, existing. rewrite Hf, Hp. cbn.
  destruct (String.eqb_spec userId "__proto__"); [contradiction|reflexivity].
Qed.

(** [saveTokens] fails when the assignment or the write does. *)
Lemma saveTokens_throws_iff `{Json} `{Engine} (userId : string) (tokens : Tokens)
    (w : World) :
  (∃ e, fst (saveTokens userId tokens w) = Throw e) ↔
  (∃ e, merged userId tokens w = inl e) ∨ is_Some (writeFault w).
Proof.
  rewrite run_saveTokens. destruct (merged userId tokens w) as [e|tokenData]; simpl.
  - split; eauto.
  - destruct (writeFault w) as [why|]; simpl.
    + split; eauto.
    + split; [intros [e He]; discriminate|].
      intros [[e He]|[x Hx]]; discriminate.
Qed.

(** C4, counterexample: a file that holds the text of an array.  The save
    reports success and writes the array back; the load then finds
    nothing. *)
Lemma save_then_load_over_array :
  readable (fresh (Content "[]") t0) ∧
  JSON_parse "[]" = Some (JArr []) ∧
  saveTokens "u1" (a1 (t0 + 3600000)) (fresh (Content "[]") t0)
  = (Return true, fresh (Content "[]") t0) ∧
  loadTokens "u1" (fresh (Content "[]") t0) = (Return null, fresh (Content "[]") t0).
Proof.
  split; [intros why; discriminate|].
  split; [reflexivity|]. split; vm_compute; reflexivity.
Qed.

(** The other documents that are no object, and the id [__proto__]: over
    [null] the save fails before it writes; under [__proto__] it writes
    the object back without the record. *)
Lemma save_then_load_other_failures :
  saveTokens "u1" (a1 5000) (fresh (Content "null") t0)
  = (Throw (mkError "Failed to save tokens: Cannot set properties of null (setting 'u1')"),
     fresh (Content "null") t0) ∧
  saveTokens "__proto__" (a1 5000) (fresh Missing t0)
  = (Return true, fresh (Content "{}") t0) ∧
  loadTokens "__proto__" (fresh (Content "{}") t0)
  = (Return (Native "__proto__"), fresh (Content "{}") t0).
Proof. repeat split; vm_compute; reflexivity. Qed.

(** [saveTokens] then [loadTokens] for the same id, for a document that
    survives [JSON.stringify] and [JSON.parse]. *)
Lemma save_then_load_document `{Json} `{Engine} (userId : string) (tokens : Tokens)
    (w : World) :
  writeFault w = None → readable w → object_store w → userId ≠ "__proto__"%string →
  (∀ v, merged userId tokens w = inr v → JSON_parse (JSON_stringify v) = Some v) →
  ∃ w' : World,
    saveTokens userId tokens w = (Return true, w') ∧
    ∀ w2, tokensFile w2 = tokensFile w' →
          loadTokens userId w2 =
          (Return (stored (with_createdAt tokens (toISOString (clock w)))), w2).
Proof.
  intros Hw Hr Hobj Hne Hrt.
  destruct (merged_object userId tokens w Hobj) as (fields & fields' & _ & Hm & Hown & _).
  exists (set_tokensFile (Content (JSON_stringify (JObj fields'))) w).
  split.
  - rewrite run_saveTokens, Hm, Hw. destruct (tokensFile w) as [|why|data] eqn:Hf;
      [reflexivity| |reflexivity]. destruct (Hr why Hf).
  - intros w2 Hf. rewrite run_loadTokens.
    rewrite (found_after_write userId _ w (Hrt _ Hm) w2 Hf).
    cbn [read]. rewrite (Hown Hne). reflexivity.
Qed.

(** C4, as the code has it: [saveTokens] then [loadTokens] for the same
    id, when the write succeeds, the file is readable or absent and what
    it holds is no other value than an object, for every id but
    [__proto__].  [loadTokens] returns the saved token with [createdAt] set
    to the ISO-8601 time stamp of the save, and [isTokenExpired] cannot
    tell the record from the token. *)
Theorem save_then_load `{JsonLaws} `{Engine} (userId : string) (tokens : Tokens)
    (w : World) :
  writeFault w = None → readable w → object_store w → userId ≠ "__proto__"%string →
  ∃ (w' : World) (record : Tokens),
    saveTokens userId tokens w = (Return true, w') ∧
    (∀ w2, tokensFile w2 = tokensFile w' →
           loadTokens userId w2 = (Return (stored record), w2)) ∧
    record = with_createdAt tokens (toISOString (clock w)) ∧
    access_token record = access_token tokens ∧
    refresh_token record = refresh_token tokens ∧
    scope record = scope tokens ∧
    token_type record = token_type tokens ∧
    id_token record = id_token tokens ∧
    expiry_date record = expiry_date tokens ∧
    email record = email tokens ∧
    createdAt record = Some (toISOString (clock w)) ∧
    iso8601 (toISOString (clock w)) = true ∧
    (∀ w2, isTokenExpired record w2 = isTokenExpired tokens w2).
Proof.
  intros Hw Hr Hobj Hne.
  destruct (save_then_load_document userId tokens w Hw Hr Hobj Hne
              (fun v _ => parse_stringify v))
    as (w' & Hsave & Hload).
  exists w', (with_createdAt tokens (toISOString (clock w))).
  split; [exact Hsave|]. split; [exact Hload|].
  repeat (split; [reflexivity|]).
  split; [apply toISOString_iso8601|].
  intros w2. rewrite !run_isTokenExpired. reflexivity.
Qed.

(** C4, witness: the scenario of the specification, [save("u1", {accessToken:
    "a1", expiresAt: now + 3600000})] over a missing file. *)
Lemma save_then_load_witness :
  ∃ (w' : World) (record : Tokens),
    saveTokens "u1" (a1 (t0 + 3600000)) (fresh Missing t0) = (Return true, w') ∧
    loadTokens "u1" w' = (Return (stored record), w') ∧
    record = with_createdAt (a1 (t0 + 3600000)) "2023-11-14T22:13:20.000Z" ∧
    isTokenExpired record w' = (Return false, w').
Proof.
  destruct (save_then_load "u1" (a1 (t0 + 3600000)) (fresh Missing t0))
    as (w' & record & Hsave & Hload & Hrec & _).
  - reflexivity.
  - intros why. discriminate.
  - exists []. reflexivity.
  - discriminate.
  - exists w', record. split; [exact Hsave|]. split; [apply Hload; reflexivity|].
    split; [exact Hrec|].
    rewrite run_saveTokens in Hsave. simpl in Hsave. injection Hsave as <-.
    rewrite Hrec. reflexivity.
Defined.





(* ================================================================== *)
(** * The raw payload of a send *)

(* ------------------------------------------------------------------ *)
(** *** base64 *)


Lemma b64_char_not_pad (b5 b4 b3 b2 b1 b0 : bool) :
  Ascii.eqb "=" (b64_char (six b5 b4 b3 b2 b1 b0)) = false.
Proof. destruct b5, b4, b3, b2, b1, b0; reflexivity. Qed.

(** Induction on strings three characters at a time. *)
Lemma string_ind3 (P : string → Prop) :
  P EmptyString →
  (∀ a, P (String a EmptyString)) →
  (∀ a b, P (String a (String b EmptyString))) →
  (∀ a b c r, P r → P (String a (String b (String c r)))) →
  ∀ s, P s.
Proof.
  intros H0 H1 H2 H3 s.
  assert (Hall : P s ∧ (∀ a, P (String a s)) ∧ ∀ a b, P (String a (String b s))).
  { induction s as [|c r (IH0 & IH1 & IH2)]; [auto|].
    split; [apply IH1|]. split; [intros a; apply IH2|].
    intros a b. apply H3, IH0. }
  apply Hall.
Qed.


Lemma dropEnd_keep (p : ascii → bool) (c : ascii) (r : string) :
  p c = false → dropEnd p (String c r) = String c (dropEnd p r).
Proof. intros Hc. cbn [dropEnd]. rewrite Hc. destruct (dropEnd p r); reflexivity. Qed.




(* ------------------------------------------------------------------ *)
(** *** The URL-safe alphabet *)





Lemma occurs_dropEnd (c : ascii) (p : ascii → bool) (s : string) :
  occurs c s = false → occurs c (dropEnd p s) = false.
Proof.
  induction s as [|a r IH]; [reflexivity|].
  cbn [occurs dropEnd]. intros [Ha Hr]%orb_false_elim.
  specialize (IH Hr). destruct (dropEnd p r) as [|a' r'].
  - destruct (p a); [reflexivity|]. cbn [occurs]. rewrite Ha. reflexivity.
  - cbn [occurs] in IH |- *. rewrite Ha, IH. reflexivity.
Qed.

(** Stripping the padding and replacing a character other than [=] by
    another one commute. *)
Lemma strip_padding_replace_all (a b : ascii) (s : string) :
  Ascii.eqb "=" a = false → Ascii.eqb "=" b = false →
  strip_padding (replace_all a b s) = replace_all a b (strip_padding s).
Proof.
  intros Ha Hb. unfold strip_padding.
  induction s as [|c r IH]; [reflexivity|].
  cbn [replace_all dropEnd]. rewrite IH.
  destruct (dropEnd (Ascii.eqb "=") r) as [|c' r']; cbn [replace_all].
  - destruct (Ascii.eqb_spec c a) as [->|Hca].
    + rewrite Ha, Hb. cbn [replace_all]. rewrite Ascii.eqb_refl. reflexivity.
    + destruct (Ascii.eqb "=" c); [reflexivity|]. cbn [replace_all].
      destruct (Ascii.eqb_spec c a); [contradiction|reflexivity].
  - reflexivity.
Qed.

Lemma strip_padding_url_safe (s : string) :
  strip_padding (url_safe s) = url_safe (strip_padding s).
Proof.
  unfold url_safe. rewrite !strip_padding_replace_all by reflexivity. reflexivity.
Qed.

(* ------------------------------------------------------------------ *)
(** *** UTF-8 *)



Section AllCodeUnitsProofs.
Local Open Scope N_scope.










(** A surrogate without its other half does not come back. *)
Lemma lone_surrogate_is_replaced :
  utf8_decode_units (utf8_units [55296]) = Some [65533].
Proof. reflexivity. Qed.


Lemma not_surrogate_char (c : ascii) :
  is_high (N_of_ascii c) = false ∧ is_low (N_of_ascii c) = false.
Proof. destruct c as [[] [] [] [] [] [] [] []]; split; reflexivity. Qed.


Lemma paired_code_units (s : string) : paired (code_units s) = true.
Proof.
  induction s as [|c r IH]; [reflexivity|].
  cbn [code_units list_ascii_of_string map paired].
  destruct (not_surrogate_char c) as [-> ->]. fold (code_units r). rewrite IH.
  cbn [negb andb]. rewrite andb_true_r. apply N.ltb_lt.
  pose proof (N_ascii_bounded c). lia.
Qed.

End AllCodeUnitsProofs.




(* ------------------------------------------------------------------ *)
(** *** [sendEmail] and [sendEmailAsDelegate] *)

(** [sendEmail] issues one call, whatever the remote side answers. *)
Lemma run_sendEmail `{Provider} (tok to subject text : string) (w : World) :
  Dashboard.sendEmail tok to subject text w =
  let c := mkCall (Some tok)
             (MessagesSend "me"
                (url_safe (base64 (utf8 (Dashboard.email_text to subject text))))) in
  (match messages_send (calls w) c with
   | inl e => Throw (mkError ("Failed to send email: " +:+ message e))
   | inr id => Return id
   end, add_call c w).
Proof.
  unfold Dashboard.sendEmail, try_catch, remote, throw.
  destruct (messages_send _ _); reflexivity.
Qed.

Lemma set_gmail_same (w : World) : gmail w = true → set_gmail true w = w.
Proof. destruct w. cbn. intros ->. reflexivity. Qed.

(** A call through the shared client, case by case. *)
Lemma run_through_gmail {A} `{Client} (answer : list call → call → Error + A)
    (r : request) (w : World) :
  Delegated.through_gmail answer r w =
  match fst (authorize w r) with
  | inl e => (Throw e, with_credentials (snd (authorize w r)) w)
  | inr bearer =>
      (match answer (calls w) (mkCall bearer r) with
       | inl e => Throw e
       | inr a => Return a
       end,
       add_call (mkCall bearer r) (with_credentials (snd (authorize w r)) w))
  end.
Proof.
  unfold Delegated.through_gmail, remote.
  destruct (authorize w r) as [[e|bearer] creds]; cbn [fst snd]; [reflexivity|].
  cbn [calls with_credentials]. destruct (answer _ _); reflexivity.
Qed.

(** What [sendEmailAsDelegate] does, case by case: without a client that
    it has or can get, it throws; with one, the request leaves when the
    OAuth2 client lets it go. *)
Lemma run_sendEmailAsDelegate `{Provider} `{Client} (to subject body from : string)
    (w : World) :
  Delegated.sendEmailAsDelegate to subject body from w =
  if gmail w || isInitialized w then
    let r := MessagesSend (default from (angle_address from))
               (strip_padding
                  (url_safe (base64 (utf8 (Delegated.delegate_text to subject body from))))) in
    let w1 := with_credentials (snd (authorize (set_gmail true w) r)) (set_gmail true w) in
    match fst (authorize (set_gmail true w) r) with
    | inl e => (Throw (mkError ("Failed to send email as delegate: " +:+ message e)), w1)
    | inr bearer =>
        (match messages_send (calls w) (mkCall bearer r) with
         | inl e => Throw (mkError ("Failed to send email as delegate: " +:+ message e))
         | inr id => Return id
         end, add_call (mkCall bearer r) w1)
    end
  else (Throw (mkError "OAuth2 client not initialized. Call initializeOAuth2() first."), w).
Proof.
  unfold Delegated.sendEmailAsDelegate, Delegated.ensureGmailClient,
    Delegated.getGmailClient, Delegated.ensureInitialized.
  unfold bind at 1. destruct (gmail w) eqn:Hg; cbn [orb].
  - unfold try_catch. rewrite run_through_gmail, (set_gmail_same w Hg). cbv zeta.
    destruct (fst (authorize w _)) as [e|bearer]; [reflexivity|].
    destruct (messages_send _ _); reflexivity.
  - unfold bind at 1. destruct (isInitialized w) eqn:Hi; [|reflexivity].
    unfold try_catch. rewrite run_through_gmail. cbv zeta.
    destruct (fst (authorize (set_gmail true w) _)) as [e|bearer]; [reflexivity|].
    cbn [calls set_gmail]. destruct (messages_send _ _); reflexivity.
Qed.

Lemma calls_sendEmailAsDelegate `{Provider} `{Client} (to subject body from : string)
    (w : World) :
  calls (snd (Delegated.sendEmailAsDelegate to subject body from w)) =
  if gmail w || isInitialized w then
    match fst (authorize (set_gmail true w)
                 (MessagesSend (default from (angle_address from))
                    (strip_padding
                       (url_safe
                          (base64 (utf8 (Delegated.delegate_text to subject body from)))))))
    with
    | inr bearer =>
        calls w ++
        [mkCall bearer
           (MessagesSend (default from (angle_address from))
              (strip_padding
                 (url_safe (base64 (utf8 (Delegated.delegate_text to subject body from))))))]
    | inl _ => calls w
    end
  else calls w.
Proof.
  rewrite run_sendEmailAsDelegate. destruct (gmail w || isInitialized w); [|reflexivity].
  cbv zeta. destruct (fst (authorize _ _)); reflexivity.
Qed.




(* ================================================================== *)
(** * Listing messages *)

Lemma add_calls_nil (w : World) : add_calls [] w = w.
Proof. destruct w. unfold add_calls. simpl. rewrite app_nil_r. reflexivity. Qed.

Lemma add_calls_cons (c : call) (cs : list call) (w : World) :
  add_calls cs (add_call c w) = add_calls (c :: cs) w.
Proof. unfold add_calls, add_call. simpl. rewrite <- app_assoc. reflexivity. Qed.

(** The loop of the dashboard server never throws: it appends one entry
    per message, in order, and issues one fetch per message. *)
Lemma run_each_message `{Provider} `{Locale} (tok : string) (messages : list MessageRef)
    (acc : list Dashboard.EmailEntry) (w : World) :
  Dashboard.each_message tok messages acc w =
  (Return (acc ++ entries messages
                    (fetches tok Dashboard.metadataHeaders messages (calls w))),
   add_calls (fetch_calls tok Dashboard.metadataHeaders messages) w).
Proof.
  revert acc w. induction messages as [|m rest IH]; intros acc w.
  - cbn. rewrite app_nil_r, add_calls_nil. reflexivity.
  - cbn [Dashboard.each_message fetches fetch_calls map entries].
    unfold bind at 1. unfold try_catch, bind, remote, ret.
    destruct (messages_get (calls w) _) as [e|email]; cbn [entry_for];
      rewrite IH; cbn [calls add_call]; rewrite <- app_assoc, add_calls_cons;
      reflexivity.
Qed.

Lemma length_entries `{Provider} `{Locale} (tok : string) (hs : list string)
    (messages : list MessageRef) (history : list call) :
  length (entries messages (fetches tok hs messages history)) = length messages.
Proof.
  revert history. induction messages as [|m rest IH]; intros history; [reflexivity|].
  cbn. rewrite IH. reflexivity.
Qed.

Lemma ids_entries `{Provider} `{Locale} (tok : string) (hs : list string)
    (messages : list MessageRef) (history : list call) :
  map entry_id (entries messages (fetches tok hs messages history)) = map ref_id messages.
Proof.
  revert history. induction messages as [|m rest IH]; intros history; [reflexivity|].
  cbn [fetches entries map]. rewrite IH. f_equal.
  destruct (messages_get history _); reflexivity.
Qed.

(** The listing of the dashboard server: when the listing step arrives,
    the call succeeds with one entry per listed message, in order; the
    entry of a message is an error entry with its id and the message of
    the error when its fetch failed, and its summary otherwise. *)
Lemma listEmails_partial_failure `{Provider} `{Locale} (tok : string)
    (maxResults : number) (labelIds : list string) (w : World)
    (response : option (list MessageRef)) :
  messages_list (calls w)
    (mkCall (Some tok) (MessagesList "me" maxResults (Some labelIds) None))
  = inr response →
  ∃ emailDetails w',
    Dashboard.listEmails tok maxResults labelIds w = (Return emailDetails, w') ∧
    length emailDetails = length (default [] response) ∧
    map entry_id emailDetails = map ref_id (default [] response) ∧
    emailDetails =
    entries (default [] response)
      (fetches tok Dashboard.metadataHeaders (default [] response)
         (calls w ++
          [mkCall (Some tok) (MessagesList "me" maxResults (Some labelIds) None)])).
Proof.
  intros Hlist. unfold Dashboard.listEmails, try_catch.
  unfold bind at 1. unfold remote at 1. rewrite Hlist.
  rewrite run_each_message. cbn [app calls add_call].
  eexists _, _. split; [reflexivity|].
  split; [apply length_entries|]. split; [apply ids_entries|reflexivity].
Qed.

(** The scenario of the specification on the dashboard server: three
    messages, the second fetch fails. *)
Lemma listEmails_second_fails `{Locale} :
  ∃ first third w',
    Dashboard.listEmails "tok" (Some 3) ["INBOX"%string] (fresh Missing t0)
    = (Return [first; Dashboard.Failed "m2" "Requested entity was not found."; third], w') ∧
    entry_id first = "m1"%string ∧ entry_id third = "m3"%string ∧
    (∃ a b c d e f g h i, first = Dashboard.Summary a b c d e f g h i) ∧
    (∃ a b c d e f g h i, third = Dashboard.Summary a b c d e f g h i).
Proof.
  eexists _, _, _. split; [reflexivity|].
  split; [reflexivity|]. split; [reflexivity|].
  split; do 9 eexists; reflexivity.
Qed.

(** The loop of the basic server gives up at the first fetch that fails. *)
Lemma basic_each_message_throws `{Provider} (tok : string) (messages : list MessageRef)
    (acc : list Basic.EmailEntry) (w : World) :
  Exists (fun a => ∃ e, a = inl e) (fetches tok Basic.metadataHeaders messages (calls w)) →
  ∃ e w',
    Basic.each_message tok messages acc w = (Throw e, w') ∧
    In (inl e) (fetches tok Basic.metadataHeaders messages (calls w)).
Proof.
  revert acc w. induction messages as [|m rest IH]; intros acc w Hex.
  - inversion Hex.
  - cbn [fetches] in Hex |- *. cbn [Basic.each_message]. unfold bind at 1. unfold remote.
    destruct (messages_get (calls w) _) as [e|email] eqn:Hget.
    + exists e, (add_call (mkCall (Some tok)
                             (MessagesGet "me" (ref_id m) "metadata" Basic.metadataHeaders)) w).
      split; [reflexivity|]. left. reflexivity.
    + inversion Hex as [? ? (e & He)|? ? Hrest]; subst; [discriminate He|].
      destruct (IH (acc ++ [Basic.mkEntry (ref_id m) (ref_threadId m)
                              (or_default (header (payload_headers email) "Subject") "No Subject")
                              (or_default (header (payload_headers email) "From") "Unknown Sender")
                              (or_default (header (payload_headers email) "Date") "")
                              (data_snippet email)])
                  (add_call (mkCall (Some tok)
                               (MessagesGet "me" (ref_id m) "metadata" Basic.metadataHeaders)) w)
                  Hrest) as (e & w' & Hrun & Hin).
      exists e, w'. split; [exact Hrun|]. right. exact Hin.
Qed.

(** The listing of the basic server: when any detail fetch fails, the
    whole call fails with the message of that error, although the listing
    step arrived. *)
Lemma basic_listEmails_fails `{Provider} (tok : string) (maxResults : number) (w : World)
    (response : option (list MessageRef)) :
  messages_list (calls w) (mkCall (Some tok) (MessagesList "me" maxResults None None))
  = inr response →
  Exists (fun a => ∃ e, a = inl e)
    (fetches tok Basic.metadataHeaders (default [] response)
       (calls w ++ [mkCall (Some tok) (MessagesList "me" maxResults None None)])) →
  ∃ e w',
    Basic.listEmails tok maxResults w =
    (Throw (mkError ("Failed to list emails: " +:+ message e)), w').
Proof.
  intros Hlist Hex. unfold Basic.listEmails, try_catch.
  unfold bind at 1. unfold remote at 1. rewrite Hlist.
  destruct (basic_each_message_throws tok (default [] response) []
              (add_call (mkCall (Some tok) (MessagesList "me" maxResults None None)) w) Hex)
    as (e & w' & -> & _).
  exists e, w'. reflexivity.
Qed.

(** C6, the basic server at the failing input: three messages are listed,
    the fetch of the second fails; the whole call fails and nothing is
    returned for the first and the third. *)
Theorem basic_listEmails_aborts :
  messages_list [] (mkCall (Some "tok"%string) (MessagesList "me" (Some 3) None None))
  = inr (Some [mkMessageRef "m1" (Some "t1"); mkMessageRef "m2" (Some "t2");
               mkMessageRef "m3" None]%string) ∧
  fst (Basic.listEmails "tok" (Some 3) (fresh Missing t0))
  = Throw (mkError "Failed to list emails: Requested entity was not found.") ∧
  calls (snd (Basic.listEmails "tok" (Some 3) (fresh Missing t0)))
  = [mkCall (Some "tok"%string) (MessagesList "me" (Some 3) None None);
     mkCall (Some "tok"%string) (MessagesGet "me" "m1" "metadata" Basic.metadataHeaders);
     mkCall (Some "tok"%string) (MessagesGet "me" "m2" "metadata" Basic.metadataHeaders)].
Proof. repeat split; reflexivity. Qed.

(* ================================================================== *)
(** * The delegated routes before any client exists *)

Lemma run_loadUserTokens `{Json} `{Engine} (req : Req) (w : World) (userId : string)
    (tokens : jsval) :
  query req !! "userId"%string = Some userId → userId ≠ ""%string →
  fst (loadTokens userId w) = Return tokens → truthy tokens = true →
  Delegated.loadUserTokens req w = (Return (inr (with_tokens req tokens)), w).
Proof.
  intros Hq Hne Hst Htrue. rewrite run_loadTokens in Hst. injection Hst as Hst.
  unfold Delegated.loadUserTokens, try_catch.
  rewrite Hq. unfold falsy. destruct (decide (userId = ""%string)); [contradiction|].
  unfold bind. rewrite run_loadTokens. cbn [from_option id]. rewrite Hst, Htrue. reflexivity.
Qed.

Lemma run_validateEmailAccess (req : Req) (w : World) (target : string) :
  query req !! "targetEmail"%string = Some target →
  test Delegated.emailRegex target = true →
  Delegated.validateEmailAccess req w =
  (Return (inr (mkReq (query req) (body req) (params req) (user req)
                  (userTokens req) (userEmail req) (Some target))), w).
Proof.
  intros Hq Hre. unfold Delegated.validateEmailAccess, try_catch.
  rewrite Hq. unfold falsy. destruct (decide (target = ""%string)) as [->|_];
    [discriminate Hre|].
  change (default ""%string (Some target)) with target. rewrite Hre. reflexivity.
Qed.

Lemma next_with_next (m : Js (Res + Req)) (handler : Req → Js Res) (w : World)
    (req : Req) :
  m w = (Return (inr req), w) → next_with m handler w = handler req w.
Proof. intros Hm. unfold next_with, bind. rewrite Hm. reflexivity. Qed.

Lemma next_with_answer (m : Js (Res + Req)) (handler : Req → Js Res) (w : World)
    (res : Res) :
  m w = (Return (inl res), w) → next_with m handler w = (Return res, w).
Proof. intros Hm. unfold next_with, bind. rewrite Hm. reflexivity. Qed.

(** The token-loading middleware changes nothing in the process: neither
    the credentials of the OAuth2 client nor the client of the service. *)
Lemma loadUserTokens_pure `{Json} `{Engine} (req : Req) (w : World) :
  snd (Delegated.loadUserTokens req w) = w.
Proof.
  unfold Delegated.loadUserTokens, try_catch.
  destruct (falsy (query req !! "userId"%string)); [reflexivity|].
  unfold bind. rewrite run_loadTokens. destruct (truthy _); reflexivity.
Qed.

(** C3, counterexample: a stored user, a well-formed target address and a
    message id of three characters; the single-email route answers 400. *)
Lemma get_email_short_id :
  fst (loadTokens "u2" store_u2) = Return (stored (a1 5000)) ∧
  test Delegated.emailRegex "boss@x.org" = true ∧
  gmail store_u2 = false ∧
  Delegated.get_email
    (request_of [("userId", "u2"); ("targetEmail", "boss@x.org")]%string []
       [("messageId", "abc")]%string None) store_u2
  = (Return (Reply 400 (JObj [("error"%string, JStr "Valid messageId is required")])),
     store_u2).
Proof. repeat split; vm_compute; reflexivity. Qed.

(** C3, as the code has it.  No handler of the delegated routes hands the
    loaded tokens to [initializeForUser]; while the service has no client,
    a request with a stored user id and a well-formed target address gets
    a 500 from the inbox route, with the error of the missing client under
    [details], and from the threads route, with that error under [error];
    the single-email route answers 400 to a message id shorter than five
    characters and the same 500 otherwise. *)
Theorem delegated_routes_uninitialized `{Json} `{Engine} `{Provider} `{Client}
    (req : Req) (w : World) (userId target : string) (tokens : jsval) :
  gmail w = false →
  query req !! "userId"%string = Some userId → userId ≠ ""%string →
  fst (loadTokens userId w) = Return tokens → truthy tokens = true →
  query req !! "targetEmail"%string = Some target →
  test Delegated.emailRegex target = true →
  snd (Delegated.loadUserTokens req w) = w ∧
  Delegated.get_inbox req w =
  (Return (Reply 500
             (JObj [("error", JStr "Failed to fetch emails");
                    ("details",
                     JStr "Gmail client not initialized. Call initializeForUser() first.")
                   ]%string)), w) ∧
  Delegated.get_threads req w =
  (Return (Reply 500 (JObj [("error"%string, JStr "Gmail client not initialized.")])), w) ∧
  Delegated.get_email req w =
  (Return
     (if falsy (params req !! "messageId"%string)
         || (String.length (default ""%string (params req !! "messageId"%string)) <? 5)%nat
      then Reply 400 (JObj [("error"%string, JStr "Valid messageId is required")])
      else Reply 500 (JObj [("error"%string, JStr "Gmail client not initialized.")])), w).
Proof.
  intros Hg Hu Hne Hst Htrue Ht Hre.
  split; [apply loadUserTokens_pure|].
  pose proof (run_loadUserTokens req w userId tokens Hu Hne Hst Htrue) as Hload.
  pose proof (run_validateEmailAccess (with_tokens req tokens) w target Ht Hre) as Hvalid.
  unfold Delegated.get_inbox, Delegated.get_threads, Delegated.get_email.
  rewrite !(next_with_next _ _ _ _ Hload), !(next_with_next _ _ _ _ Hvalid).
  unfold Delegated.getDelegatedEmails, Delegated.getDelegatedThreads,
    Delegated.getDelegatedEmail, Delegated.require_gmail, try_catch, bind, ret.
  cbn [params]. rewrite Hg.
  split; [reflexivity|]. split; [reflexivity|].
  destruct (falsy _ || _); [reflexivity|]. rewrite Hg. reflexivity.
Qed.

(** C3, witness: the same request with a message id of sixteen
    characters. *)
Lemma delegated_routes_uninitialized_witness :
  Delegated.get_email
    (request_of [("userId", "u2"); ("targetEmail", "boss@x.org")]%string []
       [("messageId", "18c2f0a1b2c3d4e5")]%string None) store_u2
  = (Return (Reply 500 (JObj [("error"%string, JStr "Gmail client not initialized.")])),
     store_u2) ∧
  Delegated.get_inbox
    (request_of [("userId", "u2"); ("targetEmail", "boss@x.org")]%string []
       [("messageId", "18c2f0a1b2c3d4e5")]%string None) store_u2
  = (Return (Reply 500
               (JObj [("error", JStr "Failed to fetch emails");
                      ("details",
                       JStr "Gmail client not initialized. Call initializeForUser() first.")
                     ]%string)), store_u2).
Proof.
  destruct (delegated_routes_uninitialized
              (request_of [("userId", "u2"); ("targetEmail", "boss@x.org")]%string []
                 [("messageId", "18c2f0a1b2c3d4e5")]%string None)
              store_u2 "u2" "boss@x.org" (stored (a1 5000)))
    as (_ & Hinbox & _ & Hemail).
  - reflexivity.
  - vm_compute. reflexivity.
  - discriminate.
  - vm_compute. reflexivity.
  - reflexivity.
  - vm_compute. reflexivity.
  - vm_compute. reflexivity.
  - split; [exact Hemail | exact Hinbox].
Defined.

(* ================================================================== *)
(** * The send endpoints *)

(** C7, counterexample: a request without a session and without a
    recipient; the dashboard server redirects to the start page. *)
Lemma post_send_email_unauthenticated :
  falsy (body (request_of [] [("subject", "Hi"); ("message", "hello")]%string [] None)
         !! "to"%string) = true ∧
  Dashboard.post_send_email
    (request_of [] [("subject", "Hi"); ("message", "hello")]%string [] None)
    (fresh Missing t0)
  = (Return (Redirect "/"), fresh Missing t0).
Proof. split; vm_compute; reflexivity. Qed.

(** C7, as the code has it.  A send request with a missing (or empty)
    recipient, subject or body changes nothing and reaches no remote side.
    The dashboard server answers 400 to it when the session is
    authenticated and redirects to the start page otherwise; the token
    routes answer 400 when [userId] and [tokens] are in the query and 401
    otherwise. *)
Theorem send_validation `{Provider} (req : Req) (w : World) :
  (falsy (body req !! "to"%string) || falsy (body req !! "subject"%string)
     || falsy (body req !! "message"%string) = true →
   Dashboard.post_send_email req w =
   (Return
      match user req with
      | Some _ =>
          Reply 400
            (JObj [("success", JBool false);
                   ("error", JStr "Missing required fields: to, subject, message")]%string)
      | None => Redirect "/"
      end, w)) ∧
  (falsy (body req !! "to"%string) || falsy (body req !! "subject"%string)
     || falsy (body req !! "body"%string) = true →
   Delegated.post_send req w =
   (Return
      (if falsy (query req !! "userId"%string) || falsy (query req !! "tokens"%string)
       then
         Reply 401
           (JObj [("error"%string,
                   JStr ("Authentication required. Please authenticate first via /auth " +:+
                         "and provide userId and tokens."))])
       else
         Reply 400
           (JObj [("error"%string, JStr "Missing required fields: to, subject, body")])),
    w)).
Proof.
  split; intros Hmissing.
  - unfold Dashboard.post_send_email, Dashboard.ensureAuthenticated, next_with, bind.
    destruct (user req) as [u|] eqn:Hu; [|reflexivity].
    unfold ret at 1. unfold try_catch. rewrite Hmissing. reflexivity.
  - unfold Delegated.post_send, Delegated.requireAuth, next_with, bind.
    destruct (falsy (query req !! "userId"%string) || falsy (query req !! "tokens"%string));
      [reflexivity|].
    unfold ret at 1. unfold try_catch. rewrite Hmissing. reflexivity.
Qed.

(** The scenario on both servers: no recipient, an authenticated caller. *)
Lemma send_validation_examples :
  Dashboard.post_send_email
    (request_of [] [("subject", "Hi"); ("message", "hello")]%string [] (Some ann))
    (fresh Missing t0)
  = (Return
       (Reply 400
          (JObj [("success", JBool false);
                 ("error", JStr "Missing required fields: to, subject, message")]%string)),
     fresh Missing t0) ∧
  Delegated.post_send
    (request_of [("userId", "u2"); ("tokens", "x")]%string
       [("subject", "Hi"); ("body", "hello")]%string [] None)
    (fresh Missing t0)
  = (Return
       (Reply 400
          (JObj [("error"%string, JStr "Missing required fields: to, subject, body")])),
     fresh Missing t0).
Proof. split; vm_compute; reflexivity. Qed.

(** With all three fields, the dashboard server does call the remote side. *)
Lemma post_send_email_sends :
  ∃ raw,
    Dashboard.post_send_email
      (request_of [] [("to", "a@b.c"); ("subject", "Hi"); ("message", "hello")]%string []
         (Some ann))
      (fresh Missing t0)
    = (Return
         (Reply 200
            (JObj [("success", JBool true); ("messageId", JStr "sent-1");
                   ("message", JStr "Email sent successfully")]%string)),
       add_call (mkCall (Some "tok"%string) (MessagesSend "me" raw)) (fresh Missing t0)).
Proof. eexists. vm_compute. reflexivity. Qed.

(* ================================================================== *)
(** * The health endpoint *)

(** C10: the health report shows, of the three required configuration
    values, only which are present.  Two processes whose configurations
    agree on that give the same report, apart from the time stamp,
    whatever the values are. *)
Theorem health_hides_values (req1 req2 : Req) (w1 w2 : World) :
  Forall (fun key => present w1 key = present w2 key) Dashboard.required →
  ∃ environment : json,
    Dashboard.health req1 w1 =
    (Return (Reply 200
               (JObj [("status", JStr "OK");
                      ("timestamp", JStr (toISOString (clock w1)));
                      ("environment", environment)]%string)), w1) ∧
    Dashboard.health req2 w2 =
    (Return (Reply 200
               (JObj [("status", JStr "OK");
                      ("timestamp", JStr (toISOString (clock w2)));
                      ("environment", environment)]%string)), w2).
Proof.
  intros Hagree. unfold Dashboard.required in Hagree.
  inversion_clear Hagree as [|? ? Hid Hrest].
  inversion_clear Hrest as [|? ? Hsecret Hrest'].
  inversion_clear Hrest' as [|? ? Hsession _].
  unfold present in Hid, Hsecret, Hsession.
  eexists. split; [reflexivity|].
  unfold Dashboard.health. rewrite Hid, Hsecret, Hsession. reflexivity.
Qed.

(** C10, witness: two configurations with different client ids and
    secrets and no session secret, asked at different times. *)
Lemma health_hides_values_witness :
  ∃ environment : json,
    Dashboard.health (request_of [] [] [] None)
      (configured [("CLIENT_ID", "id-one"); ("CLIENT_SECRET", "s3cret")]%string t0) =
    (Return (Reply 200
               (JObj [("status", JStr "OK");
                      ("timestamp", JStr "2023-11-14T22:13:20.000Z");
                      ("environment", environment)]%string)),
     configured [("CLIENT_ID", "id-one"); ("CLIENT_SECRET", "s3cret")]%string t0) ∧
    Dashboard.health (request_of [] [] [] (Some ann))
      (configured [("CLIENT_ID", "another"); ("CLIENT_SECRET", "hunter2")]%string (t0 + 1)) =
    (Return (Reply 200
               (JObj [("status", JStr "OK");
                      ("timestamp", JStr "2023-11-14T22:13:20.001Z");
                      ("environment", environment)]%string)),
     configured [("CLIENT_ID", "another"); ("CLIENT_SECRET", "hunter2")]%string (t0 + 1)) ∧
    environment =
    JObj [("client_id_set", JBool true); ("client_secret_set", JBool true);
          ("session_secret_set", JBool false)]%string.
Proof.
  destruct (health_hides_values (request_of [] [] [] None) (request_of [] [] [] (Some ann))
              (configured [("CLIENT_ID", "id-one"); ("CLIENT_SECRET", "s3cret")]%string t0)
              (configured [("CLIENT_ID", "another"); ("CLIENT_SECRET", "hunter2")]%string
                 (t0 + 1)))
    as (environment & H1 & H2).
  - repeat constructor.
  - exists environment. split; [exact H1|]. split; [exact H2|].
    vm_compute in H1. injection H1 as <-. reflexivity.
Defined.

(** X24: a server that got past [validateEnvironment], which ends the
    process unless none of the three required values is missing or empty,
    reports every one of them as set. *)
Lemma health_after_validation (req : Req) (w : World) :
  Dashboard.missing w = [] →
  Dashboard.health req w =
  (Return (Reply 200
             (JObj [("status", JStr "OK");
                    ("timestamp", JStr (toISOString (clock w)));
                    ("environment",
                     JObj [("client_id_set", JBool true);
                           ("client_secret_set", JBool true);
                           ("session_secret_set", JBool true)]%string)]%string)), w).
Proof.
  unfold Dashboard.missing, Dashboard.required, Dashboard.health. cbn [List.filter].
  destruct (falsy (env w !! "CLIENT_ID"%string)); [discriminate|].
  destruct (falsy (env w !! "CLIENT_SECRET"%string)); [discriminate|].
  destruct (falsy (env w !! "SESSION_SECRET"%string)); [discriminate|].
  reflexivity.
Qed.

(** X24, witness: the three values are set. *)
Lemma health_after_validation_witness :
  Dashboard.health (request_of [] [] [] None)
    (configured [("CLIENT_ID", "id"); ("CLIENT_SECRET", "s3cret");
                 ("SESSION_SECRET", "cat")]%string t0)
  = (Return (Reply 200
               (JObj [("status", JStr "OK");
                      ("timestamp", JStr "2023-11-14T22:13:20.000Z");
                      ("environment",
                       JObj [("client_id_set", JBool true);
                             ("client_secret_set", JBool true);
                             ("session_secret_set", JBool true)]%string)]%string)),
     configured [("CLIENT_ID", "id"); ("CLIENT_SECRET", "s3cret");
                 ("SESSION_SECRET", "cat")]%string t0).
Proof.
  apply (health_after_validation (request_of [] [] [] None)
           (configured [("CLIENT_ID", "id"); ("CLIENT_SECRET", "s3cret");
                        ("SESSION_SECRET", "cat")]%string t0)).
  vm_compute. reflexivity.
Defined.

(* ================================================================== *)
(** * The credential store: failure and time *)

Lemma saveTokens_failure_keeps_state `{Json} `{Engine} (userId : string) (tokens : Tokens)
    (w : World) (e : Error) :
  fst (saveTokens userId tokens w) = Throw e → snd (saveTokens userId tokens w) = w.
Proof.
  rewrite run_saveTokens. destruct (merged userId tokens w); [reflexivity|].
  destruct (writeFault w); [reflexivity|discriminate].
Qed.

(** Over an object a refused write is the one failure. *)
Lemma saveTokens_over_object `{Json} `{Engine} (userId : string) (tokens : Tokens)
    (w : World) :
  object_store w →
  (∀ why, writeFault w = Some why →
          saveTokens userId tokens w =
          (Throw (mkError ("Failed to save tokens: " +:+ why)), w)) ∧
  (writeFault w = None → fst (saveTokens userId tokens w) = Return true).
Proof.
  intros Hobj.
  destruct (merged_object userId tokens w Hobj) as (fields & fields' & _ & Hm & _).
  rewrite run_saveTokens, Hm. split.
  - intros why ->. reflexivity.
  - intros ->. reflexivity.
Qed.

(** X1: the failures of [saveTokens].  Over a document that is an object,
    or where the file is missing, unreadable or rejected by [JSON.parse], a
    refused write is the one failure: the error reads [Failed to save
    tokens: ] followed by the reason of the refusal, and when the write is
    not refused the call reports success.  Over the text [null] the call
    fails before it writes, with the [TypeError] of the assignment.  A
    failure of either kind leaves everything as it was. *)
Theorem saveTokens_fails_exactly_on_write `{Json} `{Engine} (userId : string)
    (tokens : Tokens) (w : World) :
  (object_store w →
   (∀ why, writeFault w = Some why →
           saveTokens userId tokens w =
           (Throw (mkError ("Failed to save tokens: " +:+ why)), w)) ∧
   (writeFault w = None → fst (saveTokens userId tokens w) = Return true)) ∧
  (∀ data, tokensFile w = Content data → JSON_parse data = Some JNull →
           saveTokens userId tokens w =
           (Throw (mkError ("Failed to save tokens: " +:+ cannot_set userId)), w)) ∧
  (∀ e, fst (saveTokens userId tokens w) = Throw e →
        snd (saveTokens userId tokens w) = w).
Proof.
  split; [|split].
  - apply saveTokens_over_object.
  - intros data Hf Hp. rewrite run_saveTokens. unfold merged, existing.
    rewrite Hf, Hp. reflexivity.
  - apply saveTokens_failure_keeps_state.
Qed.

(** X1, witness: a disk that refuses the write. *)
Lemma saveTokens_fails_exactly_on_write_witness :
  saveTokens "u1" (a1 5000) (read_only_disk Missing t0) =
  (Throw (mkError "Failed to save tokens: EACCES: permission denied"),
   read_only_disk Missing t0).
Proof.
  destruct (saveTokens_fails_exactly_on_write "u1" (a1 5000) (read_only_disk Missing t0))
    as [Hobject _].
  destruct Hobject as [Hfail _]; [exists []; reflexivity|].
  apply (Hfail "EACCES: permission denied"%string). reflexivity.
Defined.

(** X2: expiry is monotone in time.  A token that [isTokenExpired] reports
    as expired is reported as expired at every later time. *)
Theorem isTokenExpired_monotone `{Engine} (tokens : Tokens) (w w' : World) :
  clock w <= clock w' →
  fst (isTokenExpired tokens w) = Return true →
  fst (isTokenExpired tokens w') = Return true.
Proof.
  intros Hle. rewrite !run_isTokenExpired. cbn [fst]. intros [= Hexp]. f_equal.
  destruct (falsy_number (expiry_date tokens)); [reflexivity|]. cbn [orb] in *.
  rewrite Z.gtb_ltb in *. apply Z.ltb_lt in Hexp. apply Z.ltb_lt. lia.
Qed.

(** X2, witness: expired one millisecond after the expiry, and in 2023. *)
Lemma isTokenExpired_monotone_witness :
  fst (isTokenExpired (a1 5000) (fresh Missing 5001)) = Return true ∧
  fst (isTokenExpired (a1 5000) (fresh Missing t0)) = Return true.
Proof.
  split; [reflexivity|].
  apply (isTokenExpired_monotone (a1 5000) (fresh Missing 5001) (fresh Missing t0)).
  - vm_compute. discriminate.
  - reflexivity.
Defined.

(* ================================================================== *)
(** * The authorization routes *)

Lemma run_getTokens `{OAuth2} (code : string) (w : World) :
  Delegated.getTokens code w =
  if isInitialized w then
    match getToken w code with
    | inl e => (Throw e, w)
    | inr tokens => (Return tokens, set_credentials tokens w)
    end
  else (Throw (mkError "OAuth2 client not initialized. Call initializeOAuth2() first."), w).
Proof.
  unfold Delegated.getTokens, Delegated.ensureInitialized, bind, ret.
  destruct (isInitialized w); [|reflexivity].
  destruct (getToken w code); reflexivity.
Qed.

Lemma saveTokens_keeps_credentials `{Json} `{Engine} (userId : string) (tokens : Tokens)
    (w : World) :
  credentials (snd (saveTokens userId tokens w)) = credentials w.
Proof.
  rewrite run_saveTokens. destruct (merged userId tokens w); [reflexivity|].
  destruct (writeFault w); [reflexivity|]. destruct (tokensFile w); reflexivity.
Qed.

(** What [/callback] does, case by case. *)
Lemma run_get_callback `{Json} `{Engine} `{OAuth2} (req : Req) (w : World) :
  Auth.get_callback req w =
  if falsy (query req !! "code"%string) then
    (Return (Delegated.error_reply 400 "Authorization code required"), w)
  else if isInitialized w then
    match getToken w (default ""%string (query req !! "code"%string)) with
    | inl e => (Return (Delegated.error_reply 500 (message e)), w)
    | inr tokens =>
        match saveTokens (Auth.user_at (clock w)) tokens (set_credentials tokens w) with
        | (Throw e, _) =>
            (Return (Delegated.error_reply 500 (message e)), set_credentials tokens w)
        | (Return _, w') => (Return (callback_ok tokens (clock w)), w')
        end
    end
  else
    (Return (Delegated.error_reply 500
               "OAuth2 client not initialized. Call initializeOAuth2() first."), w).
Proof.
  unfold Auth.get_callback, try_catch.
  destruct (falsy (query req !! "code"%string)); [reflexivity|].
  unfold bind at 1. rewrite run_getTokens.
  destruct (isInitialized w); [|reflexivity].
  destruct (getToken w _) as [e|tokens]; [reflexivity|].
  unfold bind at 1. unfold Date_now. cbn [clock set_credentials].
  unfold bind.
  pose proof (saveTokens_failure_keeps_state (Auth.user_at (clock w)) tokens
                (set_credentials tokens w)) as Hkeep.
  destruct (saveTokens _ _ _) as [[ok|e] w']; [reflexivity|].
  cbn [fst snd] in Hkeep. rewrite (Hkeep e eq_refl). reflexivity.
Qed.

(** A callback that goes through over a document that is an object: the
    file then holds that object with the record under the id of the
    callback, the other members being as they were. *)
Lemma run_get_callback_grants `{Json} `{Engine} `{OAuth2} (req : Req) (w : World)
    (tokens : Tokens) :
  grants req w tokens → object_store w →
  ∃ fields fields',
    existing w = JObj fields ∧
    own (Auth.user_at (clock w)) fields' =
    Some (object_of (with_createdAt tokens (toISOString (clock w)))) ∧
    (∀ k, Auth.user_at (clock w) ≠ k → own k fields' = own k fields) ∧
    Auth.get_callback req w =
    (Return (callback_ok tokens (clock w)),
     match tokensFile w with
     | Unreadable _ => set_credentials tokens w
     | _ => set_tokensFile (Content (JSON_stringify (JObj fields'))) (set_credentials tokens w)
     end).
Proof.
  intros (code & Hq & Hne & Hi & Hx & Hw) Hobj.
  assert (Hobj' : object_store (set_credentials tokens w)) by exact Hobj.
  destruct (merged_object (Auth.user_at (clock w)) tokens (set_credentials tokens w) Hobj')
    as (fields & fields' & Hex & Hm & Hown & Hother).
  exists fields, fields'. split; [exact Hex|].
  split; [apply Hown; discriminate|]. split; [exact Hother|].
  rewrite run_get_callback, Hq. unfold falsy.
  destruct (decide (code = ""%string)); [contradiction|].
  change (default ""%string (Some code)) with code. rewrite Hi, Hx.
  rewrite run_saveTokens, Hm. cbn [writeFault set_credentials tokensFile]. rewrite Hw.
  destruct (tokensFile w); reflexivity.
Qed.

Lemma decimal_inj (n m : Z) : decimal n = decimal m → n = m.
Proof.
  unfold decimal. intros Heq. apply to_int_inj.
  destruct (to_int_proper n) as [Hn1 Hn2], (to_int_proper m) as [Hm1 Hm2].
  pose proof (NilZero.isi _ Hn1 Hn2) as Hn. pose proof (NilZero.isi _ Hm1 Hm2) as Hm.
  rewrite Heq in Hn. rewrite Hn in Hm. injection Hm as ->. reflexivity.
Qed.

Lemma user_at_inj (n m : Z) : Auth.user_at n = Auth.user_at m → n = m.
Proof.
  unfold Auth.user_at. intros Heq. apply decimal_inj.
  cbv beta iota delta [String.append] in Heq. injection Heq as Heq. exact Heq.
Qed.

(** X3: a callback that goes through.  With a code, an initialized OAuth2
    client, an exchange that yields tokens, a write that is not refused
    and a token file that is absent or readable and holds no other value
    than an object, [/callback] answers 200 with the id [user_] followed by
    the time in milliseconds and with [hasRefreshToken] telling whether the
    tokens hold a refresh token; the tokens are then the credentials of
    the OAuth2 client, and [loadTokens] for that id returns them with an
    ISO-8601 [createdAt]. *)
Theorem callback_stores_tokens `{JsonLaws} `{Engine} `{OAuth2} (req : Req) (w : World)
    (code : string) (tokens : Tokens) :
  query req !! "code"%string = Some code → code ≠ ""%string →
  isInitialized w = true → getToken w code = inr tokens →
  writeFault w = None → readable w → object_store w →
  ∃ (w' : World) (stamp : string),
    Auth.get_callback req w =
    (Return
       (Reply 200
          (JObj [("success", JBool true);
                 ("message", JStr "Authentication successful");
                 ("userId", JStr ("user_" +:+ decimal (clock w)));
                 ("hasRefreshToken", JBool (negb (falsy (refresh_token tokens))));
                 ("note", JStr "Save this userId for making API calls")]%string)), w') ∧
    credentials w' = Some tokens ∧
    iso8601 stamp = true ∧
    ∀ w2, tokensFile w2 = tokensFile w' →
          loadTokens ("user_" +:+ decimal (clock w)) w2 =
          (Return (stored (with_createdAt tokens stamp)), w2).
Proof.
  intros Hq Hne Hi Hx Hw Hr Hobj.
  assert (Hg : grants req w tokens) by (exists code; auto).
  destruct (run_get_callback_grants req w tokens Hg Hobj)
    as (fields & fields' & _ & Hown & _ & ->).
  eexists _, (toISOString (clock w)). split; [reflexivity|].
  destruct (tokensFile w) as [|why|data] eqn:Hf; [|destruct (Hr why Hf)|];
    (split; [reflexivity|]); (split; [apply toISOString_iso8601|]);
    intros w2 Hf2; rewrite run_loadTokens;
    rewrite (found_after_write _ _ w (parse_stringify _) w2 Hf2); cbn [read];
    unfold Auth.user_at in Hown; rewrite Hown; reflexivity.
Qed.

(** X3, witness: the first code, a fresh file. *)
Lemma callback_stores_tokens_witness :
  ∃ w' : World,
    Auth.get_callback (request_of [("code", "4/good")]%string [] [] None) (ready Missing t0) =
    (Return
       (Reply 200
          (JObj [("success", JBool true);
                 ("message", JStr "Authentication successful");
                 ("userId", JStr "user_1700000000000");
                 ("hasRefreshToken", JBool true);
                 ("note", JStr "Save this userId for making API calls")]%string)), w') ∧
    credentials w' = Some granted ∧
    ∃ stamp, loadTokens "user_1700000000000" w' =
             (Return (stored (with_createdAt granted stamp)), w').
Proof.
  destruct (callback_stores_tokens (request_of [("code", "4/good")]%string [] [] None)
              (ready Missing t0) "4/good" granted)
    as (w' & stamp & Hrun & Hcred & _ & Hload).
  - vm_compute. reflexivity.
  - discriminate.
  - reflexivity.
  - reflexivity.
  - reflexivity.
  - intros why. discriminate.
  - exists []. reflexivity.
  - exists w'. split; [exact Hrun|]. split; [exact Hcred|].
    exists stamp. apply Hload. reflexivity.
Defined.

(** X4: [/callback] never throws and keeps the store unless it answers
    200.  It answers 200, 400 or 500; 400 exactly when the code is missing
    or empty, and then nothing has changed; with any answer but 200 the
    token file is as before; and the credentials of the OAuth2 client
    change only to tokens that the exchange of the code yielded. *)
Theorem callback_keeps_store_unless_ok `{Json} `{Engine} `{OAuth2} (req : Req)
    (w : World) :
  ∃ (status : Z) (payload : json) (w' : World),
    Auth.get_callback req w = (Return (Reply status payload), w') ∧
    (status = 200 ∨ status = 400 ∨ status = 500) ∧
    (status = 400 ↔ falsy (query req !! "code"%string) = true) ∧
    (status = 400 → w' = w) ∧
    (status ≠ 200 → tokensFile w' = tokensFile w) ∧
    (credentials w' ≠ credentials w →
     ∃ code tokens, query req !! "code"%string = Some code ∧ getToken w code = inr tokens ∧
                    credentials w' = Some tokens).
Proof.
  rewrite run_get_callback.
  destruct (query req !! "code"%string) as [code|] eqn:Hq; unfold falsy;
    [destruct (decide (code = ""%string))|].
  - eexists _, _, _. split; [reflexivity|]. repeat split; auto; try tauto.
  - change (default ""%string (Some code)) with code.
    destruct (isInitialized w).
    + destruct (getToken w code) as [e|tokens] eqn:Hx.
      * eexists _, _, _. split; [reflexivity|].
        split; [auto|]. split; [split; discriminate|]. split; [discriminate|].
        split; [reflexivity|]. intros []; reflexivity.
      * pose proof (saveTokens_keeps_credentials (Auth.user_at (clock w)) tokens
                      (set_credentials tokens w)) as Hcred.
        destruct (saveTokens _ _ _) as [[ok|e] w'].
        -- eexists _, _, _. split; [reflexivity|].
           split; [auto|]. split; [split; discriminate|]. split; [discriminate|].
           split; [intros []; reflexivity|]. intros _. exists code, tokens.
           split; [reflexivity|]. split; [exact Hx|exact Hcred].
        -- eexists _, _, _. split; [reflexivity|].
           split; [auto|]. split; [split; discriminate|]. split; [discriminate|].
           split; [reflexivity|]. intros _. exists code, tokens. auto.
    + eexists _, _, _. split; [reflexivity|].
      split; [auto|]. split; [split; discriminate|]. split; [discriminate|].
      split; [reflexivity|]. intros []; reflexivity.
  - eexists _, _, _. split; [reflexivity|]. repeat split; auto; try tauto.
Qed.

(** X5: a save that fails after the exchange.  When the code was
    exchanged, the document that the save starts from is an object and the
    write is refused, [/callback] answers 500 with the error of
    [saveTokens]; the token file is untouched, but the OAuth2 client
    already holds the new tokens as its credentials. *)
Theorem callback_save_failure `{Json} `{Engine} `{OAuth2} (req : Req) (w : World)
    (code why : string) (tokens : Tokens) :
  query req !! "code"%string = Some code → code ≠ ""%string →
  isInitialized w = true → getToken w code = inr tokens →
  object_store w → writeFault w = Some why →
  Auth.get_callback req w =
  (Return (Reply 500 (JObj [("error"%string, JStr ("Failed to save tokens: " +:+ why))])),
   set_credentials tokens w).
Proof.
  intros Hq Hne Hi Hx Hobj Hw. rewrite run_get_callback, Hq. unfold falsy.
  destruct (decide (code = ""%string)); [contradiction|].
  change (default ""%string (Some code)) with code. rewrite Hi, Hx.
  assert (Hobj' : object_store (set_credentials tokens w)) by exact Hobj.
  destruct (saveTokens_over_object (Auth.user_at (clock w)) tokens
              (set_credentials tokens w) Hobj') as [Hfail _].
  rewrite (Hfail why Hw). reflexivity.
Qed.

(** X5, witness: the first code on a disk that refuses the write. *)
Lemma callback_save_failure_witness :
  Auth.get_callback (request_of [("code", "4/good")]%string [] [] None)
    (read_only_disk Missing t0) =
  (Return (Reply 500
             (JObj [("error"%string,
                     JStr "Failed to save tokens: EACCES: permission denied")])),
   set_credentials granted (read_only_disk Missing t0)).
Proof.
  apply (callback_save_failure (request_of [("code", "4/good")]%string [] [] None)
           (read_only_disk Missing t0) "4/good" "EACCES: permission denied" granted).
  - vm_compute. reflexivity.
  - discriminate.
  - reflexivity.
  - reflexivity.
  - exists []. reflexivity.
  - reflexivity.
Defined.

(** X6: the id of a callback is a function of the time alone.  Two
    callbacks that go through, the first over a file that is absent or
    readable and holds no other value than an object, get the same id
    exactly when they happen in the same millisecond; the record found
    under the id of the first one after the second is then the tokens of
    the second, the ones of the first being lost, and it is still the
    tokens of the first when the times differ. *)
Theorem callback_ids_by_time `{JsonLaws} `{Engine} `{OAuth2} (req1 req2 : Req)
    (w w2 : World) (t1 t2 : Tokens) :
  grants req1 w t1 → readable w → object_store w →
  grants req2 w2 t2 → tokensFile w2 = tokensFile (snd (Auth.get_callback req1 w)) →
  (Auth.user_at (clock w2) = Auth.user_at (clock w) ↔ clock w2 = clock w) ∧
  ∀ w3, tokensFile w3 = tokensFile (snd (Auth.get_callback req2 w2)) →
        ∃ stamp,
          loadTokens (Auth.user_at (clock w)) w3 =
          (Return
             (stored (with_createdAt (if decide (clock w2 = clock w) then t2 else t1) stamp)),
           w3).
Proof.
  intros Hg1 Hr Hobj Hg2 Hf2.
  split; [split; [apply user_at_inj | intros ->; reflexivity]|].
  intros w3 Hf3.
  destruct (run_get_callback_grants _ _ _ Hg1 Hobj)
    as (fields & fields1 & _ & Hown1 & _ & Hrun1).
  rewrite Hrun1 in Hf2. cbn [snd] in Hf2.
  assert (Hfile : tokensFile w2 = Content (JSON_stringify (JObj fields1))).
  { rewrite Hf2. destruct (tokensFile w) as [|why|data] eqn:Hf;
      [reflexivity|destruct (Hr why Hf)|reflexivity]. }
  assert (Hex : existing w2 = JObj fields1).
  { unfold existing. rewrite Hfile, parse_stringify. reflexivity. }
  assert (Hobj2 : object_store w2) by (exists fields1; exact Hex).
  destruct (run_get_callback_grants _ _ _ Hg2 Hobj2)
    as (fields' & fields2 & Hex' & Hown2 & Hother2 & Hrun2).
  rewrite Hex in Hex'. injection Hex' as <-.
  rewrite Hrun2 in Hf3. cbn [snd] in Hf3. rewrite Hfile in Hf3.
  cbn [tokensFile set_tokensFile] in Hf3.
  rewrite run_loadTokens.
  rewrite (found_after_write _ _ w (parse_stringify _) w3 Hf3). cbn [read].
  destruct (decide (clock w2 = clock w)) as [Heq|Hne].
  - rewrite <- Heq, Hown2. eexists. reflexivity.
  - rewrite (Hother2 (Auth.user_at (clock w)))
      by (intros Hu; apply Hne, user_at_inj, Hu).
    rewrite Hown1. eexists. reflexivity.
Qed.

(** X6, witness: the two codes one after the other in the same
    millisecond; the record has no refresh token any more. *)
Lemma callback_ids_by_time_witness :
  ∃ stamp,
    loadTokens "user_1700000000000"
      (snd (Auth.get_callback (request_of [("code", "4/again")]%string [] [] None)
              (snd (Auth.get_callback (request_of [("code", "4/good")]%string [] [] None)
                      (ready Missing t0)))))
    = (Return (stored (with_createdAt regranted stamp)),
       snd (Auth.get_callback (request_of [("code", "4/again")]%string [] [] None)
              (snd (Auth.get_callback (request_of [("code", "4/good")]%string [] [] None)
                      (ready Missing t0))))).
Proof.
  destruct (callback_ids_by_time
              (request_of [("code", "4/good")]%string [] [] None)
              (request_of [("code", "4/again")]%string [] [] None)
              (ready Missing t0)
              (snd (Auth.get_callback (request_of [("code", "4/good")]%string [] [] None)
                      (ready Missing t0)))
              granted regranted) as [_ Hload].
  - exists "4/good"%string. repeat split; try reflexivity. discriminate.
  - intros why. discriminate.
  - exists []. reflexivity.
  - exists "4/again"%string. repeat split; try reflexivity. discriminate.
  - reflexivity.
  - apply (Hload _ eq_refl).
Defined.

Lemma found_falsy `{Json} `{Engine} (userId : string) (w : World) :
  truthy (found userId w) = false → found userId w = null.
Proof.
  unfold found. destruct (tokensFile w) as [|why|data]; try reflexivity.
  destruct (JSON_parse data) as [tokenData|]; [|reflexivity].
  destruct (read tokenData userId) as [e|v]; [reflexivity|].
  destruct (truthy v) eqn:Hv; [congruence|reflexivity].
Qed.

(** What [/status] does for a token record. *)
Lemma run_get_status `{Json} `{Engine} (req : Req) (w : World) (userId : string)
    (tokens : Tokens) :
  query req !! "userId"%string = Some userId → userId ≠ ""%string →
  found userId w = stored tokens →
  Auth.get_status req w =
  (Return
     (Reply 200
        (JObj [("success", JBool true);
               ("hasTokens", JBool true);
               ("isExpired",
                JBool (falsy_number (expiry_date tokens)
                       || (clock w >? default 0 (expiry_date tokens))%Z));
               ("expiryDate",
                if falsy_number (expiry_date tokens) then JNull
                else date_json (default 0 (expiry_date tokens)))]%string)), w).
Proof.
  intros Hq Hne Hfound. unfold Auth.get_status, try_catch.
  rewrite Hq. unfold falsy. destruct (decide (userId = ""%string)); [contradiction|].
  unfold bind at 1. rewrite run_loadTokens. cbn [from_option id]. rewrite Hfound.
  rewrite truthy_stored. cbn [negb].
  unfold bind at 1. rewrite run_isTokenExpired. rewrite field_expiry_date.
  destruct (expiry_date tokens) as [e|]; [|reflexivity].
  cbn [fmap option_fmap option_map member_value truthy falsy_number from_option id
       Auth.new_Date].
  destruct (e =? 0); reflexivity.
Qed.

(** X7: the status of a stored token.  For an id under which [loadTokens]
    finds a token record, [/status] answers 200 and changes nothing;
    [isExpired] is true when the expiry is absent, zero or strictly before
    the current time, and false at the instant of expiry; [expiryDate] is
    the ISO string of the expiry, or [null] when the expiry is absent, zero
    or no valid date. *)
Theorem status_of_stored_tokens `{Json} `{Engine} (req : Req) (w : World)
    (userId : string) (tokens : Tokens) :
  query req !! "userId"%string = Some userId → userId ≠ ""%string →
  fst (loadTokens userId w) = Return (stored tokens) →
  Auth.get_status req w =
  (Return
     (Reply 200
        (JObj [("success", JBool true);
               ("hasTokens", JBool true);
               ("isExpired",
                JBool match expiry_date tokens with
                      | Some e => ((e =? 0) || (e <? clock w))%Z
                      | None => true
                      end);
               ("expiryDate",
                match expiry_date tokens with
                | Some e =>
                    if ((e =? 0) || (8640000000000000 <? Z.abs e))%Z then JNull
                    else JStr (toISOString e)
                | None => JNull
                end)]%string)), w).
Proof.
  intros Hq Hne Hload. rewrite run_loadTokens in Hload. cbn [fst] in Hload.
  injection Hload as Hload.
  rewrite (run_get_status req w userId tokens Hq Hne Hload).
  unfold falsy_number, date_json.
  destruct (expiry_date tokens) as [e|]; [|reflexivity].
  cbn [from_option id]. rewrite Z.gtb_ltb.
  destruct (e =? 0); [reflexivity|]. cbn [orb].
  rewrite Z.leb_antisym. destruct (8640000000000000 <? Z.abs e); reflexivity.
Qed.

(** X7, witness: the record of [u2], which expired five seconds into
    1970. *)
Lemma status_of_stored_tokens_witness :
  Auth.get_status (request_of [("userId", "u2")]%string [] [] None) store_u2 =
  (Return
     (Reply 200
        (JObj [("success", JBool true); ("hasTokens", JBool true);
               ("isExpired", JBool true);
               ("expiryDate", JStr "1970-01-01T00:00:05.000Z")]%string)), store_u2).
Proof.
  apply (status_of_stored_tokens (request_of [("userId", "u2")]%string [] [] None)
           store_u2 "u2" (a1 5000)).
  - vm_compute. reflexivity.
  - discriminate.
  - vm_compute. reflexivity.
Defined.

Lemma greater_cases `{Engine} (now : Z) (x : option json) (w : World) :
  snd (greater now x w) = w ∧
  ((∃ e, x = Some (JNum e)) → ∃ b, fst (greater now x w) = Return b).
Proof.
  unfold greater, lift.
  destruct x as [[|b|e|str|items|fields]|];
    try (match goal with |- context [later_than ?n ?v] => destruct (later_than n v) end);
    (split; [reflexivity|]); intros [e' [= ?]]; eexists; reflexivity.
Qed.

(** On what is truthy the read of the expiry does not throw. *)
Lemma isTokenExpired_truthy `{Engine} (tokens : jsval) (w : World) :
  truthy tokens = true →
  isTokenExpired tokens w =
  (if negb (truthy (member_value (field tokens "expiry_date"))) then ret true
   else let* now := Date_now in greater now (field tokens "expiry_date")) w.
Proof. destruct tokens as [|[]|]; try discriminate; reflexivity. Qed.

Lemma new_Date_cases `{Engine} (x : option json) (w : World) :
  snd (Auth.new_Date x w) = w ∧
  ((∃ e, x = Some (JNum e)) → ∃ d, fst (Auth.new_Date x w) = Return d).
Proof.
  unfold Auth.new_Date, lift.
  destruct x as [[|b|e|str|items|fields]|];
    try (match goal with |- context [date_of ?v] => destruct (date_of v) end);
    (split; [reflexivity|]); intros [e' [= ?]]; eexists; reflexivity.
Qed.

(** What [/status] does, case by case: 400 without an id, 404 when
    nothing is found, else 200, or 500 for an expiry that the engine fails
    to convert. *)
Lemma status_cases `{Json} `{Engine} (req : Req) (w : World) :
  let tokens := found (default ""%string (query req !! "userId"%string)) w in
  ∃ res : Res,
    Auth.get_status req w = (Return res, w) ∧
    ((falsy (query req !! "userId"%string) = true ∧
      res = Delegated.error_reply 400 "User ID required") ∨
     (falsy (query req !! "userId"%string) = false ∧ truthy tokens = false ∧
      res = Delegated.error_reply 404 "No tokens found for user") ∨
     (falsy (query req !! "userId"%string) = false ∧ truthy tokens = true ∧
      ∃ (isExpired : bool) (expiryDate : json),
        res = Reply 200
                (JObj [("success", JBool true); ("hasTokens", JBool true);
                       ("isExpired", JBool isExpired);
                       ("expiryDate", expiryDate)]%string)) ∨
     (falsy (query req !! "userId"%string) = false ∧ truthy tokens = true ∧
      ¬ plain_expiry tokens ∧ ∃ e, res = Delegated.error_reply 500 (message e))).
Proof.
  intros tokens. unfold Auth.get_status, try_catch.
  destruct (falsy (query req !! "userId"%string)); [eexists; split; [reflexivity|auto]|].
  unfold bind at 1. rewrite run_loadTokens. fold tokens.
  destruct (truthy tokens) eqn:Htrue; cbn [negb];
    [|eexists; split; [reflexivity|auto]].
  unfold bind at 1. rewrite (isTokenExpired_truthy tokens w Htrue).
  destruct (truthy (member_value (field tokens "expiry_date"))) eqn:Hx; cbn [negb].
  - unfold bind at 1. unfold Date_now.
    destruct (greater_cases (clock w) (field tokens "expiry_date") w) as [Hgs Hgr].
    destruct (new_Date_cases (field tokens "expiry_date") w) as [Hds Hdr].
    assert (Hplain : plain_expiry tokens → ∃ e, field tokens "expiry_date" = Some (JNum e)).
    { intros [Hfalsy|He]; [congruence|exact He]. }
    destruct (greater _ _ w) as [[b|e] w1] eqn:Hg; cbn [snd fst] in Hgs, Hgr; subst w1.
    + unfold bind. destruct (Auth.new_Date _ w) as [[d|e] w1] eqn:Hd;
        cbn [snd fst] in Hds, Hdr; subst w1.
      * eexists. split; [reflexivity|]. right. right. left. eauto.
      * eexists. split; [reflexivity|]. right. right. right.
        split; [reflexivity|]. split; [reflexivity|]. split; [|eauto].
        intros Hp. destruct (Hdr (Hplain Hp)) as [d Hd']. discriminate.
    + eexists. split; [reflexivity|]. right. right. right.
      split; [reflexivity|]. split; [reflexivity|]. split; [|eauto].
      intros Hp. destruct (Hgr (Hplain Hp)) as [b Hb]. discriminate.
  - eexists. split; [reflexivity|]. right. right. left. eauto.
Qed.

(** X8: [/status] only reads.  It never throws and changes nothing: it
    answers 400 exactly when the user id is missing or empty, 404 exactly
    when the id is given and [loadTokens] finds nothing (a missing,
    unreadable or corrupt file included), and otherwise 200, or 500 when
    the conversion of the expiry fails; it never answers 500 when the
    expiry of what it found is absent, falsy or a number. *)
Theorem status_never_fails `{Json} `{Engine} (req : Req) (w : World) :
  ∃ (status : Z) (payload : json),
    Auth.get_status req w = (Return (Reply status payload), w) ∧
    (status = 200 ∨ status = 400 ∨ status = 404 ∨ status = 500) ∧
    (status = 400 ↔ falsy (query req !! "userId"%string) = true) ∧
    (status = 404 ↔
     falsy (query req !! "userId"%string) = false ∧
     fst (loadTokens (default ""%string (query req !! "userId"%string)) w) = Return null) ∧
    (status = 500 →
     ∃ tokens, fst (loadTokens (default ""%string (query req !! "userId"%string)) w)
               = Return tokens ∧ ¬ plain_expiry tokens).
Proof.
  rewrite run_loadTokens. cbn [fst].
  destruct (status_cases req w)
    as (res & -> & [[Hf ->]|[(Hf & Hfalse & ->)|[(Hf & Htrue & b & d & ->)
                                               |(Hf & Htrue & Hplain & e & ->)]]]);
    rewrite Hf.
  - eexists _, _. split; [reflexivity|]. split; [auto|].
    split; [tauto|]. split; [split; [discriminate|intros [? _]; discriminate]|discriminate].
  - eexists _, _. split; [reflexivity|]. split; [auto|].
    split; [split; discriminate|]. split; [|discriminate].
    split; [intros _|reflexivity]. split; [reflexivity|].
    f_equal. apply found_falsy, Hfalse.
  - eexists _, _. split; [reflexivity|]. split; [auto|].
    split; [split; discriminate|]. split; [|discriminate].
    split; [discriminate|]. intros [_ [= Heq]]. rewrite Heq in Htrue. discriminate.
  - eexists _, _. split; [reflexivity|]. split; [auto|].
    split; [split; discriminate|]. split.
    + split; [discriminate|]. intros [_ [= Heq]]. rewrite Heq in Htrue. discriminate.
    + intros _. eexists. split; [reflexivity|exact Hplain].
Qed.

(** X9: the authorization routes before [initializeOAuth2].  While the
    OAuth2 client is not initialized, [/url] answers 500 with the error of
    the missing client, and so does [/callback] for every request with a
    code (400 without one); nothing changes. *)
Theorem auth_routes_uninitialized `{Json} `{OAuth2} (req : Req) (w : World) :
  isInitialized w = false →
  Auth.get_url req w =
  (Return (Reply 500
             (JObj [("error"%string,
                     JStr "OAuth2 client not initialized. Call initializeOAuth2() first.")])),
   w) ∧
  Auth.get_callback req w =
  (Return
     (if falsy (query req !! "code"%string)
      then Reply 400 (JObj [("error"%string, JStr "Authorization code required")])
      else Reply 500
             (JObj [("error"%string,
                     JStr "OAuth2 client not initialized. Call initializeOAuth2() first.")])),
   w).
Proof.
  intros Hi. split.
  - unfold Auth.get_url, Delegated.generateAuthUrl, Delegated.ensureInitialized,
      try_catch, bind. rewrite Hi. reflexivity.
  - rewrite run_get_callback, Hi.
    destruct (falsy (query req !! "code"%string)); reflexivity.
Qed.

(** X9, witness: a fresh process. *)
Lemma auth_routes_uninitialized_witness :
  Auth.get_url (request_of [] [] [] None) (fresh Missing t0) =
  (Return (Reply 500
             (JObj [("error"%string,
                     JStr "OAuth2 client not initialized. Call initializeOAuth2() first.")])),
   fresh Missing t0) ∧
  Auth.get_callback (request_of [("code", "4/good")]%string [] [] None) (fresh Missing t0) =
  (Return (Reply 500
             (JObj [("error"%string,
                     JStr "OAuth2 client not initialized. Call initializeOAuth2() first.")])),
   fresh Missing t0).
Proof.
  split.
  - apply (auth_routes_uninitialized (request_of [] [] [] None) (fresh Missing t0) eq_refl).
  - apply (auth_routes_uninitialized (request_of [("code", "4/good")]%string [] [] None)
             (fresh Missing t0) eq_refl).
Defined.

(* ================================================================== *)
(** * The delegated routes, with and without a client *)

(** What the two middlewares do, case by case. *)
Lemma loadUserTokens_cases `{Json} `{Engine} (req : Req) (w : World) :
  Delegated.loadUserTokens req w =
  (Return
     (if falsy (query req !! "userId"%string) then
        inl (Delegated.error_reply 400
               "User ID required. Use the userId from authentication.")
      else if truthy (found (default ""%string (query req !! "userId"%string)) w) then
        inr (with_tokens req (found (default ""%string (query req !! "userId"%string)) w))
      else
        inl (Delegated.error_reply 404
               "User not found or not authenticated. Please authenticate first.")), w).
Proof.
  unfold Delegated.loadUserTokens, try_catch.
  destruct (falsy (query req !! "userId"%string)); [reflexivity|].
  unfold bind. rewrite run_loadTokens. destruct (truthy _); reflexivity.
Qed.

Lemma validateEmailAccess_cases (req : Req) (w : World) :
  Delegated.validateEmailAccess req w =
  (Return
     (if falsy (query req !! "targetEmail"%string) then
        inl (Delegated.error_reply 400 "targetEmail parameter is required")
      else if test Delegated.emailRegex (default ""%string (query req !! "targetEmail"%string))
      then inr (with_target req (query req !! "targetEmail"%string))
      else inl (Delegated.error_reply 400 "Invalid email format")), w).
Proof.
  unfold Delegated.validateEmailAccess, try_catch.
  destruct (falsy (query req !! "targetEmail"%string)); [reflexivity|].
  destruct (test _ _); reflexivity.
Qed.

(** A request that passes both middlewares reaches the handler with the
    tokens, their email and the target address. *)
Lemma past_both_gates `{Json} `{Engine} (handler : Req → Js Res) (req : Req) (w : World)
    (userId target : string) (tokens : jsval) :
  query req !! "userId"%string = Some userId → userId ≠ ""%string →
  fst (loadTokens userId w) = Return tokens → truthy tokens = true →
  query req !! "targetEmail"%string = Some target →
  test Delegated.emailRegex target = true →
  next_with (Delegated.loadUserTokens req)
    (fun req => next_with (Delegated.validateEmailAccess req) handler) w =
  handler (with_target (with_tokens req tokens) (Some target)) w.
Proof.
  intros Hu Hne Hst Htrue Ht Hre.
  rewrite (next_with_next _ _ _ _ (run_loadUserTokens req w userId tokens Hu Hne Hst Htrue)).
  rewrite (next_with_next _ _ _ _
             (run_validateEmailAccess (with_tokens req tokens) w target Ht Hre)).
  reflexivity.
Qed.

(** X10: every delegated route needs a stored user.  When the user id is
    missing or empty, or [loadTokens] finds no record for it (a missing,
    unreadable or corrupt token file included), each of the five routes
    answers 400, respectively 404, before it looks at anything else; no
    remote call is issued and nothing changes. *)
Theorem delegated_routes_need_a_stored_user `{Json} `{Engine} `{Provider} `{Client}
    (req : Req) (w : World) :
  falsy (query req !! "userId"%string) = true ∨
  fst (loadTokens (default ""%string (query req !! "userId"%string)) w) = Return null →
  Forall
    (fun route =>
       route req w =
       (Return
          (if falsy (query req !! "userId"%string) then
             Reply 400
               (JObj [("error"%string,
                       JStr "User ID required. Use the userId from authentication.")])
           else
             Reply 404
               (JObj [("error"%string,
                       JStr "User not found or not authenticated. Please authenticate first.")])),
        w))
    delegated_routes.
Proof.
  intros Hload. rewrite run_loadTokens in Hload. cbn [fst] in Hload.
  assert (Hgate : ∀ handler : Req → Js Res,
            next_with (Delegated.loadUserTokens req) handler w =
            (Return
               (if falsy (query req !! "userId"%string) then
                  Delegated.error_reply 400
                    "User ID required. Use the userId from authentication."
                else
                  Delegated.error_reply 404
                    "User not found or not authenticated. Please authenticate first."), w)).
  { intros handler. unfold next_with, bind. rewrite loadUserTokens_cases.
    destruct (falsy _) eqn:Hf; [reflexivity|].
    destruct Hload as [Hload|Hload]; [congruence|].
    injection Hload as ->. reflexivity. }
  repeat constructor; apply Hgate.
Qed.

(** X10, witness: no user id, and an id that the store does not know. *)
Lemma delegated_routes_need_a_stored_user_witness :
  Delegated.get_inbox (request_of [("targetEmail", "boss@x.org")]%string [] [] None) store_u2
  = (Return
       (Reply 400
          (JObj [("error"%string,
                  JStr "User ID required. Use the userId from authentication.")])),
     store_u2) ∧
  Delegated.get_inbox
    (request_of [("userId", "u9"); ("targetEmail", "boss@x.org")]%string [] [] None) store_u2
  = (Return
       (Reply 404
          (JObj [("error"%string,
                  JStr "User not found or not authenticated. Please authenticate first.")])),
     store_u2).
Proof.
  split.
  - apply (Forall_inv
             (delegated_routes_need_a_stored_user
                (request_of [("targetEmail", "boss@x.org")]%string [] [] None) store_u2
                (or_introl eq_refl))).
  - assert (Hnone : fst (loadTokens "u9" store_u2) = Return null)
      by (vm_compute; reflexivity).
    apply (Forall_inv
             (delegated_routes_need_a_stored_user
                (request_of [("userId", "u9"); ("targetEmail", "boss@x.org")]%string [] []
                   None) store_u2
                (or_intror Hnone))).
Defined.

(* ------------------------------------------------------------------ *)
(** *** The addresses that [validateEmailAccess] lets through *)

Lemma append_nil_inv (a b : string) : a +:+ b = ""%string → a = ""%string ∧ b = ""%string.
Proof. destruct a; [auto|discriminate]. Qed.

Lemma nullable_matches (r : regex) : nullable r = true ↔ matches r "".
Proof.
  split.
  - induction r as [| |p|r1 IH1 r2 IH2|r1 IH1 r2 IH2|r IH]; cbn [nullable]; intros Hn.
    + discriminate.
    + constructor.
    + discriminate.
    + apply andb_true_iff in Hn as [H1 H2].
      change ""%string with (("" +:+ "")%string). constructor; auto.
    + apply orb_true_iff in Hn as [H1|H2]; [apply matches_alt_l|apply matches_alt_r]; auto.
    + constructor.
  - intros Hm. remember ""%string as s eqn:Hs.
    induction Hm as [|p c Hc|r1 r2 s1 s2 _ IH1 _ IH2|r1 r2 s _ IH|r1 r2 s _ IH| |r s1 s2 _ _ _ _];
      cbn [nullable]; try reflexivity.
    + discriminate.
    + apply append_nil_inv in Hs as [-> ->]. rewrite IH1, IH2; reflexivity.
    + rewrite IH; auto.
    + rewrite IH; auto. apply orb_true_r.
Qed.

(** The derivative by [c] has the strings that, after [c], are strings
    of the expression. *)
Lemma derive_matches (r : regex) (c : ascii) (s : string) :
  matches (derive c r) s ↔ matches r (String c s).
Proof.
  split.
  - revert s. induction r as [| |p|r1 IH1 r2 IH2|r1 IH1 r2 IH2|r IH]; cbn [derive]; intros s Hm.
    + inversion Hm.
    + inversion Hm.
    + destruct (p c) eqn:Hc; inversion Hm; subst. constructor. exact Hc.
    + destruct (nullable r1) eqn:Hn.
      * inversion Hm as [| | |? ? ? Hl|? ? ? Hr| |]; subst.
        -- inversion Hl as [| |? ? s1 s2 H1 H2| | | |]; subst.
           change (String c (s1 +:+ s2)) with (String c s1 +:+ s2). constructor; auto.
        -- change (String c s) with ("" +:+ String c s). constructor; auto.
           apply nullable_matches, Hn.
      * inversion Hm as [| |? ? s1 s2 H1 H2| | | |]; subst.
        change (String c (s1 +:+ s2)) with (String c s1 +:+ s2). constructor; auto.
    + inversion Hm; subst; [apply matches_alt_l|apply matches_alt_r]; auto.
    + inversion Hm as [| |? ? s1 s2 H1 H2| | | |]; subst.
      change (String c (s1 +:+ s2)) with (String c s1 +:+ s2). constructor; auto.
  - intros Hm. remember (String c s) as cs eqn:Hcs. revert s Hcs.
    induction Hm as [|p c' Hc|r1 r2 s1 s2 H1 IH1 H2 IH2|r1 r2 s' _ IH|r1 r2 s' _ IH|
                     |r s1 s2 H1 IH1 H2 IH2]; intros s Hcs; cbn [derive].
    + discriminate.
    + injection Hcs as -> <-. rewrite Hc. constructor.
    + destruct s1 as [|a s1].
      * change ("" +:+ s2) with s2 in Hcs.
        replace (nullable r1) with true by (symmetry; apply nullable_matches, H1).
        apply matches_alt_r. apply IH2, Hcs.
      * change (String a s1 +:+ s2) with (String a (s1 +:+ s2)) in Hcs.
        injection Hcs as -> <-.
        destruct (nullable r1); [apply matches_alt_l|]; constructor; auto.
    + apply matches_alt_l. auto.
    + apply matches_alt_r. auto.
    + discriminate.
    + destruct s1 as [|a s1].
      * change ("" +:+ s2) with s2 in Hcs. apply IH2, Hcs.
      * change (String a s1 +:+ s2) with (String a (s1 +:+ s2)) in Hcs.
        injection Hcs as -> <-. constructor; auto.
Qed.

Lemma test_matches (r : regex) (s : string) : test r s = true ↔ matches r s.
Proof.
  revert r. induction s as [|c s IH]; intros r; cbn [test].
  - apply nullable_matches.
  - rewrite IH. apply derive_matches.
Qed.

Lemma matches_star_class (p : ascii → bool) (s : string) :
  matches (Star (Class p)) s ↔ all_chars p s = true.
Proof.
  split.
  - intros Hm. remember (Star (Class p)) as r eqn:Hr.
    induction Hm as [| | | | | |r s1 s2 H1 _ H2 IH2]; try discriminate.
    + reflexivity.
    + injection Hr as ->. inversion H1 as [|? c Hc| | | | |]; subst.
      change (String c "" +:+ s2) with (String c s2). cbn [all_chars].
      rewrite IH2 by reflexivity. rewrite Hc. reflexivity.
  - induction s as [|c s IH]; cbn [all_chars]; intros Ha.
    + constructor.
    + apply andb_true_iff in Ha as [Hc Hs].
      change (String c s) with (String c "" +:+ s). constructor; [constructor|]; auto.
Qed.

Lemma matches_plus_class (p : ascii → bool) (s : string) :
  matches (Plus (Class p)) s ↔ s ≠ ""%string ∧ all_chars p s = true.
Proof.
  unfold Plus. split.
  - intros Hm. inversion Hm as [| |? ? s1 s2 H1 H2| | | |]; subst.
    inversion H1 as [|? c Hc| | | | |]; subst. apply matches_star_class in H2.
    change (String c "" +:+ s2) with (String c s2). split; [discriminate|].
    cbn [all_chars]. rewrite Hc, H2. reflexivity.
  - intros [Hne Ha]. destruct s as [|c s]; [contradiction|].
    cbn [all_chars] in Ha. apply andb_true_iff in Ha as [Hc Hs].
    change (String c s) with (String c "" +:+ s).
    constructor; [constructor; auto|apply matches_star_class; auto].
Qed.

(** The strings that [emailRegex] accepts. *)
Lemma emailRegex_shape (s : string) :
  test Delegated.emailRegex s = true ↔
  ∃ a b c : string,
    s = a +:+ "@" +:+ b +:+ "." +:+ c ∧
    a ≠ ""%string ∧ b ≠ ""%string ∧ c ≠ ""%string ∧
    all_chars Delegated.not_space_or_at a = true ∧
    all_chars Delegated.not_space_or_at b = true ∧
    all_chars Delegated.not_space_or_at c = true.
Proof.
  rewrite test_matches. unfold Delegated.emailRegex. split.
  - intros Hm.
    inversion Hm as [| |? ? a s1 Ha H1| | | |]; subst.
    inversion H1 as [| |? ? at_ s2 Hat H2| | | |]; subst.
    inversion H2 as [| |? ? b s3 Hb H3| | | |]; subst.
    inversion H3 as [| |? ? dot c Hdot Hc| | | |]; subst.
    inversion Hat as [|? x Hx| | | | |]; subst.
    inversion Hdot as [|? y Hy| | | | |]; subst.
    apply Ascii.eqb_eq in Hx as <-. apply Ascii.eqb_eq in Hy as <-.
    apply matches_plus_class in Ha as [? ?], Hb as [? ?], Hc as [? ?].
    exists a, b, c. repeat split; auto.
  - intros (a & b & c & -> & Ha & Hb & Hc & Hpa & Hpb & Hpc).
    constructor; [apply matches_plus_class; auto|].
    change ("@" +:+ b +:+ "." +:+ c) with (String "@" "" +:+ (b +:+ "." +:+ c)).
    constructor; [constructor; reflexivity|].
    constructor; [apply matches_plus_class; auto|].
    change ("." +:+ c) with (String "." "" +:+ c).
    constructor; [constructor; reflexivity|apply matches_plus_class; auto].
Qed.

(** X11: the addresses that pass [validateEmailAccess].  The middleware
    hands the request on exactly when [targetEmail] is a local part, an
    [@], a domain, a dot and an ending, the three of them not empty and
    free of white space and of [@]; so an accepted address has exactly one
    [@], with a dot somewhere after it. *)
Theorem validateEmailAccess_accepts (req : Req) (w : World) :
  (∃ next, Delegated.validateEmailAccess req w = (Return (inr next), w)) ↔
  ∃ a b c : string,
    query req !! "targetEmail"%string = Some (a +:+ "@" +:+ b +:+ "." +:+ c) ∧
    a ≠ ""%string ∧ b ≠ ""%string ∧ c ≠ ""%string ∧
    all_chars Delegated.not_space_or_at a = true ∧
    all_chars Delegated.not_space_or_at b = true ∧
    all_chars Delegated.not_space_or_at c = true.
Proof.
  rewrite validateEmailAccess_cases. split.
  - intros [next Hnext].
    destruct (query req !! "targetEmail"%string) as [s|] eqn:Hq; [|discriminate Hnext].
    unfold falsy in Hnext. destruct (decide (s = ""%string)); [discriminate Hnext|].
    change (default ""%string (Some s)) with s in Hnext.
    destruct (test Delegated.emailRegex s) eqn:Hre; [|discriminate Hnext].
    apply emailRegex_shape in Hre as (a & b & c & -> & Hrest). exists a, b, c. auto.
  - intros (a & b & c & Hq & Hrest). rewrite Hq.
    assert (Hre : test Delegated.emailRegex (a +:+ "@" +:+ b +:+ "." +:+ c) = true)
      by (apply emailRegex_shape; exists a, b, c; auto).
    unfold falsy. destruct (decide _) as [Hnil|_].
    + rewrite Hnil in Hre. discriminate Hre.
    + change (default ""%string (Some ?s)) with s. rewrite Hre. eexists. reflexivity.
Qed.

(* ------------------------------------------------------------------ *)
(** *** What the routes leave alone *)

Lemma quiet_refl `{Client} (w : World) : quiet w w.
Proof. unfold quiet. auto. Qed.

Lemma quiet_through_gmail {A} `{Client} (answer : list call → call → Error + A)
    (r : request) (w : World) :
  gmail w = true → quiet w (snd (Delegated.through_gmail answer r w)).
Proof.
  intros Hg. rewrite run_through_gmail. unfold quiet.
  rewrite (set_gmail_same w Hg).
  destruct (fst (authorize w r)) as [e|bearer] eqn:Hd; cbn [snd].
  - split; [reflexivity|]. split; [reflexivity|]. right. exists r. rewrite Hd. auto.
  - split; [reflexivity|]. split; [reflexivity|]. right. exists r. rewrite Hd. auto.
Qed.

Lemma quiet_sendEmailAsDelegate `{Provider} `{Client} (to subject body from : string)
    (w : World) :
  quiet w (snd (Delegated.sendEmailAsDelegate to subject body from w)).
Proof.
  rewrite run_sendEmailAsDelegate.
  destruct (gmail w || isInitialized w); [|apply quiet_refl]. cbv zeta. unfold quiet.
  match goal with |- context [fst (authorize ?w0 ?r)] =>
    destruct (fst (authorize w0 r)) as [e|bearer] eqn:Hd; cbn [snd];
    (split; [reflexivity|]); (split; [reflexivity|]); right; exists r; rewrite Hd; auto
  end.
Qed.

Lemma gated `{Json} `{Engine} `{Client} (handler : Req → Js Res) (req : Req) (w : World) :
  (∀ req', ∃ res w', handler req' w = (Return res, w') ∧ quiet w w') →
  ∃ res w', next_with (Delegated.loadUserTokens req) handler w = (Return res, w') ∧ quiet w w'.
Proof.
  intros Hh. unfold next_with, bind. rewrite loadUserTokens_cases.
  destruct (falsy _); [eexists _, _; split; [reflexivity|apply quiet_refl]|].
  destruct (truthy _); [apply Hh|].
  eexists _, _; split; [reflexivity|apply quiet_refl].
Qed.

Lemma validated `{Client} (handler : Req → Js Res) (req : Req) (w : World) :
  (∀ req', ∃ res w', handler req' w = (Return res, w') ∧ quiet w w') →
  ∃ res w', next_with (Delegated.validateEmailAccess req) handler w = (Return res, w') ∧
            quiet w w'.
Proof.
  intros Hh. unfold next_with, bind. rewrite validateEmailAccess_cases.
  destruct (falsy _); [eexists _, _; split; [reflexivity|apply quiet_refl]|].
  destruct (test _ _); [apply Hh|].
  eexists _, _; split; [reflexivity|apply quiet_refl].
Qed.

(** A handler that wraps one step in its [try] answers in the state
    that the step left. *)
Lemma caught {A} (step : Js A) (ok : A → Res) (failed : Error → Res) (w : World) :
  ∃ res,
    try_catch (let* a := step in ret (ok a)) (fun error => ret (failed error)) w
    = (Return res, snd (step w)).
Proof.
  unfold try_catch, bind, ret. destruct (step w) as [[a|e] w']; eexists; reflexivity.
Qed.

Lemma quiet_required `{Client} {A} (why : string) (step : Js A) (w : World) :
  (gmail w = true → quiet w (snd (step w))) →
  quiet w (snd ((Delegated.require_gmail why;; step) w)).
Proof.
  intros Hstep. unfold bind, Delegated.require_gmail.
  destruct (gmail w); [|apply quiet_refl].
  specialize (Hstep eq_refl). destruct (step w) as [[a|e] w']; exact Hstep.
Qed.

Lemma quiet_rewrapped `{Client} {A} (step : Js A) (handler : Error → Error) (w : World) :
  quiet w (snd (step w)) →
  quiet w (snd (try_catch step (fun error => throw (handler error)) w)).
Proof.
  unfold try_catch, throw. destruct (step w) as [[a|e] w']; auto.
Qed.

(** X12: what no delegated route does.  Each of the five routes answers
    (it never throws) and leaves the token file and the OAuth2 client as
    they are.  Either it issues no call and leaves the credentials of the
    client alone, or the client decides on one request from the state in
    which the route found it: the one call, if any, bears the access
    token of that decision and the credentials are those that the client
    itself then holds.  The client thus decides with the credentials it
    had, not with the tokens that [loadUserTokens] loaded. *)
Theorem delegated_routes_set_no_credentials `{Json} `{Engine} `{Provider} `{Client}
    (req : Req) (w : World) :
  Forall
    (fun route =>
       ∃ (res : Res) (w' : World),
         route req w = (Return res, w') ∧
         tokensFile w' = tokensFile w ∧ isInitialized w' = isInitialized w ∧
         ((calls w' = calls w ∧ credentials w' = credentials w) ∨
          ∃ r, credentials w' = snd (authorize (set_gmail true w) r) ∧
               calls w' = match fst (authorize (set_gmail true w) r) with
                          | inr bearer => calls w ++ [mkCall bearer r]
                          | inl _ => calls w
                          end))
    delegated_routes.
Proof.
  change (Forall (fun route => ∃ res w', route req w = (Return res, w') ∧ quiet w w')
            delegated_routes).
  unfold delegated_routes. repeat constructor.
  - apply gated. intros req1. apply validated. intros req2.
    match goal with |- context [try_catch (let* a := ?step in ret (?ok a)) ?h] =>
      destruct (caught step ok (fun error =>
                  Reply 500 (JObj [("error", JStr "Failed to fetch emails");
                                   ("details", JStr (message error))]%string)) w)
        as [res Hres]
    end.
    eexists _, _. split; [exact Hres|].
    unfold Delegated.getDelegatedEmails. apply quiet_required. intros Hg.
    apply quiet_rewrapped, quiet_through_gmail, Hg.
  - apply gated. intros req1. apply validated. intros req2.
    unfold try_catch at 1.
    destruct (falsy _ || falsy _ || falsy _ || falsy _);
      [eexists _, _; split; [reflexivity|apply quiet_refl]|].
    destruct (negb _); [eexists _, _; split; [reflexivity|apply quiet_refl]|].
    match goal with |- context [Delegated.sendEmailAsDelegate ?a ?b ?c ?d] =>
      pose proof (quiet_sendEmailAsDelegate a b c d w) as Hq;
      unfold bind, ret; destruct (Delegated.sendEmailAsDelegate a b c d w) as [[id|e] w']
    end; eexists _, _; (split; [reflexivity|exact Hq]).
  - apply gated. intros req1. apply validated. intros req2.
    unfold try_catch at 1.
    destruct (falsy _ || _); [eexists _, _; split; [reflexivity|apply quiet_refl]|].
    match goal with |- context [Delegated.getDelegatedEmail ?a ?b] =>
      assert (Hq : quiet w (snd (Delegated.getDelegatedEmail a b w)))
        by (unfold Delegated.getDelegatedEmail; apply quiet_required; intros Hg;
            apply quiet_rewrapped, quiet_through_gmail, Hg);
      unfold bind, ret; destruct (Delegated.getDelegatedEmail a b w) as [[data|e] w']
    end; eexists _, _; (split; [reflexivity|exact Hq]).
  - apply gated. intros req1. apply validated. intros req2.
    match goal with |- context [try_catch (let* a := ?step in ret (?ok a)) ?h] =>
      destruct (caught step ok (fun error => Delegated.error_reply 500 (message error)) w)
        as [res Hres]
    end.
    eexists _, _. split; [exact Hres|].
    unfold Delegated.getDelegatedThreads. apply quiet_required. intros Hg.
    apply quiet_rewrapped, quiet_through_gmail, Hg.
  - apply gated. intros req1. unfold try_catch.
    destruct (falsy _); eexists _, _; (split; [reflexivity|apply quiet_refl]).
Qed.

(* ------------------------------------------------------------------ *)
(** *** Requests that reach the service *)

(** X13: the delegated send.  A request of a user for whom [loadTokens]
    finds something, with a well-formed target address, the four fields
    and [from] equal to the target, goes to the shared OAuth2 client once
    the service has or can get a client.  The client decides from its own
    credentials, not from what is stored for the user: when it lets the
    request go, one call is issued for the mailbox [from] (the address
    between angle brackets, if it has one) with the access token of that
    decision, and the answer is 200 with [sentAs] and the message id, or
    500 with the rewrapped error of the remote side under [details]; when
    it refuses, no call is issued and the answer is 500 with its error.
    The service holds a client from then on.  Without an initialized
    OAuth2 client the answer is 500 with the error of [getGmailClient] and
    nothing changes. *)
Theorem delegated_send_goes_out `{Json} `{Engine} `{Provider} `{Client} (req : Req)
    (w : World) (userId target to subject text : string) (tokens : jsval) :
  query req !! "userId"%string = Some userId → userId ≠ ""%string →
  fst (loadTokens userId w) = Return tokens → truthy tokens = true →
  query req !! "targetEmail"%string = Some target →
  test Delegated.emailRegex target = true →
  body req !! "to"%string = Some to → to ≠ ""%string →
  body req !! "subject"%string = Some subject → subject ≠ ""%string →
  body req !! "body"%string = Some text → text ≠ ""%string →
  body req !! "from"%string = Some target →
  let r := MessagesSend (default target (angle_address target))
             (strip_padding
                (url_safe (base64 (utf8 (Delegated.delegate_text to subject text target)))))
  in
  let w1 := with_credentials (snd (authorize (set_gmail true w) r)) (set_gmail true w) in
  Delegated.post_send_delegated req w =
  if gmail w || isInitialized w then
    match fst (authorize (set_gmail true w) r) with
    | inr bearer =>
        (Return
           match messages_send (calls w) (mkCall bearer r) with
           | inr result =>
               Reply 200
                 (JObj ([("success", JBool true);
                         ("message", JStr "Email sent successfully as delegate");
                         ("sentAs", JStr target)]%string ++
                        member "messageId" (JStr <$> result)))
           | inl e =>
               Reply 500
                 (JObj [("error", JStr "Failed to send email");
                        ("details",
                         JStr ("Failed to send email as delegate: " +:+ message e))
                       ]%string)
           end, add_call (mkCall bearer r) w1)
    | inl e =>
        (Return
           (Reply 500
              (JObj [("error", JStr "Failed to send email");
                     ("details", JStr ("Failed to send email as delegate: " +:+ message e))
                    ]%string)), w1)
    end
  else
    (Return
       (Reply 500
          (JObj [("error", JStr "Failed to send email");
                 ("details",
                  JStr "OAuth2 client not initialized. Call initializeOAuth2() first.")
                ]%string)), w).
Proof.
  intros Hu Hne Hst Htrue Ht Hre Hto Hto' Hsub Hsub' Hbody Hbody' Hfrom r w1.
  assert (Hre' : target ≠ ""%string) by (intros ->; discriminate Hre).
  unfold Delegated.post_send_delegated.
  rewrite (past_both_gates _ req w userId target tokens Hu Hne Hst Htrue Ht Hre).
  unfold try_catch at 1. cbn [body with_target with_tokens targetEmail].
  rewrite Hto, Hsub, Hbody, Hfrom. unfold falsy.
  destruct (decide (to = ""%string)); [contradiction|].
  destruct (decide (subject = ""%string)); [contradiction|].
  destruct (decide (text = ""%string)); [contradiction|].
  destruct (decide (target = ""%string)); [contradiction|].
  cbn [orb]. rewrite bool_decide_eq_true_2 by reflexivity. cbn [negb from_option id].
  unfold bind. rewrite run_sendEmailAsDelegate.
  destruct (gmail w || isInitialized w); [|reflexivity]. cbv zeta. fold r. fold w1.
  destruct (fst (authorize (set_gmail true w) r)) as [e|bearer]; [reflexivity|].
  destruct (messages_send (calls w) (mkCall bearer r)); reflexivity.
Qed.

(** X13, witness: the first send of a process whose OAuth2 client holds
    the tokens of a login that is an hour from its expiry. *)
Lemma delegated_send_goes_out_witness :
  ∃ raw,
    Delegated.post_send_delegated
      (request_of [("userId", "u2"); ("targetEmail", "boss@x.org")]%string
         [("to", "a@b.c"); ("subject", "Hi"); ("body", "hello"); ("from", "boss@x.org")]%string
         [] None) (serving stored_u2 (Some granted) false t0)
    = (Return
         (Reply 200
            (JObj [("success", JBool true);
                   ("message", JStr "Email sent successfully as delegate");
                   ("sentAs", JStr "boss@x.org");
                   ("messageId", JStr "sent-1")]%string)),
       add_call (mkCall (Some "ya29.a"%string) (MessagesSend "boss@x.org" raw))
         (serving stored_u2 (Some granted) true t0)).
Proof.
  eexists.
  pose proof (delegated_send_goes_out
           (request_of [("userId", "u2"); ("targetEmail", "boss@x.org")]%string
              [("to", "a@b.c"); ("subject", "Hi"); ("body", "hello");
               ("from", "boss@x.org")]%string [] None)
           (serving stored_u2 (Some granted) false t0) "u2" "boss@x.org" "a@b.c" "Hi" "hello"
           (stored (a1 5000)))
    as Hsend.
  cbv zeta in Hsend. rewrite Hsend.
  - reflexivity.
  - vm_compute. reflexivity.
  - discriminate.
  - vm_compute. reflexivity.
  - reflexivity.
  - vm_compute. reflexivity.
  - vm_compute. reflexivity.
  - vm_compute. reflexivity.
  - discriminate.
  - vm_compute. reflexivity.
  - discriminate.
  - vm_compute. reflexivity.
  - discriminate.
  - vm_compute. reflexivity.
Defined.

(** X14: the delegated inbox once the service holds a client.  A request
    of a user for whom [loadTokens] finds something, with a well-formed
    target address, goes to the shared OAuth2 client, which decides from
    its own credentials whatever is stored for the user: when it lets the
    request go, one listing call is issued for the target mailbox with
    the access token of that decision, and the answer is 200 with the
    email of what is stored under [authenticatedAs] and the data of the
    remote side, or 500 with the rewrapped error under [details]; when it
    refuses, no call is issued and the answer is 500 with its error. *)
Theorem delegated_inbox_uses_shared_credentials `{Json} `{Engine} `{Provider} `{Client}
    (req : Req) (w : World) (userId target : string) (tokens : jsval) :
  gmail w = true →
  query req !! "userId"%string = Some userId → userId ≠ ""%string →
  fst (loadTokens userId w) = Return tokens → truthy tokens = true →
  query req !! "targetEmail"%string = Some target →
  test Delegated.emailRegex target = true →
  let r := MessagesList target (Delegated.maxResults_of req) None
             (if falsy (query req !! "pageToken"%string) then None
              else query req !! "pageToken"%string) in
  let w1 := with_credentials (snd (authorize w r)) w in
  Delegated.get_inbox req w =
  match fst (authorize w r) with
  | inr bearer =>
      (Return
         match opaque_data (calls w) (mkCall bearer r) with
         | inr data =>
             Reply 200
               (JObj ([("success"%string, JBool true)] ++
                      member "authenticatedAs" (field tokens "email") ++
                      [("accessing"%string, JStr target); ("data"%string, data)]))
         | inl e =>
             Reply 500
               (JObj [("error", JStr "Failed to fetch emails");
                      ("details",
                       JStr ("Failed to fetch emails from " +:+ target +:+ ": " +:+
                             message e))]%string)
         end, add_call (mkCall bearer r) w1)
  | inl e =>
      (Return
         (Reply 500
            (JObj [("error", JStr "Failed to fetch emails");
                   ("details",
                    JStr ("Failed to fetch emails from " +:+ target +:+ ": " +:+ message e))
                  ]%string)), w1)
  end.
Proof.
  intros Hg Hu Hne Hst Htrue Ht Hre r w1. unfold Delegated.get_inbox.
  rewrite (past_both_gates _ req w userId target tokens Hu Hne Hst Htrue Ht Hre).
  unfold try_catch at 1. unfold bind at 1.
  unfold Delegated.getDelegatedEmails, Delegated.require_gmail. unfold bind at 1.
  rewrite Hg. unfold try_catch. rewrite run_through_gmail.
  cbn [targetEmail with_target with_tokens query from_option id].
  change (Delegated.maxResults_of (with_target (with_tokens req tokens) (Some target)))
    with (Delegated.maxResults_of req).
  fold r. fold w1.
  destruct (fst (authorize w r)) as [e|bearer]; [reflexivity|].
  destruct (opaque_data (calls w) (mkCall bearer r)); reflexivity.
Qed.

(** X14, witness: the client holds the tokens of another login, an hour
    from their expiry; the request of [u2] is issued with their access
    token. *)
Lemma delegated_inbox_uses_shared_credentials_witness :
  Delegated.get_inbox
    (request_of [("userId", "u2"); ("targetEmail", "boss@x.org"); ("maxResults", "5")]%string
       [] [] None) (serving stored_u2 (Some granted) true t0)
  = (Return
       (Reply 200
          (JObj [("success", JBool true); ("accessing", JStr "boss@x.org");
                 ("data", JNull)]%string)),
     add_call (mkCall (Some "ya29.a"%string) (MessagesList "boss@x.org" (Some 5) None None))
       (serving stored_u2 (Some granted) true t0)).
Proof.
  pose proof (delegated_inbox_uses_shared_credentials
           (request_of [("userId", "u2"); ("targetEmail", "boss@x.org");
                        ("maxResults", "5")]%string [] [] None)
           (serving stored_u2 (Some granted) true t0) "u2" "boss@x.org" (stored (a1 5000)))
    as Hinbox.
  cbv zeta in Hinbox. rewrite Hinbox.
  - reflexivity.
  - reflexivity.
  - vm_compute. reflexivity.
  - discriminate.
  - vm_compute. reflexivity.
  - reflexivity.
  - vm_compute. reflexivity.
  - vm_compute. reflexivity.
Defined.

(** X15: what the delegated send refuses.  For a stored user and a
    well-formed target address, a request that lacks (or has empty) one of
    [to], [subject], [body] and [from] is answered 400 with the list of
    the required fields, and one whose [from] is not the target address is
    answered 400 as well; neither reaches the remote side nor changes
    anything. *)
Theorem delegated_send_validation `{Json} `{Engine} `{Provider} `{Client} (req : Req)
    (w : World) (userId target : string) (tokens : jsval) :
  query req !! "userId"%string = Some userId → userId ≠ ""%string →
  fst (loadTokens userId w) = Return tokens → truthy tokens = true →
  query req !! "targetEmail"%string = Some target →
  test Delegated.emailRegex target = true →
  falsy (body req !! "to"%string) || falsy (body req !! "subject"%string)
    || falsy (body req !! "body"%string) || falsy (body req !! "from"%string) = true
  ∨ body req !! "from"%string ≠ Some target →
  Delegated.post_send_delegated req w =
  (Return
     (Reply 400
        (JObj [("error"%string,
                JStr (if falsy (body req !! "to"%string)
                         || falsy (body req !! "subject"%string)
                         || falsy (body req !! "body"%string)
                         || falsy (body req !! "from"%string)
                      then "Missing required fields: to, subject, body, from"
                      else "From email must match the delegated mailbox"))])), w).
Proof.
  intros Hu Hne Hst Htrue Ht Hre Hbad. unfold Delegated.post_send_delegated.
  rewrite (past_both_gates _ req w userId target tokens Hu Hne Hst Htrue Ht Hre).
  unfold try_catch. cbn [body with_target with_tokens targetEmail].
  destruct (falsy (body req !! "to"%string) || falsy (body req !! "subject"%string)
            || falsy (body req !! "body"%string) || falsy (body req !! "from"%string));
    [reflexivity|].
  destruct Hbad as [Hbad|Hbad]; [discriminate|].
  rewrite bool_decide_eq_false_2 by exact Hbad. reflexivity.
Qed.

(** X15, witness: a sender that is not the delegated mailbox. *)
Lemma delegated_send_validation_witness :
  Delegated.post_send_delegated
    (request_of [("userId", "u2"); ("targetEmail", "boss@x.org")]%string
       [("to", "a@b.c"); ("subject", "Hi"); ("body", "hello"); ("from", "me@x.org")]%string
       [] None) store_u2
  = (Return
       (Reply 400
          (JObj [("error"%string, JStr "From email must match the delegated mailbox")])),
     store_u2).
Proof.
  apply (delegated_send_validation
           (request_of [("userId", "u2"); ("targetEmail", "boss@x.org")]%string
              [("to", "a@b.c"); ("subject", "Hi"); ("body", "hello");
               ("from", "me@x.org")]%string [] None)
           store_u2 "u2" "boss@x.org" (stored (a1 5000))).
  - vm_compute. reflexivity.
  - discriminate.
  - vm_compute. reflexivity.
  - reflexivity.
  - vm_compute. reflexivity.
  - vm_compute. reflexivity.
  - right. vm_compute. discriminate.
Defined.

(* ================================================================== *)
(** * The routes of [routes/emailRoutes.js] *)

(** X16: no route of [routes/emailRoutes.js] can succeed.  Every one of
    them answers 401 when [userId] or [tokens] is missing from the query
    (and only then), and 400 or 500 otherwise: the handlers call methods
    that the service does not have.  None issues a remote call or changes
    anything. *)
Theorem email_routes_never_succeed (req : Req) (w : World) :
  Forall
    (fun route =>
       ∃ (status : Z) (payload : json),
         route req w = (Return (Reply status payload), w) ∧
         (status = 400 ∨ status = 401 ∨ status = 500) ∧
         (status = 401 ↔
          falsy (query req !! "userId"%string) || falsy (query req !! "tokens"%string) = true))
    email_routes.
Proof.
  unfold email_routes. repeat constructor;
    unfold Delegated.post_send, EmailRoutes.get_inbox, EmailRoutes.get_email,
      EmailRoutes.get_threads, EmailRoutes.get_thread, EmailRoutes.calling,
      Delegated.requireAuth, next_with, bind;
    destruct (falsy (query req !! "userId"%string) || falsy (query req !! "tokens"%string));
    unfold ret at 1; unfold try_catch, throw, ret;
    try (destruct (falsy (body req !! "to"%string) || falsy (body req !! "subject"%string)
                   || falsy (body req !! "body"%string)));
    eexists _, _; (split; [reflexivity|]); (split; [auto|]); split; intros; try discriminate;
    auto.
Qed.

(* ================================================================== *)
(** * The service: credentials and mailbox of a call *)

Lemma run_initializeForUser (tokens : Tokens) (w : World) :
  Delegated.initializeForUser tokens w =
  if isInitialized w then (Return tt, set_gmail true (set_credentials tokens w))
  else (Throw (mkError "OAuth2 client not initialized. Call initializeOAuth2() first."), w).
Proof.
  unfold Delegated.initializeForUser, Delegated.setCredentials, Delegated.getGmailClient,
    Delegated.ensureInitialized, bind.
  destruct (isInitialized w) eqn:Hi; [|reflexivity].
  cbn [isInitialized set_credentials]. rewrite Hi. reflexivity.
Qed.

(** X17: [initializeForUser] and then [getDelegatedEmails].  With an
    initialized OAuth2 client the tokens given become the credentials of
    the client, the service gets its client, and the listing for the
    target mailbox (not for [me]) goes to the OAuth2 client, a page token
    being passed on only when it is not empty.  The client decides with
    the tokens given as its credentials: when it lets the request go, one
    call is issued with the access token of that decision and the result
    is the data of the remote side, or its error rewrapped with the target
    address; when it refuses, no call is issued and its error is rewrapped
    the same way.  Without an initialized client [initializeForUser]
    throws and nothing has changed: the service has no client and the
    credentials are as before. *)
Theorem initializeForUser_then_fetch `{Provider} `{Client} (tokens : Tokens)
    (targetEmail : string) (maxResults : number) (pageToken : option string) (w : World) :
  let r := MessagesList targetEmail maxResults None
             (if falsy pageToken then None else pageToken) in
  let w0 := set_gmail true (set_credentials tokens w) in
  let w1 := with_credentials (snd (authorize w0 r)) w0 in
  credentials w0 = Some tokens ∧
  (Delegated.initializeForUser tokens;;
   Delegated.getDelegatedEmails targetEmail maxResults pageToken) w =
  if isInitialized w then
    match fst (authorize w0 r) with
    | inr bearer =>
        (match opaque_data (calls w) (mkCall bearer r) with
         | inr data => Return data
         | inl e =>
             Throw (mkError ("Failed to fetch emails from " +:+ targetEmail +:+ ": " +:+
                             message e))
         end, add_call (mkCall bearer r) w1)
    | inl e =>
        (Throw (mkError ("Failed to fetch emails from " +:+ targetEmail +:+ ": " +:+
                         message e)), w1)
    end
  else
    (Throw (mkError "OAuth2 client not initialized. Call initializeOAuth2() first."), w).
Proof.
  intros r w0 w1. split; [reflexivity|].
  unfold bind at 1. rewrite run_initializeForUser.
  destruct (isInitialized w); [|reflexivity].
  unfold Delegated.getDelegatedEmails, Delegated.require_gmail. unfold bind at 1.
  fold w0. cbn [gmail w0 set_gmail]. unfold try_catch. rewrite run_through_gmail.
  fold r. fold w1.
  destruct (fst (authorize w0 r)) as [e|bearer]; [reflexivity|].
  cbn [calls w0 set_gmail set_credentials].
  destruct (opaque_data (calls w) (mkCall bearer r)); reflexivity.
Qed.

Lemma upto_last_gt_none (s : string) : occurs ">" s = false → upto_last_gt s = None.
Proof.
  induction s as [|c r IH]; [reflexivity|].
  cbn [occurs upto_last_gt]. intros [Hc Hr]%orb_false_elim.
  destruct (Ascii.eqb c (ascii_of_N 10) || Ascii.eqb c (ascii_of_N 13)); [reflexivity|].
  rewrite (IH Hr). rewrite Ascii.eqb_sym, Hc. reflexivity.
Qed.

Lemma upto_last_gt_closed (addr post : string) :
  one_line addr = true → occurs ">" post = false →
  upto_last_gt (addr +:+ ">" +:+ post) = Some addr.
Proof.
  intros Hline Hpost. induction addr as [|c r IH].
  - change ("" +:+ ">" +:+ post) with (String ">" post).
    cbn [upto_last_gt]. rewrite (upto_last_gt_none post Hpost). reflexivity.
  - change (String c r +:+ ">" +:+ post) with (String c (r +:+ ">" +:+ post)).
    unfold one_line in Hline. cbn [occurs] in Hline.
    apply andb_true_iff in Hline as [H10 H13].
    apply negb_true_iff, orb_false_elim in H10 as [Hc10 Hr10].
    apply negb_true_iff, orb_false_elim in H13 as [Hc13 Hr13].
    cbn [upto_last_gt]. rewrite (Ascii.eqb_sym c), Hc10, (Ascii.eqb_sym c), Hc13. cbn [orb].
    rewrite IH; [reflexivity|]. unfold one_line. rewrite Hr10, Hr13. reflexivity.
Qed.

Lemma angle_address_none (s : string) : occurs "<" s = false → angle_address s = None.
Proof.
  induction s as [|c r IH]; [reflexivity|].
  cbn [occurs angle_address]. intros [Hc Hr]%orb_false_elim.
  rewrite Ascii.eqb_sym, Hc. apply IH, Hr.
Qed.

Lemma angle_address_bracketed (name addr post : string) :
  occurs "<" name = false → addr ≠ ""%string → one_line addr = true →
  occurs ">" post = false →
  angle_address (name +:+ "<" +:+ addr +:+ ">" +:+ post) = Some addr.
Proof.
  intros Hname Hne Hline Hpost. induction name as [|c r IH].
  - change ("" +:+ "<" +:+ addr +:+ ">" +:+ post) with (String "<" (addr +:+ ">" +:+ post)).
    cbn [angle_address Ascii.eqb Bool.eqb].
    rewrite (upto_last_gt_closed addr post Hline Hpost).
    destruct addr; [contradiction|reflexivity].
  - change (String c r +:+ "<" +:+ addr +:+ ">" +:+ post)
      with (String c (r +:+ "<" +:+ addr +:+ ">" +:+ post)).
    cbn [occurs] in Hname. apply orb_false_elim in Hname as [Hc Hr].
    cbn [angle_address]. rewrite Ascii.eqb_sym, Hc. apply IH, Hr.
Qed.

(** X18: the mailbox of [sendEmailAsDelegate].  Once the service has or
    can get a client, the request that goes to the OAuth2 client is for
    the mailbox [from] when [from] has no [<], and for the address alone
    when [from] is a name, a [<], an address of one line that is not
    empty, a [>] and a rest without [>]; the call is issued, with the
    access token that the client decided on, unless the client refuses
    the request. *)
Theorem sendEmailAsDelegate_mailbox `{Provider} `{Client} (to subject body : string)
    (w : World) :
  gmail w || isInitialized w = true →
  (∀ from, occurs "<" from = false →
     let r := MessagesSend from
                (strip_padding
                   (url_safe (base64 (utf8 (Delegated.delegate_text to subject body from)))))
     in
     calls (snd (Delegated.sendEmailAsDelegate to subject body from w)) =
     match fst (authorize (set_gmail true w) r) with
     | inr bearer => calls w ++ [mkCall bearer r]
     | inl _ => calls w
     end) ∧
  (∀ name addr post,
     occurs "<" name = false → addr ≠ ""%string → one_line addr = true →
     occurs ">" post = false →
     let from := name +:+ "<" +:+ addr +:+ ">" +:+ post in
     let r := MessagesSend addr
                (strip_padding
                   (url_safe (base64 (utf8 (Delegated.delegate_text to subject body from)))))
     in
     calls (snd (Delegated.sendEmailAsDelegate to subject body from w)) =
     match fst (authorize (set_gmail true w) r) with
     | inr bearer => calls w ++ [mkCall bearer r]
     | inl _ => calls w
     end).
Proof.
  intros Hclient. split.
  - intros from Hfrom r. rewrite calls_sendEmailAsDelegate, Hclient.
    rewrite (angle_address_none from Hfrom). reflexivity.
  - intros name addr post Hname Hne Hline Hpost from r.
    rewrite calls_sendEmailAsDelegate, Hclient. subst r from.
    rewrite (angle_address_bracketed name addr post Hname Hne Hline Hpost).
    reflexivity.
Qed.

(** X18, witness: a display name before the address, through a client
    that holds the tokens of a login an hour from its expiry. *)
Lemma sendEmailAsDelegate_mailbox_witness :
  ∃ raw,
    calls (snd (Delegated.sendEmailAsDelegate "a@b.c" "Hi" "hello" "Boss <boss@x.org>"
                  (serving Missing (Some granted) false t0))) =
    [mkCall (Some "ya29.a"%string) (MessagesSend "boss@x.org" raw)].
Proof.
  destruct (sendEmailAsDelegate_mailbox "a@b.c" "Hi" "hello"
              (serving Missing (Some granted) false t0) eq_refl)
    as [_ Hbr].
  eexists.
  change "Boss <boss@x.org>"%string with ("Boss " +:+ "<" +:+ "boss@x.org" +:+ ">" +:+ "").
  rewrite (Hbr "Boss " "boss@x.org" ""); try reflexivity. discriminate.
Defined.

(* ================================================================== *)
(** * The endpoints of the dashboard server *)

Lemma run_listEmails `{Provider} `{Locale} (tok : string) (maxResults : number)
    (labelIds : list string) (w : World) :
  let c := mkCall (Some tok) (MessagesList "me" maxResults (Some labelIds) None) in
  Dashboard.listEmails tok maxResults labelIds w =
  match messages_list (calls w) c with
  | inl e => (Throw (mkError ("Failed to list emails: " +:+ message e)), add_call c w)
  | inr response =>
      (Return (entries (default [] response)
                 (fetches tok Dashboard.metadataHeaders (default [] response)
                    (calls w ++ [c]))),
       add_calls (c :: fetch_calls tok Dashboard.metadataHeaders (default [] response)) w)
  end.
Proof.
  intros c. unfold Dashboard.listEmails, try_catch.
  unfold bind at 1. unfold remote at 1. fold c.
  destruct (messages_list (calls w) c) as [e|response]; [reflexivity|].
  rewrite run_each_message. cbn [app calls add_call]. rewrite add_calls_cons. reflexivity.
Qed.

(** What [/api/emails] does for an authenticated session. *)
Lemma run_get_emails `{Provider} `{Locale} (req : Req) (w : World) (u : User) :
  user req = Some u →
  let c := mkCall (Some (accessToken u))
             (MessagesList "me" (Some (Dashboard.maxResults_or_20 req))
                (Some ["INBOX"%string]) None) in
  Dashboard.get_emails req w =
  match messages_list (calls w) c with
  | inl e =>
      (Return
         (Reply 500
            (JObj [("success", JBool false);
                   ("error", JStr ("Failed to list emails: " +:+ message e))]%string)),
       add_call c w)
  | inr response =>
      (Return
         (Reply 200
            (JObj [("success", JBool true);
                   ("emails",
                    JArr (map Dashboard.entry_json
                            (entries (default [] response)
                               (fetches (accessToken u) Dashboard.metadataHeaders
                                  (default [] response) (calls w ++ [c])))))]%string)),
       add_calls
         (c :: fetch_calls (accessToken u) Dashboard.metadataHeaders (default [] response)) w)
  end.
Proof.
  intros Hu c.
  unfold Dashboard.get_emails, Dashboard.ensureAuthenticated, next_with.
  rewrite Hu. unfold bind at 1. unfold ret at 1. unfold try_catch. unfold bind at 1.
  rewrite Hu, run_listEmails. fold c.
  destruct (messages_list (calls w) c) as [e|response]; reflexivity.
Qed.

(** X19: the listing endpoint of the dashboard server.  For an
    authenticated session it lists the label [INBOX] of the mailbox [me]
    with the access token of the session.  When the listing step fails
    the answer is 500 with the rewrapped error and one call was issued;
    when it arrives the answer is 200 with one entry per listed message,
    in the order and with the ids of the listing, however many of the
    detail fetches failed, and one call per message was issued after the
    listing. *)
Theorem dashboard_emails_route `{Provider} `{Locale} (req : Req) (w : World) (u : User) :
  user req = Some u →
  let c := mkCall (Some (accessToken u))
             (MessagesList "me" (Some (Dashboard.maxResults_or_20 req))
                (Some ["INBOX"%string]) None) in
  match messages_list (calls w) c with
  | inl e =>
      Dashboard.get_emails req w =
      (Return
         (Reply 500
            (JObj [("success", JBool false);
                   ("error", JStr ("Failed to list emails: " +:+ message e))]%string)),
       add_call c w)
  | inr response =>
      ∃ emails : list Dashboard.EmailEntry,
        Dashboard.get_emails req w =
        (Return
           (Reply 200
              (JObj [("success", JBool true);
                     ("emails", JArr (map Dashboard.entry_json emails))]%string)),
         add_calls
           (c :: fetch_calls (accessToken u) Dashboard.metadataHeaders (default [] response))
           w) ∧
        length emails = length (default [] response) ∧
        map entry_id emails = map ref_id (default [] response)
  end.
Proof.
  intros Hu c. pose proof (run_get_emails req w u Hu) as Hrun. cbv zeta in Hrun. fold c in Hrun.
  destruct (messages_list (calls w) c) as [e|response]; [exact Hrun|].
  eexists. split; [exact Hrun|].
  split; [apply length_entries|apply ids_entries].
Qed.

(** X19, witness: three messages are listed and the fetch of the second
    fails; the answer is 200 with three entries. *)
Lemma dashboard_emails_route_witness :
  ∃ emails w',
    Dashboard.get_emails (request_of [("maxResults", "3")]%string [] [] (Some ann))
      (fresh Missing t0)
    = (Return
         (Reply 200
            (JObj [("success", JBool true);
                   ("emails", JArr (map Dashboard.entry_json emails))]%string)), w') ∧
    length emails = 3%nat ∧
    map entry_id emails = ["m1"; "m2"; "m3"]%string.
Proof.
  pose proof (dashboard_emails_route
                (request_of [("maxResults", "3")]%string [] [] (Some ann))
                (fresh Missing t0) ann eq_refl) as Hroute.
  cbv zeta in Hroute. cbn [messages_list flaky] in Hroute.
  destruct Hroute as (emails & Hrun & Hlen & Hids).
  exists emails. eexists. split; [exact Hrun|]. split; [exact Hlen|exact Hids].
Defined.

(* ------------------------------------------------------------------ *)
(** *** [parseInt] reads back a decimal numeral *)

Lemma read_digits_uint (d : uint) (acc : Z) :
  read_digits 10 (NilEmpty.string_of_uint d) (Some acc) = Some (uint_value d acc).
Proof.
  revert acc. induction d as [|d IH|d IH|d IH|d IH|d IH|d IH|d IH|d IH|d IH|d IH];
    intros acc; [reflexivity|..];
    cbn [NilEmpty.string_of_uint read_digits uint_value];
    match goal with |- context [hex_value ?c] =>
      let v := eval vm_compute in (hex_value c) in change (hex_value c) with v end;
    cbn [Z.of_N Z.ltb Z.compare Pos.compare Pos.compare_cont from_option id];
    rewrite IH; f_equal; f_equal; lia.
Qed.

Lemma of_uint_acc_value (d : uint) (acc : positive) :
  Z.pos (Pos.of_uint_acc d acc) = uint_value d (Z.pos acc).
Proof.
  revert acc. induction d as [|d IH|d IH|d IH|d IH|d IH|d IH|d IH|d IH|d IH|d IH];
    intros acc; [reflexivity|..]; cbn [Pos.of_uint_acc uint_value]; rewrite IH;
    f_equal; lia.
Qed.

Lemma of_uint_value (d : uint) : Z.of_N (Pos.of_uint d) = uint_value d 0.
Proof.
  induction d as [|d IH|d IH|d IH|d IH|d IH|d IH|d IH|d IH|d IH|d IH];
    [reflexivity|exact IH|..];
    cbn [Pos.of_uint uint_value Z.of_N]; apply of_uint_acc_value.
Qed.

Lemma uint_value_to_uint (p : positive) : uint_value (Pos.to_uint p) 0 = Z.pos p.
Proof. rewrite <- of_uint_value, DecimalPos.Unsigned.of_to. reflexivity. Qed.

Lemma numeral_digits (d : uint) :
  d ≠ Nil →
  numeral (NilEmpty.string_of_uint d) = Some (uint_value d 0) ∧
  numeral (String "-" (NilEmpty.string_of_uint d)) = Some (- uint_value d 0).
Proof.
  intros Hd.
  assert (Hread : read_digits 10 (NilEmpty.string_of_uint d) None = Some (uint_value d 0)).
  { destruct d; [contradiction|..];
      cbn [NilEmpty.string_of_uint read_digits uint_value];
      match goal with |- context [hex_value ?c] =>
        let v := eval vm_compute in (hex_value c) in change (hex_value c) with v end;
      cbn [Z.of_N Z.ltb Z.compare Pos.compare Pos.compare_cont from_option id];
      rewrite read_digits_uint; reflexivity. }
  unfold numeral.
  destruct d as [|d|d|d|d|d|d|d|d|d|d]; [contradiction|..].
  all: try (split; cbn [NilEmpty.string_of_uint trimStart] in *;
            match goal with |- context [is_space ?c] =>
              let v := eval vm_compute in (is_space c) in change (is_space c) with v end;
            cbv iota; rewrite Hread; cbn [fmap option_fmap option_map]; f_equal; lia).
  destruct d as [|d|d|d|d|d|d|d|d|d|d]; [split; reflexivity|..];
    (split; cbn [NilEmpty.string_of_uint trimStart] in *;
     match goal with |- context [is_space ?c] =>
       let v := eval vm_compute in (is_space c) in change (is_space c) with v end;
     cbv iota; rewrite Hread; cbn [fmap option_fmap option_map]; f_equal; lia).
Qed.

(** The numeral of the decimal text of an integer is that integer. *)
Lemma numeral_decimal (n : Z) : numeral (decimal n) = Some n.
Proof.
  unfold decimal. destruct n as [|p|p]; [reflexivity|..];
    cbn [Z.to_int NilZero.string_of_int NilZero.string_of_uint];
    pose proof (Unsigned.to_uint_nonnil p) as Hnil;
    destruct (numeral_digits (Pos.to_uint p) Hnil) as [Hpos Hneg];
    rewrite uint_value_to_uint in Hpos, Hneg.
  - destruct (Pos.to_uint p); [contradiction|..]; exact Hpos.
  - destruct (Pos.to_uint p); [contradiction|..]; exact Hneg.
Qed.

(** An integer below [2^53] in absolute value is its own double. *)
Lemma to_double_exact (n : Z) : - 2 ^ 53 < n < 2 ^ 53 → to_double n = n.
Proof.
  intros Hn. unfold to_double.
  destruct (Z.eq_dec n 0) as [->|Hne]; [reflexivity|].
  assert (Hlog : Z.log2 (Z.abs n) < 53) by (apply Z.log2_lt_pow2; lia).
  destruct (Z.leb_spec (Z.log2 (Z.abs n) - 52) 0); [reflexivity|lia].
Qed.

(** From [2^53] on, a double holds every second integer at best: the
    numeral of [2^53 + 1] is read as [2^53], the one of [2^53 + 3] as
    [2^53 + 4]. *)
Lemma parseInt_rounds :
  parseInt "9007199254740993" = Some 9007199254740992 ∧
  parseInt "9007199254740995" = Some 9007199254740996.
Proof. split; vm_compute; reflexivity. Qed.

(** [parseInt] of the decimal text of an integer below [2^53] in
    absolute value is that integer. *)
Lemma parseInt_decimal (n : Z) : - 2 ^ 53 < n < 2 ^ 53 → parseInt (decimal n) = Some n.
Proof.
  intros Hn. unfold parseInt. rewrite numeral_decimal. cbn [fmap option_fmap option_map].
  rewrite (to_double_exact n Hn). reflexivity.
Qed.

(** X20: how many messages the dashboard asks for.  The first call of
    [/api/emails] for an authenticated session is the listing, and the
    number it asks for is never zero and never [NaN]: it is 20 when the
    query has no [maxResults], and for the decimal text of an integer
    (below 2^53 in absolute value) it is that integer, or 20 for zero. *)
Theorem dashboard_emails_count `{Provider} `{Locale} (req : Req) (w : World) (u : User) :
  user req = Some u →
  ∃ (m : Z) (rest : list call),
    calls (snd (Dashboard.get_emails req w)) =
    calls w ++
    mkCall (Some (accessToken u)) (MessagesList "me" (Some m) (Some ["INBOX"%string]) None)
    :: rest ∧
    m ≠ 0 ∧
    (query req !! "maxResults"%string = None → m = 20) ∧
    (∀ n, - 2 ^ 53 < n < 2 ^ 53 → query req !! "maxResults"%string = Some (decimal n) →
          m = if n =? 0 then 20 else n).
Proof.
  intros Hu. pose proof (run_get_emails req w u Hu) as Hrun. cbv zeta in Hrun.
  exists (Dashboard.maxResults_or_20 req).
  destruct (messages_list (calls w) _) as [e|response]; rewrite Hrun; cbn [snd];
    eexists; (split; [reflexivity|]);
    unfold Dashboard.maxResults_or_20;
    (split; [destruct (_ ≫= parseInt) as [n|];
             [destruct (n =? 0) eqn:Hn; [|apply Z.eqb_neq in Hn]|]; lia|]);
    (split; [intros ->; reflexivity|]);
    intros n Hn ->; cbn [mbind option_bind]; rewrite (parseInt_decimal n Hn); reflexivity.
Qed.

(** X20, witness: [maxResults=0] asks for twenty messages. *)
Lemma dashboard_emails_count_witness :
  ∃ rest,
    calls (snd (Dashboard.get_emails (request_of [("maxResults", "0")]%string [] [] (Some ann))
                  (fresh Missing t0))) =
    mkCall (Some "tok"%string) (MessagesList "me" (Some 20) (Some ["INBOX"%string]) None)
    :: rest.
Proof.
  destruct (dashboard_emails_count
              (request_of [("maxResults", "0")]%string [] [] (Some ann))
              (fresh Missing t0) ann eq_refl) as (m & rest & Hcalls & _ & _ & Hn).
  exists rest. rewrite Hcalls. rewrite (Hn 0); [reflexivity|lia|reflexivity].
Defined.

(* ------------------------------------------------------------------ *)
(** *** The sender of a summary *)

Lemma strip_tags_pending (pending mid post : string) :
  occurs ">" mid = false →
  strip_tags_from (Some pending) (mid +:+ ">" +:+ post) = strip_tags_from None post.
Proof.
  revert pending. induction mid as [|c r IH]; intros pending Hmid.
  - reflexivity.
  - change (String c r +:+ ">" +:+ post) with (String c (r +:+ ">" +:+ post)).
    cbn [occurs] in Hmid. apply orb_false_elim in Hmid as [Hc Hr].
    cbn [strip_tags_from]. rewrite Ascii.eqb_sym, Hc. apply IH, Hr.
Qed.

Lemma strip_tags_tag (pre mid post : string) :
  occurs "<" pre = false → occurs ">" mid = false →
  strip_tags (pre +:+ "<" +:+ mid +:+ ">" +:+ post) = pre +:+ strip_tags post.
Proof.
  intros Hpre Hmid. unfold strip_tags. induction pre as [|c r IH].
  - change ("" +:+ "<" +:+ mid +:+ ">" +:+ post) with (String "<" (mid +:+ ">" +:+ post)).
    cbn [strip_tags_from Ascii.eqb Bool.eqb]. apply strip_tags_pending, Hmid.
  - change (String c r +:+ "<" +:+ mid +:+ ">" +:+ post)
      with (String c (r +:+ "<" +:+ mid +:+ ">" +:+ post)).
    cbn [occurs] in Hpre. apply orb_false_elim in Hpre as [Hc Hr].
    cbn [strip_tags_from]. rewrite Ascii.eqb_sym, Hc.
    change (String c r +:+ strip_tags_from None post)
      with (String c (r +:+ strip_tags_from None post)).
    f_equal. apply IH, Hr.
Qed.

Lemma strip_tags_plain (s : string) : occurs "<" s = false → strip_tags s = s.
Proof.
  unfold strip_tags. induction s as [|c r IH]; [reflexivity|].
  cbn [occurs strip_tags_from]. intros [Hc Hr]%orb_false_elim.
  rewrite Ascii.eqb_sym, Hc, (IH Hr). reflexivity.
Qed.

(** X21: the sender that the dashboard lists.  For a [From] header that
    is a name followed by an address between angle brackets the sender is
    the trimmed name, so it is empty when the header is the bracketed
    address alone; for a header without [<] it is the trimmed header; and
    it is [Unknown Sender] when the header is missing or empty. *)
Theorem summary_sender `{Locale} (m : MessageRef) (email : EmailData) :
  (∀ name addr,
     header (payload_headers email) "From" = Some (name +:+ "<" +:+ addr +:+ ">") →
     occurs "<" name = false → occurs ">" addr = false →
     entry_from (Dashboard.summary m email) = Some (trim name)) ∧
  (∀ from,
     header (payload_headers email) "From" = Some from → from ≠ ""%string →
     occurs "<" from = false →
     entry_from (Dashboard.summary m email) = Some (trim from)) ∧
  (falsy (header (payload_headers email) "From") = true →
   entry_from (Dashboard.summary m email) = Some "Unknown Sender"%string).
Proof.
  unfold Dashboard.summary, entry_from. split; [|split].
  - intros name addr Hh Hname Haddr. rewrite Hh. f_equal.
    assert (Hne : name +:+ "<" +:+ addr +:+ ">" ≠ ""%string)
      by (destruct name; discriminate).
    unfold or_default, falsy. destruct (decide _); [contradiction|].
    cbn [from_option id]. f_equal.
    replace (name +:+ "<" +:+ addr +:+ ">") with (name +:+ "<" +:+ addr +:+ ">" +:+ "")
      by (rewrite append_nil_r; reflexivity).
    rewrite (strip_tags_tag name addr "" Hname Haddr). apply append_nil_r.
  - intros from Hh Hne Hplain. rewrite Hh. f_equal.
    unfold or_default, falsy. destruct (decide _); [contradiction|].
    cbn [from_option id]. rewrite (strip_tags_plain from Hplain). reflexivity.
  - intros Hf. unfold or_default. rewrite Hf. reflexivity.
Qed.

(** X21, witness: a name before the address, and the address alone. *)
Lemma summary_sender_witness :
  entry_from
    (Dashboard.summary (mkMessageRef "m1" None)
       (mkEmailData [mkHeader "From" "Ann <ann@x.org>"] None None None))
  = Some "Ann"%string ∧
  entry_from
    (Dashboard.summary (mkMessageRef "m1" None)
       (mkEmailData [mkHeader "From" "<ann@x.org>"] None None None))
  = Some ""%string.
Proof.
  split.
  - destruct (summary_sender (mkMessageRef "m1" None)
                (mkEmailData [mkHeader "From" "Ann <ann@x.org>"] None None None))
      as [Hname _].
    apply (Hname "Ann "%string "ann@x.org"%string); reflexivity.
  - destruct (summary_sender (mkMessageRef "m1" None)
                (mkEmailData [mkHeader "From" "<ann@x.org>"] None None None))
      as [Hname _].
    apply (Hname ""%string "ann@x.org"%string); reflexivity.
Defined.

(* ------------------------------------------------------------------ *)
(** *** The alphabet of a payload *)

Lemma url_safe_cons (c : ascii) (s : string) :
  url_safe (String c s) = String (url_safe_of c) (url_safe s).
Proof. reflexivity. Qed.

Lemma url_safe_b64_char (b5 b4 b3 b2 b1 b0 : bool) :
  url_safe_char (url_safe_of (b64_char (six b5 b4 b3 b2 b1 b0))) = true.
Proof. destruct b5, b4, b3, b2, b1, b0; reflexivity. Qed.

Lemma length_url_safe (s : string) : String.length (url_safe s) = String.length s.
Proof.
  induction s as [|c r IH]; [reflexivity|].
  rewrite url_safe_cons. cbn [String.length]. rewrite IH. reflexivity.
Qed.

Lemma base64_url_safe (bytes : string) :
  all_chars url_safe_or_pad (url_safe (base64 bytes)) = true ∧
  (∃ k, String.length (base64 bytes) = 4 * k)%nat.
Proof.
  induction bytes as [|a|a b|a b c r [IH (k & Hk)]] using string_ind3.
  - split; [reflexivity|exists 0%nat; reflexivity].
  - destruct a as [a0 a1 a2 a3 a4 a5 a6 a7].
    cbn [base64 encode3 Ascii.zero]. rewrite !url_safe_cons. cbn [all_chars].
    unfold url_safe_or_pad at 1 2. rewrite !url_safe_b64_char.
    split; [reflexivity|exists 1%nat; reflexivity].
  - destruct a as [a0 a1 a2 a3 a4 a5 a6 a7], b as [b0 b1 b2 b3 b4 b5 b6 b7].
    cbn [base64 encode3 Ascii.zero]. rewrite !url_safe_cons. cbn [all_chars].
    unfold url_safe_or_pad at 1 2 3. rewrite !url_safe_b64_char.
    split; [reflexivity|exists 1%nat; reflexivity].
  - destruct a as [a0 a1 a2 a3 a4 a5 a6 a7], b as [b0 b1 b2 b3 b4 b5 b6 b7],
      c as [c0 c1 c2 c3 c4 c5 c6 c7].
    cbn [base64 encode3]. rewrite !url_safe_cons. cbn [all_chars String.length].
    unfold url_safe_or_pad at 1 2 3 4. rewrite !url_safe_b64_char, IH.
    split; [reflexivity|exists (S k); lia].
Qed.

Lemma base64_url_safe_stripped (bytes : string) :
  all_chars url_safe_char (strip_padding (url_safe (base64 bytes))) = true.
Proof.
  rewrite strip_padding_url_safe. unfold strip_padding.
  induction bytes as [|a|a b|a b c r IH] using string_ind3.
  - reflexivity.
  - destruct a as [a0 a1 a2 a3 a4 a5 a6 a7].
    cbn [base64 encode3 Ascii.zero]. rewrite !dropEnd_keep by apply b64_char_not_pad.
    cbn [dropEnd Ascii.eqb Bool.eqb]. rewrite !url_safe_cons. cbn [all_chars].
    rewrite !url_safe_b64_char. reflexivity.
  - destruct a as [a0 a1 a2 a3 a4 a5 a6 a7], b as [b0 b1 b2 b3 b4 b5 b6 b7].
    cbn [base64 encode3 Ascii.zero]. rewrite !dropEnd_keep by apply b64_char_not_pad.
    cbn [dropEnd Ascii.eqb Bool.eqb]. rewrite !url_safe_cons. cbn [all_chars].
    rewrite !url_safe_b64_char. reflexivity.
  - destruct a as [a0 a1 a2 a3 a4 a5 a6 a7], b as [b0 b1 b2 b3 b4 b5 b6 b7],
      c as [c0 c1 c2 c3 c4 c5 c6 c7].
    cbn [base64 encode3]. rewrite !dropEnd_keep by apply b64_char_not_pad.
    rewrite !url_safe_cons. cbn [all_chars]. rewrite !url_safe_b64_char, IH. reflexivity.
Qed.

(** X22: the alphabet of the payloads.  The raw payload of [sendEmail]
    has only letters, digits, [-], [_] and the padding [=], and its length
    is a multiple of four; the one that [sendEmailAsDelegate] hands to the
    OAuth2 client, and that the call bears when the client lets it go,
    has only letters, digits, [-] and [_], no [=] at all. *)
Theorem payload_alphabet `{Provider} `{Client} (to subject text : string) :
  (∀ tok w, ∃ raw,
     calls (snd (Dashboard.sendEmail tok to subject text w)) =
     calls w ++ [mkCall (Some tok) (MessagesSend "me" raw)] ∧
     all_chars url_safe_or_pad raw = true ∧
     (∃ k, String.length raw = 4 * k)%nat) ∧
  (∀ from w,
     let raw := strip_padding
                  (url_safe (base64 (utf8 (Delegated.delegate_text to subject text from))))
     in
     let r := MessagesSend (default from (angle_address from)) raw in
     all_chars url_safe_char raw = true ∧
     calls (snd (Delegated.sendEmailAsDelegate to subject text from w)) =
     if gmail w || isInitialized w then
       match fst (authorize (set_gmail true w) r) with
       | inr bearer => calls w ++ [mkCall bearer r]
       | inl _ => calls w
       end
     else calls w).
Proof.
  split.
  - intros tok w. eexists. rewrite run_sendEmail. split; [reflexivity|].
    rewrite length_url_safe. apply base64_url_safe.
  - intros from w raw r. rewrite calls_sendEmailAsDelegate.
    split; [apply base64_url_safe_stripped|reflexivity].
Qed.

(** X22, witness: the payload of a delegated send, through a client that
    holds the tokens of a login an hour from its expiry. *)
Lemma payload_alphabet_witness :
  ∃ raw,
    all_chars url_safe_char raw = true ∧
    calls (snd (Delegated.sendEmailAsDelegate "a@b.c" "Hi" "hello" "boss@x.org"
                  (serving Missing (Some granted) false t0))) =
    [mkCall (Some "ya29.a"%string) (MessagesSend "boss@x.org" raw)].
Proof.
  destruct (payload_alphabet "a@b.c" "Hi" "hello") as [_ Hdelegate].
  destruct (Hdelegate "boss@x.org"%string (serving Missing (Some granted) false t0))
    as (Hsafe & Hcalls).
  eexists. split; [exact Hsafe|].
  rewrite Hcalls. reflexivity.
Defined.

(* ------------------------------------------------------------------ *)
(** *** Sending through the dashboard *)

(** X23: the send endpoint of the dashboard server with all three
    fields.  For an authenticated session it issues one send call for the
    mailbox [me] with the access token of the session and the payload of
    the trimmed message; the answer is 200 with the id of the message, or
    500 with the error of the remote side after [Failed to send email: ]. *)
Theorem dashboard_send_route `{Provider} (req : Req) (w : World) (u : User)
    (to subject text : string) :
  user req = Some u →
  body req !! "to"%string = Some to → to ≠ ""%string →
  body req !! "subject"%string = Some subject → subject ≠ ""%string →
  body req !! "message"%string = Some text → text ≠ ""%string →
  let c := mkCall (Some (accessToken u))
             (MessagesSend "me" (url_safe (base64 (utf8 (trim (rfc822 to subject text)))))) in
  Dashboard.post_send_email req w =
  (Return
     match messages_send (calls w) c with
     | inr result =>
         Reply 200
           (JObj ([("success", JBool true)]%string ++
                  member "messageId" (JStr <$> result) ++
                  [("message", JStr "Email sent successfully")]%string))
     | inl e =>
         Reply 500
           (JObj [("success", JBool false);
                  ("error", JStr ("Failed to send email: " +:+ message e))]%string)
     end, add_call c w).
Proof.
  intros Hu Hto Hto' Hsub Hsub' Htext Htext' c.
  unfold Dashboard.post_send_email, Dashboard.ensureAuthenticated, next_with.
  rewrite Hu. unfold bind at 1. unfold ret at 1. unfold try_catch at 1.
  rewrite Hto, Hsub, Htext, Hu. unfold falsy.
  destruct (decide (to = ""%string)); [contradiction|].
  destruct (decide (subject = ""%string)); [contradiction|].
  destruct (decide (text = ""%string)); [contradiction|].
  cbn [orb from_option id]. unfold bind. rewrite run_sendEmail. cbv zeta.
  change (Dashboard.email_text to subject text) with (trim (rfc822 to subject text)).
  fold c. destruct (messages_send (calls w) c); reflexivity.
Qed.

(** X23, witness: a message of the session [ann]. *)
Lemma dashboard_send_route_witness :
  ∃ raw,
    Dashboard.post_send_email
      (request_of [] [("to", "a@b.c"); ("subject", "Hi"); ("message", "hello")]%string []
         (Some ann))
      (fresh Missing t0)
    = (Return
         (Reply 200
            (JObj [("success", JBool true); ("messageId", JStr "sent-1");
                   ("message", JStr "Email sent successfully")]%string)),
       add_call (mkCall (Some "tok"%string) (MessagesSend "me" raw)) (fresh Missing t0)).
Proof.
  eexists.
  pose proof (dashboard_send_route
                (request_of [] [("to", "a@b.c"); ("subject", "Hi"); ("message", "hello")]%string
                   [] (Some ann))
                (fresh Missing t0) ann "a@b.c" "Hi" "hello") as Hsend.
  cbv zeta in Hsend. rewrite Hsend.
  - reflexivity.
  - reflexivity.
  - vm_compute. reflexivity.
  - discriminate.
  - vm_compute. reflexivity.
  - discriminate.
  - vm_compute. reflexivity.
  - discriminate.
Defined.

(* ================================================================== *)
(** * The listing endpoint of the basic server *)

Lemma run_basic_each_message `{Provider} (tok : string) (messages : list MessageRef)
    (acc : list Basic.EmailEntry) (w : World) :
  fst (Basic.each_message tok messages acc w) =
  match basic_entries messages (fetches tok Basic.metadataHeaders messages (calls w)) with
  | inr es => Return (acc ++ es)
  | inl e => Throw e
  end.
Proof.
  revert acc w. induction messages as [|m rest IH]; intros acc w.
  - cbn. rewrite app_nil_r. reflexivity.
  - cbn [Basic.each_message fetches basic_entries]. unfold bind at 1. unfold remote.
    destruct (messages_get (calls w) _) as [e|email]; [reflexivity|].
    rewrite IH. cbn [calls add_call].
    destruct (basic_entries rest _) as [e|es]; [reflexivity|].
    rewrite <- app_assoc. reflexivity.
Qed.

Lemma length_basic_entries `{Provider} (tok : string) (messages : list MessageRef)
    (history : list call) (es : list Basic.EmailEntry) :
  basic_entries messages (fetches tok Basic.metadataHeaders messages history) = inr es →
  length es = length messages ∧ map Basic.id es = map ref_id messages.
Proof.
  revert history es. induction messages as [|m rest IH]; intros history es.
  - cbn. intros [= <-]. auto.
  - cbn [fetches basic_entries]. destruct (messages_get history _) as [e|email]; [discriminate|].
    destruct (basic_entries rest _) as [e|es'] eqn:Hrest; [discriminate|].
    intros [= <-]. destruct (IH _ _ Hrest) as [Hlen Hids].
    cbn. rewrite Hlen, Hids. auto.
Qed.

(** X25: the listing endpoint of the basic server.  For an authenticated
    session it asks for ten messages of the mailbox [me], whatever the
    query says.  The answer is 500 with the rewrapped error when the
    listing step fails and also when any detail fetch fails, with the
    error of the first fetch that failed; it is 200, with one entry per
    listed message in the order and with the ids of the listing, only
    when every fetch arrived. *)
Theorem basic_emails_route `{Provider} (req : Req) (w : World) (u : User) :
  user req = Some u →
  let c := mkCall (Some (accessToken u)) (MessagesList "me" (Some 10) None None) in
  let failed (e : Error) :=
    Reply 500
      (JObj [("success", JBool false);
             ("error", JStr ("Failed to list emails: " +:+ message e))]%string) in
  fst (Basic.get_emails req w) =
  Return
    match messages_list (calls w) c with
    | inl e => failed e
    | inr response =>
        match basic_entries (default [] response)
                (fetches (accessToken u) Basic.metadataHeaders (default [] response)
                   (calls w ++ [c])) with
        | inl e => failed e
        | inr emails =>
            Reply 200
              (JObj [("success", JBool true);
                     ("emails", JArr (map Basic.entry_json emails))]%string)
        end
    end ∧
  ∀ response emails,
    messages_list (calls w) c = inr response →
    basic_entries (default [] response)
      (fetches (accessToken u) Basic.metadataHeaders (default [] response) (calls w ++ [c]))
    = inr emails →
    length emails = length (default [] response) ∧
    map Basic.id emails = map ref_id (default [] response).
Proof.
  intros Hu c failed. split.
  - unfold Basic.get_emails, Dashboard.ensureAuthenticated, next_with.
    rewrite Hu. unfold bind at 1. unfold ret at 1. unfold try_catch. unfold bind at 1.
    rewrite Hu. unfold Basic.listEmails, try_catch. unfold bind at 1. unfold remote at 1.
    fold c. destruct (messages_list (calls w) c) as [e|response]; [reflexivity|].
    pose proof (run_basic_each_message (accessToken u) (default [] response) []
                  (add_call c w)) as Hloop.
    cbn [calls add_call] in Hloop.
    destruct (Basic.each_message _ _ _ _) as [[es|e] w'] eqn:Hrun; cbn [fst] in Hloop;
      destruct (basic_entries _ _) as [e'|es']; try discriminate Hloop;
      injection Hloop as <-; reflexivity.
  - intros response emails _ Hall. exact (length_basic_entries _ _ _ _ Hall).
Qed.

(** X25, witness: three messages are listed and the fetch of the second
    fails; the answer is 500. *)
Lemma basic_emails_route_witness :
  fst (Basic.get_emails (request_of [("maxResults", "50")]%string [] [] (Some ann))
         (fresh Missing t0)) =
  Return
    (Reply 500
       (JObj [("success", JBool false);
              ("error", JStr "Failed to list emails: Requested entity was not found.")
             ]%string)).
Proof.
  destruct (basic_emails_route (request_of [("maxResults", "50")]%string [] [] (Some ann))
              (fresh Missing t0) ann eq_refl) as [Hrun _].
  exact Hrun.
Defined.

(* ================================================================== *)
(** * Line breaks in the fields of a send *)

(** X26: neither send neutralises a line break in the subject.  For a
    subject made of a text, a line break (CR LF for [sendEmail], LF for
    [sendEmailAsDelegate]) and a further line, the payload is the one of
    the message that has this further line as a header line of its own
    after the [Subject] line: [sendEmail] submits it, and
    [sendEmailAsDelegate] hands it to the OAuth2 client, which submits it
    unless it refuses the request. *)
Theorem sendEmail_header_injection `{Provider} `{Client}
    (tok to subject header text : string) (w : World) :
  calls (snd (Dashboard.sendEmail tok to (subject +:+ CRLF +:+ header) text w)) =
  calls w ++
  [mkCall (Some tok)
     (MessagesSend "me"
        (url_safe
           (base64
              (utf8
                 (trim
                    (join CRLF
                       ["To: " +:+ to;
                        "Content-Type: text/plain; charset=" +:+
                          String dquote ("UTF-8" +:+ String dquote "");
                        "MIME-Version: 1.0";
                        "Subject: " +:+ subject;
                        header;
                        "";
                        text]%string))))))] ∧
  ∀ from w',
    let r :=
      MessagesSend (default from (angle_address from))
        (strip_padding
           (url_safe
              (base64
                 (utf8
                    (join LF
                       ["From: " +:+ from;
                        "To: " +:+ to;
                        "Content-Type: text/html; charset=utf-8";
                        "MIME-Version: 1.0";
                        "Subject: " +:+ subject;
                        header;
                        "";
                        text]%string))))) in
    calls (snd (Delegated.sendEmailAsDelegate to (subject +:+ LF +:+ header) text from w')) =
    if gmail w' || isInitialized w' then
      match fst (authorize (set_gmail true w') r) with
      | inr bearer => calls w' ++ [mkCall bearer r]
      | inl _ => calls w'
      end
    else calls w'.
Proof.
  split.
  - rewrite run_sendEmail. cbv zeta. cbn [snd calls add_call]. do 6 f_equal.
    unfold Dashboard.email_text. f_equal. cbn [join]. rewrite !append_assoc. reflexivity.
  - intros from w' r. rewrite calls_sendEmailAsDelegate.
    assert (Hr : MessagesSend (default from (angle_address from))
                   (strip_padding
                      (url_safe
                         (base64
                            (utf8 (Delegated.delegate_text to (subject +:+ LF +:+ header)
                                     text from))))) = r).
    { unfold r. do 5 f_equal. unfold Delegated.delegate_text. cbn [join].
      rewrite !append_assoc. reflexivity. }
    rewrite Hr. reflexivity.
Qed.

(** X26, witness: a subject that carries a [Bcc] line, through the
    dashboard server and through a shared client that holds the tokens of
    a login an hour from its expiry. *)
Lemma sendEmail_header_injection_witness :
  calls (snd (Dashboard.sendEmail "tok" "a@b.c" ("Hi" +:+ CRLF +:+ "Bcc: eve@x.org") "hello"
                (fresh Missing t0))) =
  [mkCall (Some "tok"%string)
     (MessagesSend "me"
        (url_safe
           (base64
              (utf8
                 (join CRLF
                    ["To: a@b.c";
                     "Content-Type: text/plain; charset=" +:+
                       String dquote ("UTF-8" +:+ String dquote "");
                     "MIME-Version: 1.0";
                     "Subject: Hi";
                     "Bcc: eve@x.org";
                     "";
                     "hello"]%string)))))] ∧
  calls (snd (Delegated.sendEmailAsDelegate "a@b.c" ("Hi" +:+ LF +:+ "Bcc: eve@x.org") "hello"
                "boss@x.org" (serving Missing (Some granted) false t0))) =
  [mkCall (Some "ya29.a"%string)
     (MessagesSend "boss@x.org"
        (strip_padding
           (url_safe
              (base64
                 (utf8
                    (join LF
                       ["From: boss@x.org";
                        "To: a@b.c";
                        "Content-Type: text/html; charset=utf-8";
                        "MIME-Version: 1.0";
                        "Subject: Hi";
                        "Bcc: eve@x.org";
                        "";
                        "hello"]%string))))))].
Proof.
  destruct (sendEmail_header_injection "tok" "a@b.c" "Hi" "Bcc: eve@x.org" "hello"
              (fresh Missing t0)) as [Hsend Hdelegate].
  split; [exact Hsend|].
  rewrite (Hdelegate "boss@x.org"%string (serving Missing (Some granted) false t0)).
  reflexivity.
Defined.

(* ================================================================== *)
(** * The session gate of the two servers *)

(** X27: without a session the API routes of the dashboard server and of
    the basic server redirect to the start page; they issue no remote
    call and change nothing, whatever the request carries. *)
Theorem api_routes_need_a_session `{Provider} `{Locale} (req : Req) (w : World) :
  user req = None →
  Forall (fun route => route req w = (Return (Redirect "/"), w)) api_routes.
Proof.
  intros Hu. unfold api_routes.
  repeat constructor;
    unfold Dashboard.get_emails, Dashboard.post_send_email, Basic.get_emails,
      Dashboard.ensureAuthenticated, next_with, bind;
    rewrite Hu; reflexivity.
Qed.

(** X27, witness: a complete send request without a session. *)
Lemma api_routes_need_a_session_witness :
  Dashboard.post_send_email
    (request_of [] [("to", "a@b.c"); ("subject", "Hi"); ("message", "hello")]%string [] None)
    (fresh Missing t0)
  = (Return (Redirect "/"), fresh Missing t0).
Proof.
  pose proof (api_routes_need_a_session
                (request_of [] [("to", "a@b.c"); ("subject", "Hi"); ("message", "hello")]%string
                   [] None) (fresh Missing t0) eq_refl) as Hgate.
  apply (Forall_inv (Forall_inv_tail Hgate)).
Defined.

(* ================================================================== *)
(** * Whose credentials a delegated read carries *)

(** What a callback whose code is exchanged leaves in the process,
    whether or not the record is then saved: the credentials of the
    shared client are the tokens obtained; the Gmail client and the calls
    issued are as they were. *)
Lemma callback_sets_credentials `{Json} `{Engine} `{OAuth2} (login : Req) (w : World)
    (code : string) (granted : Tokens) :
  query login !! "code"%string = Some code → code ≠ ""%string →
  isInitialized w = true → getToken w code = inr granted →
  credentials (snd (Auth.get_callback login w)) = Some granted ∧
  gmail (snd (Auth.get_callback login w)) = gmail w ∧
  calls (snd (Auth.get_callback login w)) = calls w.
Proof.
  intros Hq Hne Hi Hx. rewrite run_get_callback, Hq. unfold falsy.
  destruct (decide (code = ""%string)); [contradiction|].
  change (default ""%string (Some code)) with code. rewrite Hi, Hx.
  rewrite run_saveTokens.
  destruct (merged _ _ _); [repeat split|].
  cbn [writeFault set_credentials]. destruct (writeFault w); [repeat split|].
  cbn [tokensFile set_credentials]. destruct (tokensFile w); repeat split.
Qed.

(** X28: the last login serves every user.  After a callback whose code
    is exchanged for tokens, in a process whose service holds a client,
    the credentials of the shared client are these tokens, and the inbox
    request of any user for whom [loadTokens] finds something is decided
    by the client from them, whatever is stored for the user of the
    request: one listing call with the access token of that decision is
    issued when the client lets the request go, none when it refuses. *)
Theorem last_login_serves_every_user `{Json} `{Engine} `{OAuth2} `{Provider} `{Client}
    (login req : Req) (w : World) (code : string) (granted : Tokens) (userTokens : jsval)
    (userId target : string) :
  query login !! "code"%string = Some code → code ≠ ""%string →
  isInitialized w = true → getToken w code = inr granted →
  gmail w = true →
  query req !! "userId"%string = Some userId → userId ≠ ""%string →
  fst (loadTokens userId (snd (Auth.get_callback login w))) = Return userTokens →
  truthy userTokens = true →
  query req !! "targetEmail"%string = Some target →
  test Delegated.emailRegex target = true →
  let w' := snd (Auth.get_callback login w) in
  let r := MessagesList target (Delegated.maxResults_of req) None
             (if falsy (query req !! "pageToken"%string) then None
              else query req !! "pageToken"%string) in
  credentials w' = Some granted ∧
  calls (snd (Delegated.get_inbox req w')) =
  match fst (authorize w' r) with
  | inr bearer => calls w ++ [mkCall bearer r]
  | inl _ => calls w
  end.
Proof.
  intros Hq Hcode Hi Hx Hclient Hu Hne Hst Htrue Ht Hre. cbv zeta.
  destruct (callback_sets_credentials login w code granted Hq Hcode Hi Hx)
    as (Hcreds & Hgmail & Hcalls).
  set (r := MessagesList target (Delegated.maxResults_of req) None
              (if falsy (query req !! "pageToken"%string) then None
               else query req !! "pageToken"%string)).
  revert Hst Hcreds Hgmail Hcalls. generalize (snd (Auth.get_callback login w)).
  intros w' Hst Hcreds Hgmail Hcalls.
  split; [exact Hcreds|].
  unfold Delegated.get_inbox.
  rewrite (past_both_gates _ req w' userId target userTokens Hu Hne Hst Htrue Ht Hre).
  unfold try_catch at 1. unfold bind at 1.
  unfold Delegated.getDelegatedEmails, Delegated.require_gmail. unfold bind at 1.
  rewrite Hgmail, Hclient. unfold try_catch. rewrite run_through_gmail.
  cbn [targetEmail with_target with_tokens query from_option id].
  change (Delegated.maxResults_of (with_target (with_tokens req userTokens) (Some target)))
    with (Delegated.maxResults_of req).
  fold r.
  destruct (fst (authorize w' r)) as [e|bearer]; [cbn [snd calls with_credentials]; exact Hcalls|].
  destruct (opaque_data (calls w') (mkCall bearer r));
    unfold throw, ret, bind; cbn [snd calls add_call with_credentials];
    rewrite Hcalls; reflexivity.
Qed.

(** X28, witness: the store holds [u2] with the access token [a1]; after
    the login with the first code the inbox of [u2] is read with the
    access token of that login. *)
Lemma last_login_serves_every_user_witness :
  calls (snd (Delegated.get_inbox
                (request_of [("userId", "u2"); ("targetEmail", "boss@x.org")]%string [] [] None)
                (snd (Auth.get_callback (request_of [("code", "4/good")]%string [] [] None)
                        (serving stored_u2 None true t0))))) =
  [mkCall (Some "ya29.a"%string) (MessagesList "boss@x.org" (Some 10) None None)].
Proof.
  pose proof (last_login_serves_every_user
           (request_of [("code", "4/good")]%string [] [] None)
           (request_of [("userId", "u2"); ("targetEmail", "boss@x.org")]%string [] [] None)
           (serving stored_u2 None true t0) "4/good" granted (stored (a1 5000))
           "u2" "boss@x.org") as Hlast.
  cbv zeta in Hlast. destruct Hlast as [_ Hcalls].
  - reflexivity.
  - discriminate.
  - reflexivity.
  - reflexivity.
  - reflexivity.
  - vm_compute. reflexivity.
  - discriminate.
  - vm_compute. reflexivity.
  - reflexivity.
  - vm_compute. reflexivity.
  - vm_compute. reflexivity.
  - rewrite Hcalls. vm_compute. reflexivity.
Defined.

(* ================================================================== *)
(** * No tag is left in a sender *)

Lemma tagless_no_gt (s : string) : occurs ">" s = false → tagless s = true.
Proof.
  induction s as [|c r IH]; [reflexivity|].
  cbn [occurs tagless]. intros [Hc Hr]%orb_false_elim.
  destruct (Ascii.eqb c "<"); [rewrite Hr; reflexivity|apply IH, Hr].
Qed.

Lemma tagless_tail (c : ascii) (r : string) : tagless (String c r) = true → tagless r = true.
Proof.
  cbn [tagless]. destruct (Ascii.eqb c "<"); [|auto].
  intros Hr%negb_true_iff. apply tagless_no_gt, Hr.
Qed.

Lemma tagless_trimStart (s : string) : tagless s = true → tagless (trimStart s) = true.
Proof.
  induction s as [|c r IH]; [reflexivity|].
  intros Hs. cbn [trimStart]. destruct (is_space c); [|exact Hs].
  apply IH, (tagless_tail c r Hs).
Qed.

Lemma tagless_dropEnd (p : ascii → bool) (s : string) :
  tagless s = true → tagless (dropEnd p s) = true.
Proof.
  induction s as [|c r IH]; [reflexivity|].
  intros Hs. pose proof (tagless_tail c r Hs) as Hr. specialize (IH Hr).
  cbn [dropEnd]. destruct (dropEnd p r) as [|c' r'] eqn:Hd.
  - destruct (p c); [reflexivity|]. cbn [tagless]. destruct (Ascii.eqb c "<"); reflexivity.
  - cbn [tagless] in Hs |- *. destruct (Ascii.eqb c "<"); [|exact IH].
    apply negb_true_iff in Hs. rewrite <- Hd. rewrite (occurs_dropEnd _ p r Hs). reflexivity.
Qed.

(** After a [<], either no [>] follows and the text is kept as it is, or
    the text up to the first [>] is dropped and the rest is read afresh. *)
Lemma strip_tags_pending_cases (r p : string) :
  (occurs ">" r = false ∧ strip_tags_from (Some p) r = p +:+ r) ∨
  ∃ post, (String.length post < String.length r)%nat ∧
          strip_tags_from (Some p) r = strip_tags_from None post.
Proof.
  revert p. induction r as [|c r IH]; intros p.
  - left. split; [reflexivity|]. cbn. rewrite append_nil_r. reflexivity.
  - cbn [strip_tags_from]. destruct (Ascii.eqb c ">") eqn:Hc.
    + right. exists r. split; [cbn; lia|reflexivity].
    + destruct (IH (p +:+ String c "")) as [[Hr Hrun]|(post & Hlen & Hrun)].
      * left. split; [cbn [occurs]; rewrite Ascii.eqb_sym, Hc, Hr; reflexivity|].
        rewrite Hrun, append_assoc. reflexivity.
      * right. exists post. split; [cbn; lia|exact Hrun].
Qed.

Lemma tagless_strip_tags (s : string) : tagless (strip_tags s) = true.
Proof.
  unfold strip_tags.
  remember (String.length s) as n eqn:Hn. revert s Hn.
  induction n as [n IH] using lt_wf_ind. intros s Hn.
  destruct s as [|c r]; [reflexivity|].
  cbn [strip_tags_from]. destruct (Ascii.eqb c "<") eqn:Hc.
  - destruct (strip_tags_pending_cases r "<") as [[Hr Hrun]|(post & Hlen & Hrun)].
    + rewrite Hrun. change ("<" +:+ r) with (String "<" r). cbn [tagless Ascii.eqb Bool.eqb].
      rewrite Hr. reflexivity.
    + rewrite Hrun. apply (IH (String.length post)); [cbn in Hn; lia|reflexivity].
  - cbn [tagless]. rewrite Hc. apply (IH (String.length r)); [cbn in Hn; lia|reflexivity].
Qed.

(** X29: no tag is left in a sender.  Whatever the [From] header holds,
    the sender that the dashboard lists has no [<] with a [>] somewhere
    after it. *)
Theorem summary_sender_tagless `{Locale} (m : MessageRef) (email : EmailData) :
  ∃ sender, entry_from (Dashboard.summary m email) = Some sender ∧ tagless sender = true.
Proof.
  unfold Dashboard.summary, entry_from. eexists. split; [reflexivity|].
  unfold trim, trimEnd. apply tagless_dropEnd, tagless_trimStart, tagless_strip_tags.
Qed.

(* ================================================================== *)
(** * The store after a save *)


